(** * oscrypto/_osx/tls.py: the Secure Transport TLS socket

    A shallow embedding of the callback bridge, the session constructor,
    the cipher-suite filter, the handshake result classifier and the
    buffered channel of [TLSSocket], with the properties the design
    document states about them.

    Python integers are [Z], byte strings are [list byte], text strings are
    [string].  Code that mutates the socket object and talks to Secure
    Transport or to the kernel runs in a state monad over the object, the
    module-level registries and a script of what the outside world answers;
    a raise keeps the mutations made before it, as in Python. *)

From stdpp Require Import gmap strings list.
From Stdlib Require Import ZArith Strings.Byte Strings.Ascii.

Local Open Scope Z_scope.

(** ** Python values *)

Abbreviation bytes := (list byte).

#[global] Instance byte_eq_dec : EqDecision byte := Byte.byte_eq_dec.

(** A byte-string literal. *)
Definition b (s : string) : bytes := String.list_byte_of_string s.

Definition len {A : Type} (l : list A) : Z := Z.of_nat (length l).

(** Python's normalisation of a slice bound against a sequence of [n]
    items: a negative bound counts from the end, and the result is clipped
    to [0 .. n]. *)
Definition slice_index (i : Z) (n : nat) : nat :=
  if i <? 0 then Z.to_nat (Z.max 0 (i + Z.of_nat n))
  else Z.to_nat (Z.min i (Z.of_nat n)).

(** [l[0:hi]] *)
Definition slice_to {A : Type} (l : list A) (hi : Z) : list A :=
  take (slice_index hi (length l)) l.

(** [l[lo:]] *)
Definition slice_from {A : Type} (l : list A) (lo : Z) : list A :=
  drop (slice_index lo (length l)) l.

(** [chunk.find(marker)]: the least offset at which [marker] occurs in
    [chunk], counted from [i]; [-1] when there is none. *)
Fixpoint find_from (marker chunk : bytes) (i : Z) : Z :=
  if bool_decide (take (length marker) chunk = marker) then i
  else match chunk with
       | [] => -1
       | _ :: rest => find_from marker rest (i + 1)
       end.

Definition find (chunk marker : bytes) : Z := find_from marker chunk 0.

(** ** Constants of the platform

    [SecurityConst] is declared in [_security.py] and [errno] in Python's
    library; the code only compares against them, so they are parameters. *)

Class SecurityConst := {
  errSSLProtocol : Z;
  errSSLWouldBlock : Z;
  errSSLClosedGraceful : Z;
  errSSLClosedAbort : Z;
  errSSLXCertChainInvalid : Z;
  errSSLUnknownRootCert : Z;
  errSSLNoRootCert : Z;
  errSSLCertExpired : Z;
  errSSLCertNotYetValid : Z;
  errSSLClosedNoNotify : Z;
  errSSLPeerHandshakeFail : Z;
  errSSLHostNameMismatch : Z;
  errSSLRecordOverflow : Z;
  errSSLWeakPeerEphemeralDHKey : Z;
  CSSMERR_TP_CERT_EXPIRED : Z;
  CSSMERR_TP_CERT_NOT_VALID_YET : Z;
  CSSMERR_TP_NOT_TRUSTED : Z;
  CSSMERR_APPLETP_HOSTNAME_MISMATCH : Z
}.

Class errno := {
  EAGAIN : Z;
  ECONNRESET : Z
}.

(** The values of the macOS headers (SecureTransport.h, cssmerr.h,
    sys/errno.h), used where a property is evaluated on a concrete run. *)
Definition darwin_SecurityConst : SecurityConst := {|
  errSSLProtocol := -9800;
  errSSLWouldBlock := -9803;
  errSSLClosedGraceful := -9805;
  errSSLClosedAbort := -9806;
  errSSLXCertChainInvalid := -9807;
  errSSLUnknownRootCert := -9812;
  errSSLNoRootCert := -9813;
  errSSLCertExpired := -9814;
  errSSLCertNotYetValid := -9815;
  errSSLClosedNoNotify := -9816;
  errSSLPeerHandshakeFail := -9824;
  errSSLHostNameMismatch := -9843;
  errSSLRecordOverflow := -9847;
  errSSLWeakPeerEphemeralDHKey := -9850;
  CSSMERR_TP_CERT_EXPIRED := -2147409654;
  CSSMERR_TP_CERT_NOT_VALID_YET := -2147409653;
  CSSMERR_TP_NOT_TRUSTED := -2147409622;
  CSSMERR_APPLETP_HOSTNAME_MISMATCH := -2147408896
|}.

Definition darwin_errno : errno := {| EAGAIN := 35; ECONNRESET := 54 |}.

(** ** Certificates and exceptions *)

(** What the classifier reads of a parsed certificate: [hash_algo] of the
    asn1crypto object and [self_signed] of the object that
    [load_certificate] returns for it. *)
Record Certificate := {
  subject : string;
  hash_algo : string;
  self_signed : bool
}.

#[global] Instance Certificate_eq_dec : EqDecision Certificate.
Proof. solve_decision. Defined.

(** The exception classes of the code.  [TLSError] is a subclass of
    [socket.error], itself an [OSError]. *)
Inductive exception_class := OSError_cls | TLSError_cls.

Inductive exn :=
| TypeError (about : string)
| ValueError (about : string)
| UnboundLocalError (name : string)
| AttributeError (name : string)
| TLSError (message : string)
| SecError (cls : exception_class) (code : Z)
| CFError
| socket_error (err : option Z)
| weak_signature (cert : Certificate)
| hostname_mismatch (cert : option Certificate) (hostname : string)
| expired_not_yet_valid (cert : option Certificate)
| no_issuer (cert : option Certificate)
| self_signed_error (cert : option Certificate)
| client_auth
| verification (cert : option Certificate)
| handshake_failure
| dh_params
| protocol_error (server_handshake_bytes : bytes)
| disconnection.

#[global] Instance exception_class_eq_dec : EqDecision exception_class.
Proof. solve_decision. Defined.

#[global] Instance exn_eq_dec : EqDecision exn.
Proof. solve_decision. Defined.

(** How a call ends: it returns, it raises, or it never comes back (a
    blocking wait on a peer that stays silent). *)
Inductive outcome (A : Type) : Type :=
| Return (a : A)
| Raise (e : exn)
| Hang.
Arguments Return {A} a.
Arguments Raise {A} e.
Arguments Hang {A}.

(** ** The socket object, the registries and the outside world *)

Abbreviation socket := Z (only parsing).
Abbreviation SSLContextRef := Z (only parsing).

Record TLSSocket := {
  _socket : option socket;
  _session_context : option SSLContextRef;
  _decrypted_bytes : bytes;
  _hostname : string;
  _done_handshake : bool;
  _server_hello : bytes;
  _client_hello : bytes;
  _local_closed : bool;
  _connection_id : option Z
}.

(** The calls that leave the module, in the order they are made. *)
Inductive call :=
| SSLRead (ctx : SSLContextRef) (to_read : Z)
| SSLGetBufferedReadSize (ctx : option SSLContextRef)
| SSLClose (ctx : SSLContextRef)
| SSLDisposeContext (ctx : SSLContextRef)
| CFRelease (ctx : SSLContextRef)
| select_select (rlist wlist : list socket) (timeout : option Z)
| socket_shutdown (s : socket)
| socket_close (s : socket)
| socket_recv (s : socket) (bufsize : Z)
| socket_send (s : socket) (data : bytes)
| socket_settimeout (s : socket) (timeout : option Z)
| SSLCopyPeerTrust (ctx : SSLContextRef)
| SecTrustGetCssmResultCode.

#[global] Instance call_eq_dec : EqDecision call.
Proof. solve_decision. Defined.

Inductive recv_reply := recv_data (chunk : bytes) | recv_error (err : option Z).
Inductive send_reply := send_count (sent : Z) | send_error (err : option Z).

(** The outside world as a script: the system the code runs on, and what
    each successive call of a kind answers.  A blocking
    call whose script is used up does not return. *)
Record world := {
  osx_version_info : Z * Z;
  SSLRead_replies : list (Z * bytes);
  SSLGetBufferedReadSize_replies : list (Z * Z);
  select_replies : list bool;
  SSLClose_reply : Z;
  SSLDisposeContext_reply : Z;
  CFRelease_fails : bool;
  SSLCopyPeerTrust_reply : Z;
  CssmResultCode : Z;
  socket_timeout : option Z;
  recv_replies : list recv_reply;
  send_replies : list send_reply;
  calls : list call
}.

(** One [TLSSocket] object is followed.  [_connection_refs] holds weak
    references to it: the ids under which the object is still found. *)
Record machine := {
  self : TLSSocket;
  _connection_refs : gset Z;
  _socket_refs : gmap Z socket;
  env : world
}.

Definition with_self (f : TLSSocket -> TLSSocket) (m : machine) : machine :=
  {| self := f (self m); _connection_refs := _connection_refs m;
     _socket_refs := _socket_refs m; env := env m |}.

Definition with_env (f : world -> world) (m : machine) : machine :=
  {| self := self m; _connection_refs := _connection_refs m;
     _socket_refs := _socket_refs m; env := f (env m) |}.

Definition with_socket_refs (f : gmap Z socket -> gmap Z socket) (m : machine) : machine :=
  {| self := self m; _connection_refs := _connection_refs m;
     _socket_refs := f (_socket_refs m); env := env m |}.

Definition set_socket (v : option socket) (s : TLSSocket) : TLSSocket :=
  {| _socket := v; _session_context := _session_context s;
     _decrypted_bytes := _decrypted_bytes s; _hostname := _hostname s;
     _done_handshake := _done_handshake s; _server_hello := _server_hello s;
     _client_hello := _client_hello s; _local_closed := _local_closed s;
     _connection_id := _connection_id s |}.

Definition set_session_context (v : option SSLContextRef) (s : TLSSocket) : TLSSocket :=
  {| _socket := _socket s; _session_context := v;
     _decrypted_bytes := _decrypted_bytes s; _hostname := _hostname s;
     _done_handshake := _done_handshake s; _server_hello := _server_hello s;
     _client_hello := _client_hello s; _local_closed := _local_closed s;
     _connection_id := _connection_id s |}.

Definition set_decrypted_bytes (v : bytes) (s : TLSSocket) : TLSSocket :=
  {| _socket := _socket s; _session_context := _session_context s;
     _decrypted_bytes := v; _hostname := _hostname s;
     _done_handshake := _done_handshake s; _server_hello := _server_hello s;
     _client_hello := _client_hello s; _local_closed := _local_closed s;
     _connection_id := _connection_id s |}.

Definition set_done_handshake (v : bool) (s : TLSSocket) : TLSSocket :=
  {| _socket := _socket s; _session_context := _session_context s;
     _decrypted_bytes := _decrypted_bytes s; _hostname := _hostname s;
     _done_handshake := v; _server_hello := _server_hello s;
     _client_hello := _client_hello s; _local_closed := _local_closed s;
     _connection_id := _connection_id s |}.

Definition set_server_hello (v : bytes) (s : TLSSocket) : TLSSocket :=
  {| _socket := _socket s; _session_context := _session_context s;
     _decrypted_bytes := _decrypted_bytes s; _hostname := _hostname s;
     _done_handshake := _done_handshake s; _server_hello := v;
     _client_hello := _client_hello s; _local_closed := _local_closed s;
     _connection_id := _connection_id s |}.

Definition set_client_hello (v : bytes) (s : TLSSocket) : TLSSocket :=
  {| _socket := _socket s; _session_context := _session_context s;
     _decrypted_bytes := _decrypted_bytes s; _hostname := _hostname s;
     _done_handshake := _done_handshake s; _server_hello := _server_hello s;
     _client_hello := v; _local_closed := _local_closed s;
     _connection_id := _connection_id s |}.

Definition set_local_closed (v : bool) (s : TLSSocket) : TLSSocket :=
  {| _socket := _socket s; _session_context := _session_context s;
     _decrypted_bytes := _decrypted_bytes s; _hostname := _hostname s;
     _done_handshake := _done_handshake s; _server_hello := _server_hello s;
     _client_hello := _client_hello s; _local_closed := v;
     _connection_id := _connection_id s |}.

Definition set_SSLRead_replies (v : list (Z * bytes)) (w : world) : world :=
  {| osx_version_info := osx_version_info w;
     SSLRead_replies := v;
     SSLGetBufferedReadSize_replies := SSLGetBufferedReadSize_replies w;
     select_replies := select_replies w;
     SSLClose_reply := SSLClose_reply w;
     SSLDisposeContext_reply := SSLDisposeContext_reply w;
     CFRelease_fails := CFRelease_fails w;
     SSLCopyPeerTrust_reply := SSLCopyPeerTrust_reply w;
     CssmResultCode := CssmResultCode w;
     socket_timeout := socket_timeout w;
     recv_replies := recv_replies w;
     send_replies := send_replies w;
     calls := calls w |}.

Definition set_SSLGetBufferedReadSize_replies (v : list (Z * Z)) (w : world) : world :=
  {| osx_version_info := osx_version_info w;
     SSLRead_replies := SSLRead_replies w;
     SSLGetBufferedReadSize_replies := v;
     select_replies := select_replies w;
     SSLClose_reply := SSLClose_reply w;
     SSLDisposeContext_reply := SSLDisposeContext_reply w;
     CFRelease_fails := CFRelease_fails w;
     SSLCopyPeerTrust_reply := SSLCopyPeerTrust_reply w;
     CssmResultCode := CssmResultCode w;
     socket_timeout := socket_timeout w;
     recv_replies := recv_replies w;
     send_replies := send_replies w;
     calls := calls w |}.

Definition set_select_replies (v : list bool) (w : world) : world :=
  {| osx_version_info := osx_version_info w;
     SSLRead_replies := SSLRead_replies w;
     SSLGetBufferedReadSize_replies := SSLGetBufferedReadSize_replies w;
     select_replies := v;
     SSLClose_reply := SSLClose_reply w;
     SSLDisposeContext_reply := SSLDisposeContext_reply w;
     CFRelease_fails := CFRelease_fails w;
     SSLCopyPeerTrust_reply := SSLCopyPeerTrust_reply w;
     CssmResultCode := CssmResultCode w;
     socket_timeout := socket_timeout w;
     recv_replies := recv_replies w;
     send_replies := send_replies w;
     calls := calls w |}.

Definition set_socket_timeout (v : option Z) (w : world) : world :=
  {| osx_version_info := osx_version_info w;
     SSLRead_replies := SSLRead_replies w;
     SSLGetBufferedReadSize_replies := SSLGetBufferedReadSize_replies w;
     select_replies := select_replies w;
     SSLClose_reply := SSLClose_reply w;
     SSLDisposeContext_reply := SSLDisposeContext_reply w;
     CFRelease_fails := CFRelease_fails w;
     SSLCopyPeerTrust_reply := SSLCopyPeerTrust_reply w;
     CssmResultCode := CssmResultCode w;
     socket_timeout := v;
     recv_replies := recv_replies w;
     send_replies := send_replies w;
     calls := calls w |}.

Definition set_recv_replies (v : list recv_reply) (w : world) : world :=
  {| osx_version_info := osx_version_info w;
     SSLRead_replies := SSLRead_replies w;
     SSLGetBufferedReadSize_replies := SSLGetBufferedReadSize_replies w;
     select_replies := select_replies w;
     SSLClose_reply := SSLClose_reply w;
     SSLDisposeContext_reply := SSLDisposeContext_reply w;
     CFRelease_fails := CFRelease_fails w;
     SSLCopyPeerTrust_reply := SSLCopyPeerTrust_reply w;
     CssmResultCode := CssmResultCode w;
     socket_timeout := socket_timeout w;
     recv_replies := v;
     send_replies := send_replies w;
     calls := calls w |}.

Definition set_send_replies (v : list send_reply) (w : world) : world :=
  {| osx_version_info := osx_version_info w;
     SSLRead_replies := SSLRead_replies w;
     SSLGetBufferedReadSize_replies := SSLGetBufferedReadSize_replies w;
     select_replies := select_replies w;
     SSLClose_reply := SSLClose_reply w;
     SSLDisposeContext_reply := SSLDisposeContext_reply w;
     CFRelease_fails := CFRelease_fails w;
     SSLCopyPeerTrust_reply := SSLCopyPeerTrust_reply w;
     CssmResultCode := CssmResultCode w;
     socket_timeout := socket_timeout w;
     recv_replies := recv_replies w;
     send_replies := v;
     calls := calls w |}.

Definition set_calls (v : list call) (w : world) : world :=
  {| osx_version_info := osx_version_info w;
     SSLRead_replies := SSLRead_replies w;
     SSLGetBufferedReadSize_replies := SSLGetBufferedReadSize_replies w;
     select_replies := select_replies w;
     SSLClose_reply := SSLClose_reply w;
     SSLDisposeContext_reply := SSLDisposeContext_reply w;
     CFRelease_fails := CFRelease_fails w;
     SSLCopyPeerTrust_reply := SSLCopyPeerTrust_reply w;
     CssmResultCode := CssmResultCode w;
     socket_timeout := socket_timeout w;
     recv_replies := recv_replies w;
     send_replies := send_replies w;
     calls := v |}.

Definition log (c : call) (w : world) : world := set_calls (calls w ++ [c]) w.

(** ** The monad of methods *)

Definition M (S A : Type) : Type := S -> outcome A * S.

Definition ret {S A : Type} (a : A) : M S A := fun s => (Return a, s).

Definition bind {S A B : Type} (m : M S A) (k : A -> M S B) : M S B :=
  fun s =>
    match m s with
    | (Return a, s') => k a s'
    | (Raise e, s') => (Raise e, s')
    | (Hang, s') => (Hang, s')
    end.

Definition raise {S A : Type} (e : exn) : M S A := fun s => (Raise e, s).
Definition hang {S A : Type} : M S A := fun s => (Hang, s).
Definition get {S : Type} : M S S := fun s => (Return s, s).
Definition modify {S : Type} (f : S -> S) : M S unit := fun s => (Return tt, f s).

(** [try: body finally: final]: [final] runs however [body] ends; when it
    ends normally the outcome of [body] stands, otherwise its own does. *)
Definition try_finally {S A : Type} (body : M S A) (final : M S unit) : M S A :=
  fun s =>
    match body s with
    | (Hang, s') => (Hang, s')
    | (r, s') =>
        match final s' with
        | (Return _, s'') => (r, s'')
        | (Raise e, s'') => (Raise e, s'')
        | (Hang, s'') => (Hang, s'')
        end
    end.

Declare Scope py_scope.
Delimit Scope py_scope with py.
Notation "x <- m ;; k" := (bind m (fun x => k))
  (at level 100, m at next level, right associativity) : py_scope.
Notation "m ;;; k" := (bind m (fun _ => k))
  (at level 100, right associativity) : py_scope.
Local Open Scope py_scope.

(** [osx_version_info < (major, minor)], the order of tuples. *)
Definition version_lt (v w : Z * Z) : bool :=
  (fst v <? fst w) || ((fst v =? fst w) && (snd v <? snd w)).

(** Modelled from the spec: [handle_sec_error] is defined in [_security.py],
    not under src/; "any other nonzero status is fatal" and the engine error
    preserves the raw code.  Status [0] passes, any other raises an error of
    the class asked for. *)
Definition handle_sec_error {S : Type} (result : Z) (cls : exception_class) : M S unit :=
  if bool_decide (result = 0) then ret tt else raise (SecError cls result).

(** Modelled from the spec: [handle_cf_error] is defined in
    [_core_foundation.py], not under src/; a Core Foundation call that
    reports an error raises. *)
Definition handle_cf_error {S : Type} (failed : bool) : M S unit :=
  if failed then raise CFError else ret tt.

(** ** The buffered channel *)

Section Channel.
Context `{SC : SecurityConst}.

Definition _raise_closed {A : Type} : M machine A :=
  m <- get ;;
  let message :=
    if _local_closed (self m) then "The connection was already closed"%string
    else "The remote end closed the connection"%string in
  raise (TLSError message).

(** What is left of the readiness reports once one says "ready". *)
Fixpoint wait_ready (replies : list bool) : list bool :=
  match replies with
  | false :: rest => wait_ready rest
  | _ => replies
  end.

(** [select.select(rlist, [], [], timeout)] on the socket: with no time
    limit it returns once the socket is readable, with one it reports
    what it found. *)
Definition select_wait (timeout : option Z) (replies : list bool)
  : option (bool * list bool) :=
  match timeout with
  | None =>
      match wait_ready replies with
      | ready :: rest => Some (ready, rest)
      | [] => None
      end
  | Some _ =>
      match replies with
      | ready :: rest => Some (ready, rest)
      | [] => Some (false, [])
      end
  end.

Definition select_read (timeout : option Z) : M machine bool :=
  m <- get ;;
  if 0 <? len (_decrypted_bytes (self m)) then ret true
  else
    match _socket (self m) with
    | None => raise (TypeError "select")
    | Some s =>
        modify (with_env (log (select_select [s] [] timeout))) ;;;
        match select_wait timeout (select_replies (env m)) with
        | Some (read_ready, rest) =>
            modify (with_env (set_select_replies rest)) ;;;
            ret read_ready
        | None => hang
        end
    end.

(** [Security.SSLRead(ctx, read_buffer, to_read, processed_pointer)]: the
    status and the bytes left in the buffer, which holds [to_read]. *)
Definition call_SSLRead (ctx : SSLContextRef) (to_read : Z) : M machine (Z * bytes) :=
  modify (with_env (log (SSLRead ctx to_read))) ;;;
  m <- get ;;
  match SSLRead_replies (env m) with
  | (result, data) :: rest =>
      modify (with_env (set_SSLRead_replies rest)) ;;;
      ret (result, take (Z.to_nat to_read) data)
  | [] => hang
  end.

Definition read (max_length : Z) : M machine bytes :=
  m <- get ;;
  match _session_context (self m) with
  | None =>
      if bool_decide (_decrypted_bytes (self m) <> []) then
        let output := _decrypted_bytes (self m) in
        modify (with_self (set_decrypted_bytes [])) ;;;
        ret output
      else _raise_closed
  | Some ctx =>
      let buffered_length := len (_decrypted_bytes (self m)) in
      if buffered_length >=? max_length then
        let output := slice_to (_decrypted_bytes (self m)) max_length in
        modify (with_self (set_decrypted_bytes
                             (slice_from (_decrypted_bytes (self m)) max_length))) ;;;
        ret output
      else
        give_buffered <-
          (if 0 <? buffered_length then
             ready <- select_read (Some 0) ;; ret (negb ready)
           else ret false) ;;
        if (give_buffered : bool) then
          m <- get ;;
          let output := _decrypted_bytes (self m) in
          modify (with_self (set_decrypted_bytes [])) ;;;
          ret output
        else
          m <- get ;;
          let to_read := max_length - len (_decrypted_bytes (self m)) in
          r <- call_SSLRead ctx to_read ;;
          let result := fst r in
          (if bool_decide (result <> 0)
              && negb (bool_decide (result = errSSLWouldBlock
                                    \/ result = errSSLClosedGraceful))
           then handle_sec_error result TLSError_cls
           else ret tt) ;;;
          m <- get ;;
          let output := _decrypted_bytes (self m) ++ snd r in
          modify (with_self (set_decrypted_bytes (slice_from output max_length))) ;;;
          ret (slice_to output max_length)
  end.

Definition _os_buffered_size : M machine Z :=
  m <- get ;;
  modify (with_env (log (SSLGetBufferedReadSize (_session_context (self m))))) ;;;
  let r := default (0, 0) (head (SSLGetBufferedReadSize_replies (env m))) in
  modify (with_env (set_SSLGetBufferedReadSize_replies
                      (tail (SSLGetBufferedReadSize_replies (env m))))) ;;;
  handle_sec_error (fst r) OSError_cls ;;;
  ret (snd r).

(** The marker of [read_until]: a byte string, or a compiled pattern
    given by what its [search] finds, the start and the end of the
    leftmost match. *)
Inductive marker_t :=
| literal (marker : bytes)
| pattern (search : bytes -> option (Z * Z)).

(** The [while True] loop of [read_until]; [fuel] bounds its rounds. *)
Fixpoint read_until_loop (fuel : nat) (marker : marker_t) (output : bytes)
  : M machine bytes :=
  match fuel with
  | O => hang
  | S fuel' =>
      m <- get ;;
      chunk <-
        (if 0 <? len (_decrypted_bytes (self m)) then
           modify (with_self (set_decrypted_bytes [])) ;;;
           ret (_decrypted_bytes (self m))
         else
           n <- _os_buffered_size ;;
           let to_read := if bool_decide (n <> 0) then n else 8192 in
           read to_read) ;;
      let output := output ++ chunk in
      let found :=
        match marker with
        | pattern search =>
            match search chunk with
            | Some (_, match_end) =>
                let offset := len output - len chunk in
                Some (offset + match_end)
            | None => None
            end
        | literal marker =>
            let match_ := find chunk marker in
            if bool_decide (match_ <> -1) then
              let offset := len output - len chunk in
              Some (offset + match_ + len marker)
            else None
        end in
      match found with
      | Some end_ =>
          m <- get ;;
          modify (with_self (set_decrypted_bytes
                               (slice_from output end_ ++ _decrypted_bytes (self m)))) ;;;
          ret (slice_to output end_)
      | None => read_until_loop fuel' marker output
      end
  end.

(** Only the first round can take from the buffer; every other round makes
    one [SSLRead] call or leaves the loop, so two rounds more than the
    script has replies let the loop run as far as the script reaches. *)
Definition read_until (marker : marker_t) : M machine bytes :=
  m <- get ;;
  read_until_loop (2 + length (SSLRead_replies (env m))) marker [].

Definition shutdown : M machine unit :=
  m <- get ;;
  match _session_context (self m) with
  | None => ret tt
  | Some ctx =>
      modify (with_env (log (SSLClose ctx))) ;;;
      handle_sec_error (SSLClose_reply (env m)) TLSError_cls ;;;
      (if version_lt (osx_version_info (env m)) (10, 8) then
         modify (with_env (log (SSLDisposeContext ctx))) ;;;
         handle_sec_error (SSLDisposeContext_reply (env m)) OSError_cls
       else
         modify (with_env (log (CFRelease ctx))) ;;;
         handle_cf_error (CFRelease_fails (env m))) ;;;
      modify (with_self (set_session_context None)) ;;;
      modify (with_self (set_local_closed true)) ;;;
      match _socket (self m) with
      | None => raise (AttributeError "shutdown")
      | Some s =>
          modify (with_env (log (socket_shutdown s)))
          (* a [socket.error] of the transport is swallowed *)
      end
  end.

Definition close : M machine unit :=
  try_finally shutdown
    (m <- get ;;
     match _socket (self m) with
     | Some s =>
         modify (with_env (log (socket_close s))) ;;;
         (* a [socket.error] of the transport is swallowed *)
         modify (with_self (set_socket None))
     | None => ret tt
     end ;;;
     m <- get ;;
     match _connection_id (self m) with
     | Some id =>
         if bool_decide (is_Some (_socket_refs m !! id)) then
           modify (with_socket_refs (delete id))
         else ret tt
     | None => ret tt
     end).

End Channel.

(** ** The I/O bridge *)

Section Bridge.
Context `{SC : SecurityConst} `{EN : errno}.

(** The first lines of both callbacks: the object behind the weak
    reference, if it is still alive, and the transport to use. *)
Definition resolve (connection_id : Z) (m : machine)
  : option TLSSocket * option socket :=
  let self_ :=
    if bool_decide (connection_id ∈ _connection_refs m) then Some (self m)
    else None in
  let socket_ :=
    match self_ with
    | None => _socket_refs m !! connection_id
    | Some s => _socket s
    end in
  (self_, socket_).

(** How the [while] loop of [_read_callback] is left: by its [return], or
    with the data collected and [error], the errno of a [socket.error] that
    was caught ([None] without one, and for an error that carries none). *)
Inductive recv_exit :=
| returned (status : Z)
| collected (data : bytes) (error : option Z).

Fixpoint recv_loop (fuel : nat) (socket_ : option socket) (bytes_requested : Z)
  (data : bytes) : M machine recv_exit :=
  if len data <? bytes_requested then
    match fuel, socket_ with
    | _, None => raise (AttributeError "recv")
    | O, _ => hang
    | S fuel', Some sock =>
        modify (with_env (log (socket_recv sock (bytes_requested - len data)))) ;;;
        m <- get ;;
        match recv_replies (env m) with
        | [] => hang
        | recv_error err :: rest =>
            modify (with_env (set_recv_replies rest)) ;;;
            ret (collected data err)
        | recv_data chunk :: rest =>
            modify (with_env (set_recv_replies rest)) ;;;
            let chunk := take (Z.to_nat (bytes_requested - len data)) chunk in
            let data := data ++ chunk in
            if bool_decide (chunk = []) && bool_decide (socket_timeout (env m) = None)
            then
              if bool_decide (len data = 0) then ret (returned errSSLClosedNoNotify)
              else ret (collected data None)
            else recv_loop fuel' socket_ bytes_requested data
        end
    end
  else ret (collected data None).

(** The test shared by the two callbacks: the status for a [socket.error]
    whose errno is set and is not [EAGAIN]. *)
Definition fatal_error (error : option Z) : option Z :=
  match error with
  | Some e =>
      if bool_decide (e <> EAGAIN) then
        if bool_decide (e = ECONNRESET) then Some errSSLClosedNoNotify
        else Some errSSLClosedAbort
      else None
  | None => None
  end.

(** [_read_callback(connection_id, data_buffer, data_length_pointer)], with
    [bytes_requested] the length found behind the pointer.  The result is
    the status and, when the callback gets that far, the data it leaves in
    the buffer (whose length it stores behind the pointer). *)
Definition _read_callback (connection_id : Z) (bytes_requested : Z)
  : M machine (Z * option bytes) :=
  m <- get ;;
  match resolve connection_id m with
  | (None, None) => ret (0, None)
  | (self_, socket_) =>
      exit <- recv_loop (S (length (recv_replies (env m)))) socket_ bytes_requested [] ;;
      match exit with
      | returned status => ret (status, None)
      | collected data error =>
          match fatal_error error with
          | Some status => ret (status, None)
          | None =>
              m <- get ;;
              (if bool_decide (is_Some self_) && negb (_done_handshake (self m)) then
                 modify (with_self (set_server_hello (_server_hello (self m) ++ data)))
               else ret tt) ;;;
              if bool_decide (len data <> bytes_requested)
              then ret (errSSLWouldBlock, Some data)
              else ret (0, Some data)
          end
      end
  end.

(** [_write_callback(connection_id, data_buffer, data_length_pointer)].
    The local [sent] is bound only when [socket.send] returns.  The result
    is the status and the count stored behind the pointer, if one is. *)
Definition _write_callback (connection_id : Z) (data_buffer : bytes)
  (data_length : Z) : M machine (Z * option Z) :=
  m <- get ;;
  match resolve connection_id m with
  | (None, None) => ret (0, None)
  | (self_, socket_) =>
      let data := take (Z.to_nat data_length) data_buffer in
      (if bool_decide (is_Some self_) && negb (_done_handshake (self m)) then
         modify (with_self (set_client_hello (_client_hello (self m) ++ data)))
       else ret tt) ;;;
      match socket_ with
      | None => raise (AttributeError "send")
      | Some socket_ =>
          modify (with_env (log (socket_send socket_ data))) ;;;
          match send_replies (env m) with
          | [] => hang
          | reply :: rest =>
              modify (with_env (set_send_replies rest)) ;;;
              let sent := match reply with send_count n => Some n | send_error _ => None end in
              let error := match reply with send_count _ => None | send_error e => e end in
              match fatal_error error with
              | Some status => ret (status, None)
              | None =>
                  match sent with
                  | None => raise (UnboundLocalError "sent")
                  | Some sent =>
                      if bool_decide (sent <> data_length)
                      then ret (errSSLWouldBlock, Some sent)
                      else ret (0, None)
                  end
              end
          end
      end
  end.

(** [_read_remaining(socket)]: one [recv] of up to 8192 bytes with the
    timeout set to zero; with nothing to read the [recv] raises, and any
    [socket.error] leaves the output empty. *)
Definition _read_remaining (socket_ : option socket) : M machine bytes :=
  match socket_ with
  | None => raise (AttributeError "gettimeout")
  | Some socket_ =>
      m <- get ;;
      let old_timeout := socket_timeout (env m) in
      modify (with_env (log (socket_settimeout socket_ (Some 0)))) ;;;
      modify (with_env (set_socket_timeout (Some 0))) ;;;
      modify (with_env (log (socket_recv socket_ 8192))) ;;;
      let output :=
        match recv_replies (env m) with
        | recv_data chunk :: _ => take (Z.to_nat 8192) chunk
        | _ => []
        end in
      modify (with_env (set_recv_replies (tail (recv_replies (env m))))) ;;;
      modify (with_env (log (socket_settimeout socket_ old_timeout))) ;;;
      modify (with_env (set_socket_timeout old_timeout)) ;;;
      ret output
  end.

End Bridge.

(** ** Session construction *)

(** The arguments of [TLSSession.__init__] as Python hands them over. *)
Inductive pyobj :=
| PyNone
| PyBool (v : bool)
| PyStr (s : string)
| PySet (s : gset string)
| PyOther (type_name : string).

Inductive trust_root :=
| oscrypto_Certificate (asn1 : Certificate)
| der_bytes (data : bytes)
| filename (path : string)
| x509_Certificate (cert : Certificate)
| other_root (type_name : string).

Record TLSSession := {
  _protocols : gset string;
  _manual_validation : bool;
  _extra_trust_roots : list Certificate;
  _peer_id : bytes
}.

Section Session.
(** [parse_certificate] of [oscrypto.keys], [open(path, 'rb').read()] and
    [rand_bytes] of [.util]: services outside this module. *)
Variable parse_certificate : bytes -> outcome Certificate.
Variable read_binary : string -> outcome bytes.
Variable rand_bytes : Z -> bytes.

Definition supported_protocols : gset string :=
  {[ "SSLv3"; "TLSv1"; "TLSv1.1"; "TLSv1.2" ]}%string.

Definition default_protocols : gset string :=
  {[ "TLSv1"; "TLSv1.1"; "TLSv1.2" ]}%string.

Definition normalize_root (extra_trust_root : trust_root) : outcome Certificate :=
  match extra_trust_root with
  | oscrypto_Certificate asn1 => Return asn1
  | der_bytes data => parse_certificate data
  | filename path =>
      match read_binary path with
      | Return data => parse_certificate data
      | Raise e => Raise e
      | Hang => Hang
      end
  | x509_Certificate cert => Return cert
  | other_root type_name => Raise (TypeError "extra_trust_roots")
  end.

Fixpoint normalize_roots (extra_trust_roots : list trust_root)
  (acc : list Certificate) : outcome (list Certificate) :=
  match extra_trust_roots with
  | [] => Return acc
  | extra_trust_root :: rest =>
      match normalize_root extra_trust_root with
      | Return cert => normalize_roots rest (acc ++ [cert])
      | Raise e => Raise e
      | Hang => Hang
      end
  end.

(** [TLSSession.__init__(protocol, manual_validation, extra_trust_roots)];
    [extra_trust_roots] is [None] or a list. *)
Definition TLSSession_init (protocol manual_validation : pyobj)
  (extra_trust_roots : option (list trust_root)) : outcome TLSSession :=
  match manual_validation with
  | PyBool manual_validation =>
      let protocol := match protocol with PyNone => PySet default_protocols | _ => protocol end in
      let protocol :=
        match protocol with
        | PyStr s => Return ({[ s ]} : gset string)
        | PySet s => Return s
        | _ => Raise (TypeError "protocol")
        end in
      match protocol with
      | Return protocol =>
          let unsupported_protocols := protocol ∖ supported_protocols in
          if bool_decide (unsupported_protocols <> ∅) then Raise (ValueError "protocol")
          else
            match normalize_roots (default [] extra_trust_roots) [] with
            | Return roots =>
                Return {| _protocols := protocol;
                          _manual_validation := manual_validation;
                          _extra_trust_roots := roots;
                          _peer_id := rand_bytes 8 |}
            | Raise e => Raise e
            | Hang => Hang
            end
      | Raise e => Raise e
      | Hang => Hang
      end
  | _ => Raise (TypeError "manual_validation")
  end.

End Session.

(** ** Cipher-suite filtering *)

(** The blacklist is an alternation of literals, one of them behind a
    negative look-behind of one character. *)
Inductive alternative :=
| lit (s : string)
| lit_not_after (c : ascii) (s : string).

(** ['anon|PSK|SEED|RC4|MD5|NULL|CAMELLIA|ARIA|SRP|KRB5|EXPORT|(?<!3)DES|IDEA'] *)
Definition _cipher_blacklist_regex : list alternative :=
  [ lit "anon"; lit "PSK"; lit "SEED"; lit "RC4"; lit "MD5"; lit "NULL";
    lit "CAMELLIA"; lit "ARIA"; lit "SRP"; lit "KRB5"; lit "EXPORT";
    lit_not_after "3" "DES"; lit "IDEA" ]%string.

(** Whether an alternative matches at the head of [s], [prev] being the
    character before it. *)
Definition matches_here (prev : option ascii) (s : string) (a : alternative) : bool :=
  match a with
  | lit l => String.prefix l s
  | lit_not_after c l => String.prefix l s && negb (bool_decide (prev = Some c))
  end.

(** [regex.search(s) is not None]: some alternative matches somewhere. *)
Fixpoint search_from (regex : list alternative) (prev : option ascii) (s : string) : bool :=
  existsb (matches_here prev s) regex
  || match s with
     | EmptyString => false
     | String c rest => search_from regex (Some c) rest
     end.

Definition search (regex : list alternative) (s : string) : bool :=
  search_from regex None s.

(** What [CIPHER_SUITE_MAP.get(cipher_suite, cipher_suite)] yields: the
    name, or the key itself when the table has none. *)
Inductive suite_name :=
| canonical (name : string)
| unnamed (cipher_suite : bytes).

Section Ciphers.
(** [int_to_bytes] of asn1crypto and the table [CIPHER_SUITE_MAP] of
    [_cipher_suites.py] are not part of this module. *)
Variable int_to_bytes : Z -> nat -> bytes.
Variable CIPHER_SUITE_MAP : bytes -> option string.

Definition cipher_suite_name (supported_cipher_suite : Z) : suite_name :=
  let cipher_suite := int_to_bytes supported_cipher_suite 2 in
  match CIPHER_SUITE_MAP cipher_suite with
  | Some name => canonical name
  | None => unnamed cipher_suite
  end.

(** [_cipher_blacklist_regex.search(cipher_suite_name) is None].  The
    pattern is a text pattern: Python 3 refuses to run it over a byte
    string, Python 2 reads the bytes as characters. *)
Definition good_cipher (py3 : bool) (name : suite_name) : outcome bool :=
  match name with
  | canonical name => Return (negb (search _cipher_blacklist_regex name))
  | unnamed cipher_suite =>
      if py3 then Raise (TypeError "cannot use a string pattern on a bytes-like object")
      else Return (negb (search _cipher_blacklist_regex
                           (String.string_of_list_byte cipher_suite)))
  end.

(** The loop that collects [good_ciphers], the list handed to
    [SSLSetEnabledCiphers]. *)
Fixpoint collect_good_ciphers (py3 : bool) (supported_cipher_suites : list Z)
  (good_ciphers : list Z) : outcome (list Z) :=
  match supported_cipher_suites with
  | [] => Return good_ciphers
  | supported_cipher_suite :: rest =>
      match good_cipher py3 (cipher_suite_name supported_cipher_suite) with
      | Return true => collect_good_ciphers py3 rest (good_ciphers ++ [supported_cipher_suite])
      | Return false => collect_good_ciphers py3 rest good_ciphers
      | Raise e => Raise e
      | Hang => Hang
      end
  end.

Definition good_ciphers (py3 : bool) (supported_cipher_suites : list Z) : outcome (list Z) :=
  collect_good_ciphers py3 supported_cipher_suites [].

End Ciphers.

(** ** The end of the handshake: classifying the engine's status *)

(** The hello-record parsers of [oscrypto/_tls.py], which this module
    calls on the captured bytes.  [extract_chain] gives the certificates
    of the captured chain, leaf first; the others are read for their
    truth value, [get_dh_params_length] for the bit length it finds. *)
Class HandshakeParsers := {
  extract_chain : bytes -> list Certificate;
  detect_client_auth_request : bytes -> bool;
  get_dh_params_length : bytes -> option Z;
  detect_other_protocol : bytes -> bool
}.

(** [except (OSError, socket_.error)]: the errors of the operating system
    and of the TLS layer, not the errors of the interpreter. *)
Definition is_OSError (e : exn) : bool :=
  match e with
  | TypeError _ | ValueError _ | UnboundLocalError _ | AttributeError _ => false
  | _ => true
  end.

Definition try_except {S A : Type} (body : M S A) (caught : exn -> bool)
  (handler : exn -> M S A) : M S A :=
  fun s =>
    match body s with
    | (Raise e, s') => if caught e then handler e s' else (Raise e, s')
    | r => r
    end.

Definition when {S : Type} (condition : bool) (body : M S unit) : M S unit :=
  if condition then body else ret tt.

(** Modelled from the spec: [raise_weak_signature] is defined in
    [oscrypto/_tls.py], not under src/; it raises the weak-signature error
    for the certificate. *)
Definition raise_weak_signature {S : Type} (certificate : Certificate) : M S unit :=
  raise (weak_signature certificate).

(** Modelled from the spec: [raise_hostname] is defined in
    [oscrypto/_tls.py], not under src/; it raises the hostname error for
    the certificate and the host name. *)
Definition raise_hostname {S : Type} (certificate : option Certificate)
  (hostname : string) : M S unit :=
  raise (hostname_mismatch certificate hostname).

(** Modelled from the spec: [raise_expired_not_yet_valid] is defined in
    [oscrypto/_tls.py], not under src/; it raises the expiration error. *)
Definition raise_expired_not_yet_valid {S : Type} (certificate : option Certificate)
  : M S unit :=
  raise (expired_not_yet_valid certificate).

(** Modelled from the spec: [raise_no_issuer] is defined in
    [oscrypto/_tls.py], not under src/; it raises the missing-issuer
    error. *)
Definition raise_no_issuer {S : Type} (certificate : option Certificate) : M S unit :=
  raise (no_issuer certificate).

(** Modelled from the spec: [raise_self_signed] is defined in
    [oscrypto/_tls.py], not under src/; it raises the self-signed error. *)
Definition raise_self_signed {S : Type} (certificate : option Certificate) : M S unit :=
  raise (self_signed_error certificate).

(** Modelled from the spec: [raise_client_auth] is defined in
    [oscrypto/_tls.py], not under src/; it raises the client-auth-required
    error. *)
Definition raise_client_auth {S : Type} : M S unit := raise client_auth.

(** Modelled from the spec: [raise_verification] is defined in
    [oscrypto/_tls.py], not under src/; it raises the generic verification
    error carrying the certificate. *)
Definition raise_verification {S : Type} (certificate : option Certificate) : M S unit :=
  raise (verification certificate).

(** Modelled from the spec: [raise_handshake] is defined in
    [oscrypto/_tls.py], not under src/; it raises the generic
    handshake-failure error. *)
Definition raise_handshake {S : Type} : M S unit := raise handshake_failure.

(** Modelled from the spec: [raise_dh_params] is defined in
    [oscrypto/_tls.py], not under src/; it raises the
    DH-parameters-too-weak error. *)
Definition raise_dh_params {S : Type} : M S unit := raise dh_params.

(** Modelled from the spec: [raise_protocol_error] is defined in
    [oscrypto/_tls.py], not under src/; it raises the protocol-mismatch
    error built from the capture. *)
Definition raise_protocol_error {S : Type} (server_handshake_bytes : bytes) : M S unit :=
  raise (protocol_error server_handshake_bytes).

(** Modelled from the spec: [raise_disconnection] is defined in
    [oscrypto/_tls.py], not under src/; it raises the disconnection error.
    It is called without arguments. *)
Definition raise_disconnection {S : Type} : M S unit := raise disconnection.

Section Handshake.
Context `{SC : SecurityConst} `{EN : errno} `{HP : HandshakeParsers}.

Definition handshake_error_codes : list Z :=
  [ errSSLXCertChainInvalid; errSSLCertExpired; errSSLCertNotYetValid;
    errSSLUnknownRootCert; errSSLNoRootCert; errSSLHostNameMismatch ].

(** A flag that the code computes under [if chain:] and leaves [False]
    otherwise. *)
Definition of_leaf (chain : list Certificate) (flag : Certificate -> bool) : bool :=
  match chain with
  | leaf :: _ => flag leaf
  | [] => false
  end.

(** The body of [if handshake_result in handshake_error_codes:]. *)
Definition _handshake_chain_invalid (session_context : SSLContextRef) : M machine unit :=
  modify (with_env (log (SSLCopyPeerTrust session_context))) ;;;
  m <- get ;;
  handle_sec_error (SSLCopyPeerTrust_reply (env m)) OSError_cls ;;;
  modify (with_env (log SecTrustGetCssmResultCode)) ;;;
  let result_code := CssmResultCode (env m) in
  let chain := extract_chain (_server_hello (self m)) in
  let cert := head chain in
  let self_signed_ := of_leaf chain self_signed in
  let no_issuer_ :=
    of_leaf chain (fun leaf =>
      negb (self_signed leaf) && bool_decide (result_code = CSSMERR_TP_NOT_TRUSTED)) in
  let expired :=
    of_leaf chain (fun _ => bool_decide (result_code = CSSMERR_TP_CERT_EXPIRED)) in
  let not_yet_valid :=
    of_leaf chain (fun _ => bool_decide (result_code = CSSMERR_TP_CERT_NOT_VALID_YET)) in
  let bad_hostname :=
    of_leaf chain (fun _ => bool_decide (result_code = CSSMERR_APPLETP_HOSTNAME_MISMATCH)) in
  match chain with
  | leaf :: _ =>
      when (bool_decide (hash_algo leaf = "md5" \/ hash_algo leaf = "md2")%string)
           (raise_weak_signature leaf)
  | [] => ret tt
  end ;;;
  (if bad_hostname then raise_hostname cert (_hostname (self m))
   else if expired || not_yet_valid then raise_expired_not_yet_valid cert
   else if no_issuer_ then raise_no_issuer cert
   else if self_signed_ then raise_self_signed cert
   else ret tt) ;;;
  when (detect_client_auth_request (_server_hello (self m))) raise_client_auth ;;;
  raise_verification cert.

(** [_handshake] from the line after [self._done_handshake = True] to
    [self._session_context = session_context], with [handshake_result]
    the status the handshake loop ended on. *)
Definition _handshake_check_result (session_context : SSLContextRef) (handshake_result : Z)
  : M machine unit :=
  (if bool_decide (handshake_result ∈ handshake_error_codes)
   then _handshake_chain_invalid session_context else ret tt) ;;;
  (if bool_decide (handshake_result = errSSLPeerHandshakeFail) then
     m <- get ;;
     when (detect_client_auth_request (_server_hello (self m))) raise_client_auth ;;;
     raise_handshake
   else ret tt) ;;;
  when (bool_decide (handshake_result = errSSLWeakPeerEphemeralDHKey)) raise_dh_params ;;;
  m <- get ;;
  (if version_lt (osx_version_info (env m)) (10, 10) then
     match get_dh_params_length (_server_hello (self m)) with
     | Some dh_params_length => when (dh_params_length <? 1024) raise_dh_params
     | None => ret tt
     end
   else ret tt) ;;;
  (if bool_decide (handshake_result = errSSLRecordOverflow
                   \/ handshake_result = errSSLProtocol) then
     m <- get ;;
     remaining <- _read_remaining (_socket (self m)) ;;
     modify (with_self (set_server_hello (_server_hello (self m) ++ remaining))) ;;;
     m <- get ;;
     raise_protocol_error (_server_hello (self m))
   else ret tt) ;;;
  (if bool_decide (handshake_result = errSSLClosedNoNotify
                   \/ handshake_result = errSSLClosedAbort) then
     m <- get ;;
     (if negb (_done_handshake (self m)) then
        remaining <- _read_remaining (_socket (self m)) ;;
        modify (with_self (set_server_hello (_server_hello (self m) ++ remaining)))
      else ret tt) ;;;
     m <- get ;;
     when (detect_other_protocol (_server_hello (self m)))
          (raise_protocol_error (_server_hello (self m))) ;;;
     raise_disconnection
   else ret tt) ;;;
  (if bool_decide (handshake_result <> errSSLWouldBlock)
   then handle_sec_error handshake_result TLSError_cls else ret tt) ;;;
  modify (with_self (set_session_context (Some session_context))).

(** The [except (OSError, socket_.error):] clause of [_handshake]. *)
Definition _handshake_except (session_context : SSLContextRef) (e : exn)
  : M machine unit :=
  m <- get ;;
  (if version_lt (osx_version_info (env m)) (10, 8) then
     modify (with_env (log (SSLDisposeContext session_context))) ;;;
     handle_sec_error (SSLDisposeContext_reply (env m)) OSError_cls
   else
     modify (with_env (log (CFRelease session_context))) ;;;
     handle_cf_error (CFRelease_fails (env m))) ;;;
  modify (with_self (set_session_context None)) ;;;
  close ;;;
  raise e.

(** The end of [_handshake]: the flag is set, the status is classified,
    and an error tears the socket down before it propagates. *)
Definition _handshake_finish (session_context : SSLContextRef) (handshake_result : Z)
  : M machine unit :=
  try_except
    (modify (with_self (set_done_handshake true)) ;;;
     _handshake_check_result session_context handshake_result)
    is_OSError
    (_handshake_except session_context).

End Handshake.

(** * Sample runs and the vocabulary of the properties

    Concrete sockets, systems and stand-ins for services outside the
    module, on which the code is run, and the predicates in which the
    properties are stated. *)

#[local] Existing Instance darwin_SecurityConst.
#[local] Existing Instance darwin_errno.

Definition CR : byte := x0d.
Definition LF : byte := x0a.

(** A system on which nothing is pending. *)
Definition quiet : world := {|
  osx_version_info := (10, 11);
  SSLRead_replies := [];
  SSLGetBufferedReadSize_replies := [];
  select_replies := [];
  SSLClose_reply := 0;
  SSLDisposeContext_reply := 0;
  CFRelease_fails := false;
  SSLCopyPeerTrust_reply := 0;
  CssmResultCode := 0;
  socket_timeout := None;
  recv_replies := [];
  send_replies := [];
  calls := []
|}.

(** An established socket, registered under id 7, with [buffered] in its
    decrypted buffer. *)
Definition established (buffered : bytes) : TLSSocket := {|
  _socket := Some 3;
  _session_context := Some 1;
  _decrypted_bytes := buffered;
  _hostname := "example.com";
  _done_handshake := true;
  _server_hello := b "server hello";
  _client_hello := b "client hello";
  _local_closed := false;
  _connection_id := Some 7
|}.

Definition running (s : TLSSocket) (w : world) : machine :=
  {| self := s; _connection_refs := {[ 7 ]}; _socket_refs := {[ 7 := 3 ]}; env := w |}.

Definition closed_error : outcome bytes :=
  Raise (TLSError "The connection was already closed").

(** A handshake in flight: nothing decrypted yet, the flag not set. *)
Definition handshaking (server_hello : bytes) : TLSSocket := {|
  _socket := Some 3;
  _session_context := None;
  _decrypted_bytes := [];
  _hostname := "example.com";
  _done_handshake := false;
  _server_hello := server_hello;
  _client_hello := b "client hello";
  _local_closed := false;
  _connection_id := Some 7
|}.


(** Stand-ins for the parsers of [_tls.py] where a run is evaluated: the
    captured chain and the client-certificate request are given, no DH
    parameters are found, and a capture that starts with ["HTTP/"] is
    another protocol. *)
Definition parsers (chain : list Certificate) (client_auth_requested : bool)
  : HandshakeParsers := {|
  extract_chain := fun _ => chain;
  detect_client_auth_request := fun _ => client_auth_requested;
  get_dh_params_length := fun _ => None;
  detect_other_protocol := fun server_hello => bool_decide (take 5 server_hello = b "HTTP/")
|}.

Definition leaf_sha256 : Certificate :=
  {| subject := "CN=example.com"; hash_algo := "sha256"; self_signed := false |}.

(** What [_handshake_check_result] may do to the captures of a socket
    whose flag is set. *)
Definition captures_after_check `{SC : SecurityConst} (handshake_result : Z)
  (s s' : TLSSocket) : Prop :=
  _done_handshake s' = true
  /\ _client_hello s' = _client_hello s
  /\ exists remaining,
       _server_hello s' = _server_hello s ++ remaining
       /\ (remaining <> [] ->
           handshake_result = errSSLRecordOverflow \/ handshake_result = errSSLProtocol).

(** The first rule whose condition holds names the error. *)
Fixpoint first_applicable (rules : list (bool * exn)) (otherwise : exn) : exn :=
  match rules with
  | [] => otherwise
  | (true, e) :: _ => e
  | (false, _) :: rest => first_applicable rest otherwise
  end.

(** The order in which the chain-invalid family is told apart, in the
    words of the design document with rule (f), the client-certificate
    request, in its place after (a) to (e): weak signature, host name,
    expiry, missing issuer, self-signed, client certificate requested, and
    the generic error otherwise. *)
Definition chain_invalid_precedence `{SC : SecurityConst} `{HP : HandshakeParsers}
  (s : TLSSocket) (result_code : Z) : exn :=
  let client_auth_requested := detect_client_auth_request (_server_hello s) in
  match extract_chain (_server_hello s) with
  | [] => first_applicable [ (client_auth_requested, client_auth) ] (verification None)
  | leaf :: _ =>
      first_applicable
        [ (bool_decide (hash_algo leaf = "md5" \/ hash_algo leaf = "md2")%string,
           weak_signature leaf);
          (bool_decide (result_code = CSSMERR_APPLETP_HOSTNAME_MISMATCH),
           hostname_mismatch (Some leaf) (_hostname s));
          (bool_decide (result_code = CSSMERR_TP_CERT_EXPIRED
                        \/ result_code = CSSMERR_TP_CERT_NOT_VALID_YET),
           expired_not_yet_valid (Some leaf));
          (bool_decide (result_code = CSSMERR_TP_NOT_TRUSTED) && negb (self_signed leaf),
           no_issuer (Some leaf));
          (self_signed leaf, self_signed_error (Some leaf));
          (client_auth_requested, client_auth) ]
        (verification (Some leaf))
  end.

Definition hostname_world : world := {|
  osx_version_info := (10, 11);
  SSLRead_replies := [];
  SSLGetBufferedReadSize_replies := [];
  select_replies := [];
  SSLClose_reply := 0;
  SSLDisposeContext_reply := 0;
  CFRelease_fails := false;
  SSLCopyPeerTrust_reply := 0;
  CssmResultCode := CSSMERR_APPLETP_HOSTNAME_MISMATCH;
  socket_timeout := None;
  recv_replies := [];
  send_replies := [];
  calls := []
|}.

(** A system whose engine answers [SSLClose] with an error. *)
Definition reset_world : world := {|
  osx_version_info := (10, 11);
  SSLRead_replies := [];
  SSLGetBufferedReadSize_replies := [];
  select_replies := [];
  SSLClose_reply := errSSLClosedAbort;
  SSLDisposeContext_reply := 0;
  CFRelease_fails := false;
  SSLCopyPeerTrust_reply := 0;
  CssmResultCode := 0;
  socket_timeout := None;
  recv_replies := [];
  send_replies := [];
  calls := []
|}.

(** Stand-ins for the services of the constructor where a run is
    evaluated. *)
Definition refuse_certificate (data : bytes) : outcome Certificate :=
  Raise (ValueError "certificate").
Definition no_such_file (path : string) : outcome bytes :=
  Raise (socket_error None).
Definition zero_bytes (n : Z) : bytes := replicate (Z.to_nat n) x00.

(** What the pattern means: an alternative occurs in a name when its
    literal does, for the look-behind one at a place that the excluded
    character does not precede. *)
Definition text (a : alternative) : string :=
  match a with lit l => l | lit_not_after _ l => l end.

Fixpoint last_char (prev : option ascii) (pre : string) : option ascii :=
  match pre with
  | EmptyString => prev
  | String c rest => last_char (Some c) rest
  end.

Definition allowed_after (a : alternative) (prev : option ascii) : Prop :=
  match a with
  | lit _ => True
  | lit_not_after c _ => prev <> Some c
  end.

Definition occurs (a : alternative) (name : string) : Prop :=
  exists pre post,
    name = pre +:+ text a +:+ post /\ allowed_after a (last_char None pre).

Definition blacklisted (name : string) : Prop :=
  exists a, In a _cipher_blacklist_regex /\ occurs a name.

(** The characters the pattern is run over. *)
Definition name_text (name : suite_name) : string :=
  match name with
  | canonical name => name
  | unnamed cipher_suite => String.string_of_list_byte cipher_suite
  end.

(** Stand-ins for [int_to_bytes] and for a few rows of [CIPHER_SUITE_MAP]
    where a run is evaluated. *)
Definition byte_of_Z (z : Z) : byte :=
  default x00 (Byte.of_N (Z.to_N (z mod 256))).

Fixpoint int_to_bytes_be (value : Z) (width : nat) : bytes :=
  match width with
  | O => []
  | S w => int_to_bytes_be (value / 256) w ++ [byte_of_Z value]
  end.

Definition some_suites : list (bytes * string) :=
  [ ([x00; x05], "TLS_RSA_WITH_RC4_128_SHA");
    ([x00; x09], "TLS_RSA_WITH_DES_CBC_SHA");
    ([x00; x0a], "TLS_RSA_WITH_3DES_EDE_CBC_SHA");
    ([x00; x1b], "TLS_DH_anon_WITH_3DES_EDE_CBC_SHA");
    ([x00; x2f], "TLS_RSA_WITH_AES_128_CBC_SHA");
    ([xc0; x2f], "TLS_ECDHE_RSA_WITH_AES_128_GCM_SHA256") ]%string.

Definition some_CIPHER_SUITE_MAP (cipher_suite : bytes) : option string :=
  snd <$> List.find (fun row => bool_decide (fst row = cipher_suite)) some_suites.

(** * More sample runs *)

(** A system whose engine has [replies] ready for [SSLRead]. *)
Definition decrypting (replies : list (Z * bytes)) : world :=
  set_SSLRead_replies replies quiet.

(** * The rest of the buffered channel *)

(** A pattern that is an alternation of byte strings, as [_line_regex]:
    [search] finds the leftmost place where one of them starts and, there,
    the first of them that does. *)
Fixpoint search_literals (alternatives : list bytes) (chunk : bytes) (i : Z)
  : option (Z * Z) :=
  match List.find (fun a => bool_decide (take (length a) chunk = a)) alternatives with
  | Some a => Some (i, i + len a)
  | None =>
      match chunk with
      | [] => None
      | _ :: rest => search_literals alternatives rest (i + 1)
      end
  end.

(** [re.compile(b'(\r\n|\r|\n)')] *)
Definition _line_regex : marker_t :=
  pattern (fun chunk => search_literals [[CR; LF]; [CR]; [LF]] chunk 0).

Section Channel2.
Context `{SC : SecurityConst}.

Definition read_line : M machine bytes := read_until _line_regex.

(** The [while remaining > 0] loop of [read_exactly]. *)
Fixpoint read_exactly_loop (fuel : nat) (num_bytes : Z) (output : bytes)
  (remaining : Z) : M machine bytes :=
  if 0 <? remaining then
    match fuel with
    | O => hang
    | S fuel' =>
        chunk <- read remaining ;;
        let output := output ++ chunk in
        read_exactly_loop fuel' num_bytes output (num_bytes - len output)
    end
  else ret output.

(** A round that does not end the loop has made one [SSLRead] call or has
    emptied the buffer of a closed session, so two rounds more than the
    script has replies let the loop run as far as the script reaches. *)
Definition read_exactly (num_bytes : Z) : M machine bytes :=
  m <- get ;;
  read_exactly_loop (2 + length (SSLRead_replies (env m))) num_bytes [] num_bytes.

Definition select_write (timeout : option Z) : M machine bool :=
  m <- get ;;
  match _socket (self m) with
  | None => raise (TypeError "select")
  | Some s =>
      modify (with_env (log (select_select [] [s] timeout))) ;;;
      match select_wait timeout (select_replies (env m)) with
      | Some (write_ready, rest) =>
          modify (with_env (set_select_replies rest)) ;;;
          ret write_ready
      | None => hang
      end
  end.

End Channel2.

(** [write] also talks to [SSLWrite]: its script, what each successive
    call answers (the status and the count of bytes processed), and its
    record, what each call was offered and answered, ride along with the
    machine. *)
Record writer := {
  channel : machine;
  SSLWrite_replies : list (Z * Z);
  SSLWrite_calls : list (bytes * Z * Z)
}.

Definition on_channel {A : Type} (c : M machine A) : M writer A :=
  fun w =>
    let r := c (channel w) in
    (fst r, {| channel := snd r; SSLWrite_replies := SSLWrite_replies w;
               SSLWrite_calls := SSLWrite_calls w |}).

(** [Security.SSLWrite(ctx, write_buffer, data_len, processed_pointer)] *)
Definition call_SSLWrite (data : bytes) : M writer (Z * Z) :=
  fun w =>
    match SSLWrite_replies w with
    | (result, processed) :: rest =>
        (Return (result, processed),
         {| channel := channel w; SSLWrite_replies := rest;
            SSLWrite_calls := SSLWrite_calls w ++ [(data, result, processed)] |})
    | [] => (Hang, w)
    end.

(** The [while data_len] loop of [write]; every round makes one
    [SSLWrite] call. *)
Fixpoint write_loop (fuel : nat) (data : bytes) : M writer unit :=
  if bool_decide (len data <> 0) then
    match fuel with
    | O => hang
    | S fuel' =>
        r <- call_SSLWrite data ;;
        handle_sec_error (fst r) TLSError_cls ;;;
        let bytes_written := snd r in
        let data := slice_from data bytes_written in
        (if 0 <? len data then (on_channel (select_write None) ;;; ret tt)
         else ret tt) ;;;
        write_loop fuel' data
    end
  else ret tt.

Definition write (data : bytes) : M writer unit :=
  w <- get ;;
  match _session_context (self (channel w)) with
  | None => on_channel _raise_closed
  | Some _ => write_loop (S (length (SSLWrite_replies w))) data
  end.

(** A writer on [m] whose engine has [replies] ready. *)
Definition writing (m : machine) (replies : list (Z * Z)) : writer :=
  {| channel := m; SSLWrite_replies := replies; SSLWrite_calls := [] |}.

(** [marker] stands in [chunk] at offset [j]. *)
Definition occurs_at (marker chunk : bytes) (j : nat) : Prop :=
  take (length marker) (drop j chunk) = marker.

(** What [_line_regex] matches at the end of a line, [rest] being what
    follows: a carriage return takes the line feed after it with it. *)
Definition line_ending (ending rest : bytes) : Prop :=
  ending = [CR; LF] \/ ending = [LF] \/ (ending = [CR] /\ head rest <> Some LF).

(** The error of [_raise_closed] for an object. *)
Definition closed_connection (s : TLSSocket) : exn :=
  TLSError (if _local_closed s then "The connection was already closed"
            else "The remote end closed the connection").

(** What one [SSLWrite] call took of what it was offered. *)
Definition accepted (c : bytes * Z * Z) : bytes := slice_to (fst (fst c)) (snd c).

(** A system whose socket has [replies] ready for [recv], with the given
    timeout. *)
Definition receiving (timeout : option Z) (replies : list recv_reply) : world :=
  set_socket_timeout timeout (set_recv_replies replies quiet).

(** A status that none of the classifier's tests names. *)
Definition unclassified `{SC : SecurityConst} (handshake_result : Z) : Prop :=
  (handshake_result ∉ handshake_error_codes)
  /\ handshake_result <> errSSLPeerHandshakeFail
  /\ handshake_result <> errSSLWeakPeerEphemeralDHKey
  /\ handshake_result <> errSSLRecordOverflow
  /\ handshake_result <> errSSLProtocol
  /\ handshake_result <> errSSLClosedNoNotify
  /\ handshake_result <> errSSLClosedAbort.

(** The test made on OS X before 10.10: the captured server hello carries
    Diffie-Hellman parameters of fewer than 1024 bits. *)
Definition legacy_weak_dh `{HP : HandshakeParsers} (m : machine) : bool :=
  version_lt (osx_version_info (env m)) (10, 10)
  && match get_dh_params_length (_server_hello (self m)) with
     | Some dh_params_length => dh_params_length <? 1024
     | None => false
     end.

(** An OS X 10.7 system whose engine refuses to dispose of a context. *)
Definition lion_world : world := {|
  osx_version_info := (10, 7);
  SSLRead_replies := [];
  SSLGetBufferedReadSize_replies := [];
  select_replies := [];
  SSLClose_reply := 0;
  SSLDisposeContext_reply := -50;
  CFRelease_fails := false;
  SSLCopyPeerTrust_reply := 0;
  CssmResultCode := 0;
  socket_timeout := None;
  recv_replies := [];
  send_replies := [];
  calls := []
|}.

(** A parser that accepts every certificate, for runs of the
    constructor. *)
Definition accept_certificate (data : bytes) : outcome Certificate :=
  Return {| subject := String.string_of_list_byte data; hash_algo := "sha256";
            self_signed := true |}.

(** * Certificate access *)

(** The attributes [_certificate] and [_intermediates] ride along with
    the machine, with what the trust object of the engine holds: the
    handle that [SSLCopyPeerTrust] hands out and, for each certificate of
    the chain, the handle and the bytes that [SecCertificateCopyData]
    hands out for it. *)
Record inspection := {
  connection : machine;
  _certificate : option Certificate;
  _intermediates : option (list Certificate);
  peer_trust : Z;
  peer_chain : list (Z * bytes)
}.

(** The locals of [_read_certificates] that its [finally] clause reads. *)
Record frame := {
  trust_ref : option Z;
  cf_data_ref : option Z
}.

Definition with_connection (f : machine -> machine) (i : inspection) : inspection :=
  {| connection := f (connection i); _certificate := _certificate i;
     _intermediates := _intermediates i; peer_trust := peer_trust i;
     peer_chain := peer_chain i |}.

Definition set_certificate (v : option Certificate) (i : inspection) : inspection :=
  {| connection := connection i; _certificate := v;
     _intermediates := _intermediates i; peer_trust := peer_trust i;
     peer_chain := peer_chain i |}.

Definition set_intermediates (v : option (list Certificate)) (i : inspection) : inspection :=
  {| connection := connection i; _certificate := _certificate i;
     _intermediates := v; peer_trust := peer_trust i;
     peer_chain := peer_chain i |}.

Definition set_trust_ref (v : option Z) (f : frame) : frame :=
  {| trust_ref := v; cf_data_ref := cf_data_ref f |}.

Definition set_cf_data_ref (v : option Z) (f : frame) : frame :=
  {| trust_ref := trust_ref f; cf_data_ref := v |}.

Definition on_object (f : inspection -> inspection) : M (inspection * frame) unit :=
  modify (fun s => (f (fst s), snd s)).

Definition on_frame (f : frame -> frame) : M (inspection * frame) unit :=
  modify (fun s => (fst s, f (snd s))).

Definition engine_call (c : call) : M (inspection * frame) unit :=
  on_object (with_connection (with_env (log c))).

Definition on_connection {A : Type} (c : M machine A) : M inspection A :=
  fun i =>
    let r := c (connection i) in
    (fst r, with_connection (fun _ => snd r) i).

Section Certificates.
(** [x509.Certificate.load] of asn1crypto is not part of this module. *)
Variable load : bytes -> outcome Certificate.

(** [result = CoreFoundation.CFRelease(ref); handle_cf_error(result)] *)
Definition release (ref : Z) : M (inspection * frame) unit :=
  engine_call (CFRelease ref) ;;;
  s <- get ;;
  handle_cf_error (CFRelease_fails (env (connection (fst s)))).

(** The [for index in range(0, number_certs)] loop of
    [_read_certificates], over what the trust object holds from [index]
    on. *)
Fixpoint read_chain (index : Z) (chain : list (Z * bytes)) : M (inspection * frame) unit :=
  match chain with
  | [] => ret tt
  | (data_ref, cert_data) :: rest =>
      on_frame (set_cf_data_ref (Some data_ref)) ;;;
      release data_ref ;;;
      on_frame (set_cf_data_ref None) ;;;
      cert <- (fun s => (load cert_data, s)) ;;
      (if index =? 0 then on_object (set_certificate (Some cert))
       else
         s <- get ;;
         match _intermediates (fst s) with
         | Some intermediates =>
             on_object (set_intermediates (Some (intermediates ++ [cert])))
         | None => raise (AttributeError "append")
         end) ;;;
      read_chain (index + 1) rest
  end.

(** [if ref: result = CoreFoundation.CFRelease(ref); handle_cf_error(result)]
    for a local that holds [None] or a handle; a null handle is false. *)
Definition release_if_set (ref : option Z) : M (inspection * frame) unit :=
  match ref with
  | Some ref => if bool_decide (ref <> 0) then release ref else ret tt
  | None => ret tt
  end.

(** [_read_certificates], with [session_context] the value of
    [self._session_context], which both callers have found set. *)
Definition _read_certificates (session_context : SSLContextRef) : M inspection unit :=
  fun i =>
    let r :=
      try_finally
        (engine_call (SSLCopyPeerTrust session_context) ;;;
         s <- get ;;
         handle_sec_error (SSLCopyPeerTrust_reply (env (connection (fst s)))) OSError_cls ;;;
         on_frame (set_trust_ref (Some (peer_trust (fst s)))) ;;;
         on_object (set_intermediates (Some [])) ;;;
         read_chain 0 (peer_chain (fst s)))
        (s <- get ;;
         release_if_set (trust_ref (snd s)) ;;;
         release_if_set (cf_data_ref (snd s)))
        (i, {| trust_ref := None; cf_data_ref := None |}) in
    (fst r, fst (snd r)).

(** The property [certificate]. *)
Definition certificate : M inspection (option Certificate) :=
  i <- get ;;
  match _session_context (self (connection i)) with
  | None => on_connection _raise_closed
  | Some session_context =>
      match _certificate i with
      | None => _read_certificates session_context
      | Some _ => ret tt
      end ;;;
      i <- get ;;
      ret (_certificate i)
  end.

(** The property [intermediates]. *)
Definition intermediates : M inspection (option (list Certificate)) :=
  i <- get ;;
  match _session_context (self (connection i)) with
  | None => on_connection _raise_closed
  | Some session_context =>
      match _certificate i with
      | None => _read_certificates session_context
      | Some _ => ret tt
      end ;;;
      i <- get ;;
      ret (_intermediates i)
  end.

(** The property [socket]. *)
Definition socket_property : M inspection (option socket) :=
  i <- get ;;
  match _session_context (self (connection i)) with
  | None => on_connection _raise_closed
  | Some _ => ret (_socket (self (connection i)))
  end.

End Certificates.

(** An object on [m] that has not read its certificates, the trust
    object of the engine holding [chain] under the handle 40. *)
Definition inspecting (m : machine) (chain : list (Z * bytes)) : inspection :=
  {| connection := m; _certificate := None; _intermediates := None;
     peer_trust := 40; peer_chain := chain |}.

(** The releases of the handles of a part of the chain, in order. *)
Definition releases (chain : list (Z * bytes)) : list call :=
  map (fun entry => CFRelease (fst entry)) chain.

(** A parser that refuses the empty byte string. *)
Definition accept_nonempty (data : bytes) : outcome Certificate :=
  match data with
  | [] => Raise (ValueError "certificate")
  | _ => accept_certificate data
  end.

(** An object after a reading of its certificates: the calls [added] to
    the log and the two attributes set, everything else as it was. *)
Definition read_state (added : list call) (cert : option Certificate)
  (ints : option (list Certificate)) (i : inspection) : inspection :=
  {| connection := with_env (fun w => set_calls (calls w ++ added) w) (connection i);
     _certificate := cert;
     _intermediates := ints;
     peer_trust := peer_trust i;
     peer_chain := peer_chain i |}.

(** [load] parses the bytes of [chain] into [certs], entry by entry. *)
Definition parsed (load : bytes -> outcome Certificate) (chain : list (Z * bytes))
  (certs : list Certificate) : Prop :=
  Forall2 (fun entry cert => load (snd entry) = Return cert) chain certs.

(** The release of the trust handle in the [finally] clause. *)
Definition trust_release (i : inspection) : list call :=
  if bool_decide (peer_trust i <> 0) then [CFRelease (peer_trust i)] else [].

(** * The start of the handshake *)

(** The protocol constants and the session option of [SecurityConst] that
    [_handshake] hands to the engine. *)
Class SSLProtocol := {
  kSSLProtocol2 : Z;
  kSSLProtocol3 : Z;
  kTLSProtocol1 : Z;
  kTLSProtocol11 : Z;
  kTLSProtocol12 : Z;
  kSSLSessionOptionBreakOnServerAuth : Z
}.

(** The values of SecureTransport.h, used where a property is evaluated
    on a concrete run. *)
Definition darwin_SSLProtocol : SSLProtocol := {|
  kSSLProtocol2 := 1;
  kSSLProtocol3 := 2;
  kTLSProtocol1 := 4;
  kTLSProtocol11 := 7;
  kTLSProtocol12 := 8;
  kSSLSessionOptionBreakOnServerAuth := 0
|}.

#[local] Existing Instance darwin_SSLProtocol.

(** The calls by which [_handshake] creates and configures a context, in
    the order they are made. *)
Inductive setting :=
| SSLNewContext
| SSLCreateContext
| SSLSetIOFuncs (ctx : SSLContextRef)
| SSLSetConnection (ctx : SSLContextRef) (connection_id : Z)
| SSLSetPeerDomainName (ctx : SSLContextRef) (utf8_domain : bytes)
| SSLSetProtocolVersionEnabled (ctx : SSLContextRef) (protocol_const : Z) (enabled : bool)
| SSLSetEnableCertVerify (ctx : SSLContextRef) (enabled : bool)
| SSLSetProtocolVersionMin (ctx : SSLContextRef) (min_protocol : Z)
| SSLSetProtocolVersionMax (ctx : SSLContextRef) (max_protocol : Z)
| SSLSetSessionOption (ctx : SSLContextRef) (option : Z) (value : bool).

#[global] Instance setting_eq_dec : EqDecision setting.
Proof. solve_decision. Defined.

(** The object with its session, [id(self)], and the engine as the start
    of the handshake meets it: the handle it hands out for a new context
    (null is [0]), the status it answers to each call, and the calls
    made so far.  [local_session_context] is the local [session_context]
    of [_handshake], which its [except] clause reads. *)
Record setup := {
  obj : machine;
  _session : TLSSession;
  id_self : Z;
  new_context : SSLContextRef;
  status : setting -> Z;
  settings : list setting;
  local_session_context : option SSLContextRef
}.

Definition on_obj (f : machine -> machine) (s : setup) : setup :=
  {| obj := f (obj s); _session := _session s; id_self := id_self s;
     new_context := new_context s; status := status s; settings := settings s;
     local_session_context := local_session_context s |}.

Definition log_setting (c : setting) (s : setup) : setup :=
  {| obj := obj s; _session := _session s; id_self := id_self s;
     new_context := new_context s; status := status s;
     settings := settings s ++ [c];
     local_session_context := local_session_context s |}.

Definition set_local_session_context (v : option SSLContextRef) (s : setup) : setup :=
  {| obj := obj s; _session := _session s; id_self := id_self s;
     new_context := new_context s; status := status s; settings := settings s;
     local_session_context := v |}.

Definition set_connection_id (v : option Z) (s : TLSSocket) : TLSSocket :=
  {| _socket := _socket s; _session_context := _session_context s;
     _decrypted_bytes := _decrypted_bytes s; _hostname := _hostname s;
     _done_handshake := _done_handshake s; _server_hello := _server_hello s;
     _client_hello := _client_hello s; _local_closed := _local_closed s;
     _connection_id := v |}.

Definition with_connection_refs (f : gset Z -> gset Z) (m : machine) : machine :=
  {| self := self m; _connection_refs := f (_connection_refs m);
     _socket_refs := _socket_refs m; env := env m |}.

(** A method of the object run from the start of the handshake. *)
Definition in_obj {A : Type} (c : M machine A) : M setup A :=
  fun s =>
    let r := c (obj s) in
    (fst r, on_obj (fun _ => snd r) s).

(** How the fragment ends: as a method does, or with a [KeyError], which
    is not among the errors of the channel. *)
Inductive ending (A : Type) : Type :=
| ended (o : outcome A)
| KeyError.
Arguments ended {A} o.
Arguments KeyError {A}.

Definition N (A : Type) : Type := setup -> ending A * setup.

Definition lift {A : Type} (c : M setup A) : N A :=
  fun s =>
    match c s with
    | (o, s') => (ended o, s')
    end.

Definition seq {A B : Type} (m : N A) (k : A -> N B) : N B :=
  fun s =>
    match m s with
    | (ended (Return a), s') => k a s'
    | (ended (Raise e), s') => (ended (Raise e), s')
    | (ended Hang, s') => (ended Hang, s')
    | (KeyError, s') => (KeyError, s')
    end.

Declare Scope setup_scope.
Delimit Scope setup_scope with setup.
Notation "x <- m ;; k" := (seq m (fun x => k))
  (at level 100, m at next level, right associativity) : setup_scope.
Notation "m ;;; k" := (seq m (fun _ => k))
  (at level 100, right associativity) : setup_scope.

(** [min(consts)] and [max(consts)] of a list of integers. *)
Definition py_min (consts : list Z) : outcome Z :=
  match consts with
  | [] => Raise (ValueError "min() arg is an empty sequence")
  | c :: rest => Return (foldl Z.min c rest)
  end.

Definition py_max (consts : list Z) : outcome Z :=
  match consts with
  | [] => Raise (ValueError "max() arg is an empty sequence")
  | c :: rest => Return (foldl Z.max c rest)
  end.

Section Setup.
Context `{PC : SSLProtocol}.

Definition _PROTOCOL_STRING_CONST_MAP : list (string * Z) :=
  [ ("SSLv2", kSSLProtocol2);
    ("SSLv3", kSSLProtocol3);
    ("TLSv1", kTLSProtocol1);
    ("TLSv1.1", kTLSProtocol11);
    ("TLSv1.2", kTLSProtocol12) ]%string.

(** [_PROTOCOL_STRING_CONST_MAP.get(protocol)] *)
Definition const_of_protocol (protocol : string) : option Z :=
  snd <$> List.find (fun row => bool_decide (fst row = protocol))
            _PROTOCOL_STRING_CONST_MAP.

(** [_PROTOCOL_STRING_CONST_MAP[protocol]] *)
Definition lookup_protocol (protocol : string) : N Z :=
  fun s =>
    match const_of_protocol protocol with
    | Some c => (ended (Return c), s)
    | None => (KeyError, s)
    end.

(** [result = Security.<call>(...); handle_sec_error(result)] *)
Definition engine (c : setting) : M setup unit :=
  modify (log_setting c) ;;;
  s <- get ;;
  handle_sec_error (status s c) OSError_cls.

(** The loop [for protocol in ['SSLv2', 'SSLv3', 'TLSv1']] of OS X before
    10.8. *)
Fixpoint enable_protocols (session_context : SSLContextRef) (protocols : list string)
  : N unit :=
  match protocols with
  | [] => lift (ret tt)
  | protocol :: rest =>
      (protocol_const <- lookup_protocol protocol ;;
       s <- lift get ;;
       let enabled := bool_decide (protocol ∈ _protocols (_session s)) in
       lift (engine (SSLSetProtocolVersionEnabled session_context protocol_const enabled)) ;;;
       enable_protocols session_context rest)%setup
  end.

(** [[_PROTOCOL_STRING_CONST_MAP[protocol] for protocol in
    self._session._protocols]]: a protocol without a constant ends the
    comprehension with a [KeyError]. *)
Definition session_protocol_consts : N (list Z) :=
  fun s =>
    match mapM const_of_protocol (elements (_protocols (_session s))) with
    | Some consts => (ended (Return consts), s)
    | None => (KeyError, s)
    end.

(** The body of the [try] of [_handshake] from its first line to the
    comment that opens the cipher suites.  An entry of [_socket_refs]
    that holds [None] reads as no entry. *)
Definition _handshake_body : N unit :=
  (s <- lift get ;;
   lift
     (if version_lt (osx_version_info (env (obj s))) (10, 8) then
        engine SSLNewContext ;;;
        modify (set_local_session_context (Some (new_context s)))
      else
        modify (log_setting SSLCreateContext) ;;;
        modify (set_local_session_context (Some (new_context s))))%py ;;;
   let session_context := new_context s in
   lift (engine (SSLSetIOFuncs session_context)) ;;;
   let connection_id := id_self s mod 2147483647 in
   lift
     (modify (on_obj (with_self (set_connection_id (Some connection_id)))) ;;;
      modify (on_obj (with_connection_refs (fun refs => {[ connection_id ]} ∪ refs))) ;;;
      modify (on_obj (with_socket_refs
                        (match _socket (self (obj s)) with
                         | Some sock => <[ connection_id := sock ]>
                         | None => delete connection_id
                         end))) ;;;
      engine (SSLSetConnection session_context connection_id))%py ;;;
   let utf8_domain := String.list_byte_of_string (_hostname (self (obj s))) in
   lift (engine (SSLSetPeerDomainName session_context utf8_domain)) ;;;
   let disable_auto_validation :=
     _manual_validation (_session s)
     || match _extra_trust_roots (_session s) with [] => false | _ => true end in
   if version_lt (osx_version_info (env (obj s))) (10, 8) then
     enable_protocols session_context ["SSLv2"; "SSLv3"; "TLSv1"]%string ;;;
     lift (if disable_auto_validation
           then engine (SSLSetEnableCertVerify session_context false)
           else ret tt)
   else
     protocol_consts <- session_protocol_consts ;;
     lift
       (min_protocol <- (fun s => (py_min protocol_consts, s)) ;;
        max_protocol <- (fun s => (py_max protocol_consts, s)) ;;
        engine (SSLSetProtocolVersionMin session_context min_protocol) ;;;
        engine (SSLSetProtocolVersionMax session_context max_protocol) ;;;
        if disable_auto_validation
        then engine (SSLSetSessionOption session_context
                       kSSLSessionOptionBreakOnServerAuth true)
        else ret tt)%py)%setup.

(** The [except (OSError, socket_.error):] clause, with its test
    [if session_context:]. *)
Definition _handshake_handler (e : exn) : M setup unit :=
  s <- get ;;
  match local_session_context s with
  | Some session_context =>
      if bool_decide (session_context <> 0)
      then in_obj (_handshake_except session_context e)
      else in_obj (modify (with_self (set_session_context None)) ;;; close ;;; raise e)
  | None => in_obj (modify (with_self (set_session_context None)) ;;; close ;;; raise e)
  end.

(** [_handshake] as far as [_handshake_body] reaches: an error of the
    system or of the TLS layer enters the [except] clause, any other
    propagates as it is. *)
Definition _handshake_start : N unit :=
  fun s =>
    match _handshake_body s with
    | (ended (Raise e), s') =>
        if is_OSError e then lift (_handshake_handler e) s' else (ended (Raise e), s')
    | r => r
    end.

End Setup.

(** A session as the constructor builds it. *)
Definition session_of (protocols : gset string) (manual_validation : bool)
  (extra_trust_roots : list Certificate) : TLSSession :=
  {| _protocols := protocols; _manual_validation := manual_validation;
     _extra_trust_roots := extra_trust_roots; _peer_id := zero_bytes 8 |}.

(** An object that has not started a handshake, nothing registered. *)
Definition fresh (s : TLSSocket) (w : world) : machine :=
  {| self := set_connection_id None s; _connection_refs := ∅; _socket_refs := ∅;
     env := w |}.

(** The start of a handshake on [m] with [session], the engine handing
    out the context 1 and answering each call as [answers] says. *)
Definition starting (m : machine) (session : TLSSession) (answers : setting -> Z) : setup :=
  {| obj := m; _session := session; id_self := 2147483647 + 7;
     new_context := 1; status := answers; settings := [];
     local_session_context := None |}.

(** What the start of the handshake has set up on a system from 10.8
    on, before the protocol range. *)
Definition connected (s : setup) : list setting :=
  settings s
  ++ [ (if version_lt (osx_version_info (env (obj s))) (10, 8)
        then SSLNewContext else SSLCreateContext);
       SSLSetIOFuncs (new_context s);
       SSLSetConnection (new_context s) (id_self s mod 2147483647);
       SSLSetPeerDomainName (new_context s)
         (String.list_byte_of_string (_hostname (self (obj s)))) ].

(** [disable_auto_validation], as a truth value. *)
Definition disable_auto_validation (session : TLSSession) : bool :=
  _manual_validation session
  || match _extra_trust_roots session with [] => false | _ => true end.

(** * More vocabulary of the properties *)

(** What the engine delivered to the [SSLRead] calls [asked] out of the
    replies [used]: of each reply the bytes that fit the count asked
    for, in the order of the calls. *)
Definition delivered (asked : list call) (used : list (Z * bytes)) : bytes :=
  concat (zip_with
            (fun c reply =>
               match c with
               | SSLRead _ to_read => take (Z.to_nat to_read) (snd reply)
               | _ => []
               end)
            asked used).

(** The calls [asked] are [SSLRead] calls on [ctx], one for each of the
    replies [used]. *)
Definition served (ctx : SSLContextRef) (asked : list call) (used : list (Z * bytes)) : Prop :=
  Forall2 (fun c (_ : Z * bytes) => exists to_read, c = SSLRead ctx to_read) asked used.

(** The blacklist in the words of the design document: anonymous key
    exchange, PSK, SEED, RC4, MD5, NULL, Camellia, ARIA, SRP, KRB5,
    EXPORT, single DES (a ["DES"] that no ["3"] precedes) and IDEA, each
    by the letters that mark it in a canonical name. *)
Definition spec_blacklist : list alternative :=
  [ lit "anon"; lit "PSK"; lit "SEED"; lit "RC4"; lit "MD5"; lit "NULL";
    lit "CAMELLIA"; lit "ARIA"; lit "SRP"; lit "KRB5"; lit "EXPORT";
    lit_not_after "3" "DES"; lit "IDEA" ]%string.

Definition listed (name : string) : Prop :=
  exists a, In a spec_blacklist /\ occurs a name.

(** Whether the [except] clause of [_handshake] meets a release that
    fails: the local holds a context, not null, and the system refuses
    to release it. *)
Definition release_fails (w : world) (local : option SSLContextRef) : bool :=
  match local with
  | Some session_context =>
      bool_decide (session_context <> 0)
      && (if version_lt (osx_version_info w) (10, 8)
          then bool_decide (SSLDisposeContext_reply w <> 0)
          else CFRelease_fails w)
  | None => false
  end.

(** The call that releases a context, and the error of its failure. *)
Definition release_call (w : world) (session_context : SSLContextRef) : call :=
  if version_lt (osx_version_info w) (10, 8)
  then SSLDisposeContext session_context else CFRelease session_context.

Definition release_error (w : world) : exn :=
  if version_lt (osx_version_info w) (10, 8)
  then SecError OSError_cls (SSLDisposeContext_reply w) else CFError.

(** * Properties *)

(** ** Proof steps *)

(** Unfolding of the monad. *)
Ltac run :=
  unfold when, raise_weak_signature, raise_hostname, raise_expired_not_yet_valid,
    raise_no_issuer, raise_self_signed, raise_client_auth, raise_verification,
    raise_handshake, raise_dh_params, raise_protocol_error, raise_disconnection,
    handle_sec_error, handle_cf_error;
  unfold bind, get, modify, ret, raise, hang; cbn.

(** Case analysis on the tests of a straight-line body, innermost
    first. *)
Ltac paths :=
  repeat (match goal with
          | |- context [match ?x with _ => _ end] =>
              lazymatch x with
              | context [match _ with _ => _ end] => fail
              | _ => destruct x eqn:?; cbn
              end
          end).

(** The tests of the code, read as propositions. *)
Ltac reflect_tests :=
  repeat match goal with
         | Hb : bool_decide _ = true |- _ => apply bool_decide_eq_true in Hb
         | Hb : bool_decide _ = false |- _ => apply bool_decide_eq_false in Hb
         end.

(** ** Slices *)

Lemma slice_index_in_range (i : Z) (n : nat) :
  0 <= i <= Z.of_nat n -> slice_index i n = Z.to_nat i.
Proof.
  intros [Hlo Hhi]. unfold slice_index.
  destruct (i <? 0) eqn:E; [apply Z.ltb_lt in E; lia|].
  f_equal. lia.
Qed.

Lemma slice_to_from {A : Type} (l : list A) (i : Z) :
  slice_to l i ++ slice_from l i = l.
Proof. unfold slice_to, slice_from. apply take_drop. Qed.

(** ** The buffered channel *)

(** With bytes in the buffer [select_read] answers at once, whatever the
    timeout, and asks the system nothing. *)
Lemma select_read_buffered (m : machine) (timeout : option Z) :
  _decrypted_bytes (self m) <> [] -> select_read timeout m = (Return true, m).
Proof.
  intros Hne. unfold select_read, bind, get.
  destruct (_decrypted_bytes (self m)) as [|x l] eqn:E; [done|].
  unfold len. simpl length.
  destruct (0 <? Z.of_nat (S (length l))) eqn:E'; [done|].
  apply Z.ltb_ge in E'. lia.
Qed.

(** C9.  A [read(n)] on an open channel whose buffer holds at least [n]
    bytes returns the first [n] of them and keeps the rest in order; it
    returns (it neither raises nor waits) and leaves the outside world as
    it was: no call to [SSLRead], to [select] or to anything else is
    made. *)
Theorem read_enough_buffered `{SC : SecurityConst} (m : machine) (n : Z) :
  is_Some (_session_context (self m)) ->
  0 <= n <= len (_decrypted_bytes (self m)) ->
  exists output m',
    read n m = (Return output, m')
    /\ output = take (Z.to_nat n) (_decrypted_bytes (self m))
    /\ len output = n
    /\ _decrypted_bytes (self m') = drop (Z.to_nat n) (_decrypted_bytes (self m))
    /\ output ++ _decrypted_bytes (self m') = _decrypted_bytes (self m)
    /\ env m' = env m.
Proof.
  intros [ctx Hctx] [Hlo Hhi]. unfold read, bind, get. rewrite Hctx.
  destruct (len (_decrypted_bytes (self m)) >=? n) eqn:E;
    [|rewrite Z.geb_leb in E; apply Z.leb_gt in E; lia].
  unfold len in Hhi.
  eexists _, _. split; [reflexivity|]. cbn.
  unfold slice_to, slice_from. rewrite slice_index_in_range by lia.
  repeat split.
  - unfold len. rewrite length_take. lia.
  - apply take_drop.
Qed.

Lemma read_enough_buffered_witness :
  exists output m',
    read 2 (running (established (b "abcde")) quiet) = (Return output, m')
    /\ output = b "ab"
    /\ len output = 2
    /\ _decrypted_bytes (self m') = b "cde"
    /\ output ++ _decrypted_bytes (self m') = b "abcde"
    /\ env m' = quiet.
Proof.
  apply (read_enough_buffered (running (established (b "abcde")) quiet) 2).
  - eexists; reflexivity.
  - vm_compute. split; discriminate.
Defined.

(** A [read(n)] that finds fewer than [n] bytes buffered, but some, goes
    on to [SSLRead] for the missing ones without polling the socket: the
    poll is behind [select_read], which answers from the buffer. *)
Lemma read_short_buffer_calls_SSLRead `{SC : SecurityConst} (m : machine) (n ctx : Z) :
  _session_context (self m) = Some ctx ->
  0 < len (_decrypted_bytes (self m)) < n ->
  calls (env (snd (read n m)))
  = calls (env m) ++ [SSLRead ctx (n - len (_decrypted_bytes (self m)))].
Proof.
  intros Hctx [Hlo Hhi]. unfold read, bind at 1, get at 1. rewrite Hctx.
  destruct (len (_decrypted_bytes (self m)) >=? n) eqn:E;
    [rewrite Z.geb_leb in E; apply Z.leb_le in E; lia|].
  apply Z.ltb_lt in Hlo. rewrite Hlo.
  unfold bind at 1. unfold bind at 1.
  rewrite select_read_buffered
    by (intros E0; rewrite E0 in Hlo; discriminate).
  cbn -[Z.sub]. unfold call_SSLRead, bind, modify, get, hang, ret. cbn -[Z.sub].
  destruct (SSLRead_replies (env m)) as [|[result data] rest]; [reflexivity|].
  cbn -[Z.sub].
  destruct (bool_decide (result <> 0) && _) ; cbn -[Z.sub]; [|reflexivity].
  unfold handle_sec_error. destruct (bool_decide (result = 0)); reflexivity.
Qed.

(** C2.  [read(5)] with ["abc"] buffered on a blocking socket whose peer
    stays silent: the poll is not made, [SSLRead] is entered for the two
    missing bytes and the call does not come back; on a peer that the
    engine reports as would-block the three bytes are returned, but again
    only after [SSLRead] was entered. *)
Theorem read_short_buffer_enters_engine :
  let m := running (established (b "abc")) quiet in
  let m_wb := running (established (b "abc"))
                (set_SSLRead_replies [(errSSLWouldBlock, [])] quiet) in
  read 5 m = (Hang, with_env (log (SSLRead 1 2)) m)
  /\ fst (read 5 m_wb) = Return (b "abc")
  /\ calls (env (snd (read 5 m_wb))) = [SSLRead 1 2].
Proof. vm_compute. repeat split. Qed.

(** What a [close()] that returns leaves behind. *)
Lemma close_returns (m m1 : machine) :
  close m = (Return tt, m1) ->
  _session_context (self m1) = None
  /\ _socket (self m1) = None
  /\ _connection_id (self m1) = _connection_id (self m)
  /\ _decrypted_bytes (self m1) = _decrypted_bytes (self m)
  /\ (forall id, _connection_id (self m) = Some id -> _socket_refs m1 !! id = None)
  /\ (is_Some (_session_context (self m)) -> _local_closed (self m1) = true).
Proof.
  unfold close, try_finally, shutdown, bind, get, modify, ret, raise,
    handle_sec_error, handle_cf_error.
  destruct m as [[sock ctx buf host done sh ch lc id] crefs srefs w]. cbn.
  destruct ctx as [ctx|]; cbn.
  - destruct (bool_decide (SSLClose_reply w = 0)); cbn;
      [|destruct sock; cbn; destruct id as [id|]; cbn;
        try destruct (bool_decide (is_Some (srefs !! id))); cbn; discriminate].
    destruct (version_lt (osx_version_info w) (10, 8)); cbn.
    + destruct (bool_decide (SSLDisposeContext_reply w = 0)); cbn;
        [|destruct sock; cbn; destruct id as [id|]; cbn;
          try destruct (bool_decide (is_Some (srefs !! id))); cbn; discriminate].
      destruct sock as [sock|]; cbn;
        [|destruct id as [id|]; cbn;
          try destruct (bool_decide (is_Some (srefs !! id))); cbn; discriminate].
      destruct id as [id|]; cbn.
      * destruct (bool_decide (is_Some (srefs !! id))) eqn:E; cbn;
          intros [= <-]; cbn; repeat split; try done.
        -- intros ? [= <-]. apply lookup_delete_eq.
        -- intros ? [= <-]. apply bool_decide_eq_false in E.
           by apply eq_None_not_Some.
      * intros [= <-]; cbn; repeat split; done.
    + destruct (CFRelease_fails w); cbn;
        [destruct sock; cbn; destruct id as [id|]; cbn;
          try destruct (bool_decide (is_Some (srefs !! id))); cbn; discriminate|].
      destruct sock as [sock|]; cbn;
        [|destruct id as [id|]; cbn;
          try destruct (bool_decide (is_Some (srefs !! id))); cbn; discriminate].
      destruct id as [id|]; cbn.
      * destruct (bool_decide (is_Some (srefs !! id))) eqn:E; cbn;
          intros [= <-]; cbn; repeat split; try done.
        -- intros ? [= <-]. apply lookup_delete_eq.
        -- intros ? [= <-]. apply bool_decide_eq_false in E.
           by apply eq_None_not_Some.
      * intros [= <-]; cbn; repeat split; done.
  - destruct sock as [sock|]; cbn; destruct id as [id|]; cbn;
      try (destruct (bool_decide (is_Some (srefs !! id))) eqn:E; cbn);
      intros [= <-]; cbn; repeat split; try done;
      try (by intros [? [=]]).
    + intros ? [= <-]. apply lookup_delete_eq.
    + intros ? [= <-]. apply bool_decide_eq_false in E. by apply eq_None_not_Some.
    + intros ? [= <-]. apply lookup_delete_eq.
    + intros ? [= <-]. apply bool_decide_eq_false in E. by apply eq_None_not_Some.
Qed.

(** On a socket without a session context whose buffer is empty, [read]
    raises and changes nothing, so every later [read] raises as well. *)
Lemma read_closed_empty `{SC : SecurityConst} (m : machine) (n : Z) :
  _session_context (self m) = None ->
  _decrypted_bytes (self m) = [] ->
  _local_closed (self m) = true ->
  read n m = (closed_error, m).
Proof.
  intros Hctx Hbuf Hlc. unfold read, _raise_closed, bind, get, raise.
  rewrite Hctx, Hbuf. cbn. rewrite Hlc. reflexivity.
Qed.

(** With bytes left in the buffer it hands all of them out instead,
    whatever [max_length] is. *)
Lemma read_closed_buffered `{SC : SecurityConst} (m : machine) (n : Z) :
  _session_context (self m) = None ->
  _decrypted_bytes (self m) <> [] ->
  read n m = (Return (_decrypted_bytes (self m)), with_self (set_decrypted_bytes []) m).
Proof.
  intros Hctx Hbuf. unfold read, bind, get, modify, ret. rewrite Hctx.
  rewrite bool_decide_eq_true_2 by done. reflexivity.
Qed.

(** C4, as the code has it.  A second [close()] on a socket whose
    [close()] has returned raises nothing and changes neither the socket
    nor the registry nor the outside world.  After a [close()] that shut
    an open session down, a [read] raises the error that names the local
    closure once the decrypted buffer is empty; while bytes are buffered
    the next [read] returns them all, and every [read] after it raises. *)
Theorem close_idempotent_then_read `{SC : SecurityConst} (m m1 : machine) :
  close m = (Return tt, m1) ->
  close m1 = (Return tt, m1)
  /\ (is_Some (_session_context (self m)) ->
      forall n : Z,
        if bool_decide (_decrypted_bytes (self m1) = []) then
          read n m1 = (closed_error, m1)
        else
          exists m2,
            read n m1 = (Return (_decrypted_bytes (self m1)), m2)
            /\ forall n' : Z, read n' m2 = (closed_error, m2)).
Proof.
  intros Hclose.
  destruct (close_returns m m1 Hclose) as (Hctx & Hsock & Hid & Hbuf & Hrefs & Hlc).
  split.
  - unfold close, try_finally, shutdown, bind, get, modify, ret.
    rewrite Hctx, Hsock. cbn.
    destruct (_connection_id (self m1)) as [id|] eqn:E; [|reflexivity].
    symmetry in Hid. rewrite (Hrefs id Hid).
    rewrite bool_decide_eq_false_2 by (by intros [? [=]]). reflexivity.
  - intros Hopen n. specialize (Hlc Hopen). case_bool_decide as Hb.
    + by apply read_closed_empty.
    + eexists. split; [by apply read_closed_buffered|].
      intros n'. by apply read_closed_empty.
Qed.

Lemma close_idempotent_then_read_witness :
  close (snd (close (running (established []) quiet)))
  = (Return tt, snd (close (running (established []) quiet)))
  /\ read 4 (snd (close (running (established []) quiet)))
     = (closed_error, snd (close (running (established []) quiet))).
Proof.
  destruct (close_idempotent_then_read
              (running (established []) quiet)
              (snd (close (running (established []) quiet)))) as [H1 H2];
    [vm_compute; reflexivity|].
  split; [exact H1|].
  exact (H2 (ex_intro _ 1 eq_refl) 4).
Defined.

(** C4, as stated, fails: a socket closed with ["abc"] still buffered
    answers the next [read] with those bytes (more than the one asked for)
    instead of raising. *)
Lemma read_after_close_returns_buffer :
  let m := running (established (b "abc")) quiet in
  fst (close m) = Return tt
  /\ _local_closed (self (snd (close m))) = true
  /\ fst (read 1 (snd (close m))) = Return (b "abc")
  /\ fst (read 1 (snd (close m))) <> closed_error.
Proof. vm_compute. repeat split. discriminate. Qed.

(** A [close()] that raises in [shutdown] still closes the transport, but
    it keeps the session context, so the next [close()] goes through
    [SSLClose] again. *)
Lemma close_after_failed_close :
  let m := running (established []) reset_world in
  fst (close m) = Raise (SecError TLSError_cls errSSLClosedAbort)
  /\ _socket (self (snd (close m))) = None
  /\ _session_context (self (snd (close m))) = Some 1
  /\ fst (close (snd (close m))) = Raise (SecError TLSError_cls errSSLClosedAbort).
Proof. vm_compute. repeat split. Qed.

(** Where [find] reports an occurrence, the marker fits in the chunk. *)
Lemma find_from_range (marker chunk : bytes) (i : Z) :
  find_from marker chunk i = -1
  \/ i <= find_from marker chunk i
     /\ find_from marker chunk i - i + len marker <= len chunk.
Proof.
  revert i. induction chunk as [|x chunk IH]; intros i; cbn [find_from].
  - case_bool_decide as Hm; [|by left].
    right. rewrite take_nil in Hm. subst marker. unfold len. cbn. lia.
  - case_bool_decide as Hm.
    + right. split; [lia|]. apply (f_equal length) in Hm.
      rewrite length_take in Hm. unfold len. lia.
    + destruct (IH (i + 1)) as [->|[Hlo Hhi]]; [by left|].
      right. unfold len in *. cbn [length]. lia.
Qed.

#[local] Arguments find : simpl never.

(** A marker that lies in the buffered bytes is found there: the call
    returns up to the end of its first occurrence, puts the rest back and
    asks the outside world nothing. *)
Lemma read_until_in_buffer `{SC : SecurityConst} (m : machine) (marker : bytes) :
  _decrypted_bytes (self m) <> [] ->
  find (_decrypted_bytes (self m)) marker <> -1 ->
  let end_ := Z.to_nat (find (_decrypted_bytes (self m)) marker + len marker) in
  read_until (literal marker) m
  = (Return (take end_ (_decrypted_bytes (self m))),
     with_self (set_decrypted_bytes (drop end_ (_decrypted_bytes (self m)))) m).
Proof.
  intros Hne Hfound end_. unfold read_until. unfold bind at 1, get at 1.
  cbn [Nat.add read_until_loop]. unfold bind at 1, get at 1. unfold bind at 1.
  destruct (_decrypted_bytes (self m)) as [|x buf] eqn:Hbuf; [done|].
  assert (Hlen : (0 <? len (x :: buf)) = true)
    by (apply Z.ltb_lt; unfold len; cbn [length]; lia).
  rewrite Hlen. run. rewrite bool_decide_eq_true_2 by done. cbn.
  destruct (find_from_range marker (x :: buf) 0) as [Hnone|[Hlo Hhi]]; [done|].
  fold (find (x :: buf) marker) in Hlo, Hhi.
  unfold slice_to, slice_from.
  replace (len (x :: buf) - len (x :: buf) + find (x :: buf) marker + len marker)
    with (find (x :: buf) marker + len marker) by lia.
  rewrite slice_index_in_range by (unfold len in *; lia).
  fold end_. rewrite app_nil_r.
  destruct m as [[sock sctx dbuf host done sh ch lc id] crefs srefs w]. reflexivity.
Qed.

(** C7.  [read_until(b"\r\n")] on an empty buffer, the engine delivering
    ["abc\r"] and then ["\ndef\r\n"]: the marker first ends at offset 5,
    but it straddles the two reads and each read is searched on its own,
    so the call returns all ten bytes, up to the end of the second
    marker, and puts nothing back. *)
Theorem read_until_misses_straddling_marker :
  let first := b "abc" ++ [CR] in
  let second := [LF] ++ b "def" ++ [CR; LF] in
  let m := running (established [])
             (set_SSLRead_replies [(0, first); (0, second)] quiet) in
  find (first ++ second) [CR; LF] = 3
  /\ fst (read_until (literal [CR; LF]) m) = Return (first ++ second)
  /\ fst (read_until (literal [CR; LF]) m) <> Return (b "abc" ++ [CR; LF])
  /\ _decrypted_bytes (self (snd (read_until (literal [CR; LF]) m))) = [].
Proof. vm_compute. repeat split. discriminate. Qed.

(** ** The I/O bridge *)

(** The receive loop touches the transport only, never the object. *)
Lemma recv_loop_self `{SC : SecurityConst} (fuel : nat) (socket_ : option Z)
  (bytes_requested : Z) (data : bytes) (m : machine) :
  self (snd (recv_loop fuel socket_ bytes_requested data m)) = self m.
Proof.
  revert data m. induction fuel as [|fuel IH]; intros data m; cbn.
  - destruct (len data <? bytes_requested); [|reflexivity].
    destruct socket_; reflexivity.
  - destruct (len data <? bytes_requested); [|reflexivity].
    destruct socket_ as [sock|]; [|reflexivity].
    run. destruct (recv_replies (env m)) as [|[chunk|err] rest]; cbn; try reflexivity.
    destruct (bool_decide (take _ chunk = []) && _); cbn.
    + destruct (bool_decide _); reflexivity.
    + rewrite IH. reflexivity.
Qed.



Lemma write_callback_unbound_sent `{SC : SecurityConst} `{EN : errno} (m : machine) (id n : Z)
  (data_buffer : bytes) (sock : Z) (err : option Z) (rest : list send_reply) :
  snd (resolve id m) = Some sock ->
  send_replies (env m) = send_error err :: rest ->
  err = None \/ err = Some EAGAIN ->
  fst (_write_callback id data_buffer n m) = Raise (UnboundLocalError "sent").
Proof.
  intros Hsock Hsend Herr. unfold _write_callback. unfold bind at 1, get at 1.
  destruct (resolve id m) as [self_ socket_]. cbn in Hsock. subst socket_.
  assert (Hfatal : fatal_error err = None).
  { destruct Herr as [->| ->]; [reflexivity|]. cbn.
    rewrite bool_decide_eq_false_2; [reflexivity|]. intros Hne. by apply Hne. }
  destruct self_ as [s|]; run; rewrite Hsend; cbn; rewrite Hfatal;
    try destruct (_done_handshake (self m)); reflexivity.
Qed.

(** C10.  [_write_callback] while [socket.send] raises a [socket.error]
    with errno [EAGAIN]: no status is returned, the comparison of [sent]
    with the length fails on the unbound local.  The same happens for an
    error without errno, such as a timeout. *)
Theorem write_callback_EAGAIN_unbound_local :
  let m := running (handshaking [])
             (set_send_replies [send_error (Some EAGAIN)] quiet) in
  let m' := running (handshaking [])
              (set_send_replies [send_error None] quiet) in
  fst (_write_callback 7 (b "hello") 5 m) = Raise (UnboundLocalError "sent")
  /\ fst (_write_callback 7 (b "hello") 5 m') = Raise (UnboundLocalError "sent").
Proof. vm_compute. split; reflexivity. Qed.

(** ** The captures once the flag is set *)







(** ** The end of the handshake *)

Lemma read_remaining_self `{SC : SecurityConst} (m : machine) (socket_ : option Z) :
  self (snd (_read_remaining socket_ m)) = self m.
Proof. destruct socket_; reflexivity. Qed.

Lemma check_result_captures `{SC : SecurityConst} `{EN : errno} `{HP : HandshakeParsers}
  (m : machine) (ctx r : Z) :
  _done_handshake (self m) = true ->
  captures_after_check r (self m) (self (snd (_handshake_check_result ctx r m))).
Proof.
  intros Hdone. unfold captures_after_check.
  unfold _handshake_check_result, _handshake_chain_invalid, _read_remaining. run.
  destruct m as [[sock sctx buf host done sh ch lc id] crefs srefs w].
  cbn in Hdone. subst done. cbn.
  paths.
  all: cbn; repeat split; try done.
  all: try (exists []; split; [by rewrite app_nil_r|done]).
  all: eexists; split; [reflexivity|]; intros _.
  all: reflect_tests; done.
Qed.

(** C1, as the code has it.  On a status of the chain-invalid family, once
    the peer trust object is fetched, the classifier raises exactly one
    error.  When the captured chain is not empty, it is the error of the
    first rule that applies in the order: weak signature of the leaf (MD5
    or MD2), host name mismatch, expired or not yet valid, not trusted
    with a leaf that is not self-signed, self-signed leaf, client
    certificate requested by the captured server hello; when none
    applies, the generic verification error with the leaf.  The
    client-certificate request is looked at only after the other five.
    When the captured chain is empty, the rules about the leaf and the
    result code are not consulted: the error is the client-certificate
    one when the server hello asks for a certificate, and the generic
    verification error without a certificate otherwise. *)
Theorem chain_invalid_raises_by_precedence
  `{SC : SecurityConst} `{EN : errno} `{HP : HandshakeParsers} (m : machine) (ctx r : Z) :
  r ∈ handshake_error_codes ->
  SSLCopyPeerTrust_reply (env m) = 0 ->
  fst (_handshake_check_result ctx r m)
  = Raise (chain_invalid_precedence (self m) (CssmResultCode (env m))).
Proof.
  intros Hr Hcopy.
  unfold _handshake_check_result. unfold bind at 1.
  rewrite bool_decide_eq_true_2 by done.
  unfold _handshake_chain_invalid, chain_invalid_precedence. run. rewrite Hcopy. cbn.
  destruct (extract_chain (_server_hello (self m))) as [|leaf chain]; cbn.
  - destruct (detect_client_auth_request _); reflexivity.
  - destruct (bool_decide (hash_algo leaf = "md5"%string \/ _)); cbn; [reflexivity|].
    destruct (bool_decide (CssmResultCode (env m) = CSSMERR_APPLETP_HOSTNAME_MISMATCH));
      cbn; [reflexivity|].
    destruct (bool_decide (CssmResultCode (env m) = CSSMERR_TP_CERT_EXPIRED)) eqn:E1;
      destruct (bool_decide (CssmResultCode (env m) = CSSMERR_TP_CERT_NOT_VALID_YET)) eqn:E2;
      destruct (bool_decide (CssmResultCode (env m) = CSSMERR_TP_CERT_EXPIRED \/ _)) eqn:E3;
      cbn; try reflexivity; try (reflect_tests; tauto).
    rewrite andb_comm.
    destruct (bool_decide (CssmResultCode (env m) = CSSMERR_TP_NOT_TRUSTED) && _);
      cbn; [reflexivity|].
    destruct (self_signed leaf); cbn; [reflexivity|].
    destruct (detect_client_auth_request _); reflexivity.
Qed.

Lemma chain_invalid_raises_by_precedence_witness :
  fst (_handshake_check_result (HP := parsers [leaf_sha256] true) 1
         errSSLXCertChainInvalid (running (handshaking []) quiet))
  = Raise client_auth.
Proof.
  refine (eq_trans
            (chain_invalid_raises_by_precedence (HP := parsers [leaf_sha256] true)
               (running (handshaking []) quiet) 1 errSSLXCertChainInvalid _ _) _).
  - apply list_elem_of_here.
  - reflexivity.
  - vm_compute. reflexivity.
Defined.

(** C1, as stated, fails: with a SHA-256 leaf, the engine reporting a
    host name mismatch and the server hello asking for a client
    certificate, the handshake raises the host name error, not the
    client-certificate one. *)
Lemma hostname_beats_client_auth :
  detect_client_auth_request (HandshakeParsers := parsers [leaf_sha256] true) [] = true
  /\ fst (_handshake_finish (HP := parsers [leaf_sha256] true) 1 errSSLXCertChainInvalid
           (running (handshaking []) hostname_world))
     = Raise (hostname_mismatch (Some leaf_sha256) "example.com")
  /\ fst (_handshake_finish (HP := parsers [leaf_sha256] true) 1 errSSLXCertChainInvalid
           (running (handshaking []) hostname_world))
     <> Raise client_auth.
Proof. vm_compute. repeat split. discriminate. Qed.


(** With an empty captured chain none of the rules that look at the leaf
    or at the result code is consulted: the client-certificate error is
    raised when the captured server hello asks for one, and the generic
    verification error without a certificate otherwise. *)
Lemma empty_chain_skips_leaf_rules
  `{SC : SecurityConst} `{EN : errno} `{HP : HandshakeParsers} (m : machine) (ctx r : Z) :
  r ∈ handshake_error_codes ->
  SSLCopyPeerTrust_reply (env m) = 0 ->
  extract_chain (_server_hello (self m)) = [] ->
  fst (_handshake_check_result ctx r m)
  = Raise (if detect_client_auth_request (_server_hello (self m))
           then client_auth else verification None).
Proof.
  intros Hr Hcopy Hchain.
  unfold _handshake_check_result. unfold bind at 1.
  rewrite bool_decide_eq_true_2 by done.
  unfold _handshake_chain_invalid. run. rewrite Hcopy, Hchain. cbn.
  destruct (detect_client_auth_request _); reflexivity.
Qed.

(** So with no certificate captured a host name mismatch reported by the
    engine ends in the generic error. *)
Lemma empty_chain_hostname_code_is_generic :
  fst (_handshake_check_result (HP := parsers [] false) 1 errSSLXCertChainInvalid
         (running (handshaking []) hostname_world))
  = Raise (verification None).
Proof. vm_compute. reflexivity. Qed.



(** On a close status [_handshake_finish] drains nothing: the test that
    guards the drain reads the flag that was set just before. *)
Lemma closed_status_not_drained `{SC : SecurityConst} `{EN : errno} `{HP : HandshakeParsers}
  (m : machine) (ctx r : Z) :
  r = errSSLClosedNoNotify \/ r = errSSLClosedAbort ->
  r <> errSSLRecordOverflow -> r <> errSSLProtocol ->
  _server_hello (self (snd (_handshake_check_result ctx r
                              (with_self (set_done_handshake true) m))))
  = _server_hello (self m).
Proof.
  intros _ Hro Hp.
  destruct (check_result_captures (with_self (set_done_handshake true) m) ctx r eq_refl)
    as (_ & _ & remaining & -> & Hrem).
  destruct remaining as [|x remaining]; [apply app_nil_r|].
  destruct Hrem; done.
Qed.

(** C6.  The handshake ends on [errSSLClosedAbort] with nothing captured
    from the server while an HTTP answer waits on the socket.  Run from
    the state the handshake loop leaves, the close branch would drain the
    answer and raise the protocol error; [_handshake_finish] sets the flag
    first, so the socket is not read and a disconnection is raised. *)
Theorem closed_handshake_is_not_drained :
  let m := running (handshaking [])
             (set_recv_replies [recv_data (b "HTTP/1.1 400 Bad Request")] quiet) in
  let check := _handshake_check_result (HP := parsers [] false) 1 errSSLClosedAbort in
  let finish := _handshake_finish (HP := parsers [] false) 1 errSSLClosedAbort in
  fst (check m) = Raise (protocol_error (b "HTTP/1.1 400 Bad Request"))
  /\ fst (finish m) = Raise disconnection
  /\ _server_hello (self (snd (finish m))) = []
  /\ recv_replies (env (snd (finish m))) = [recv_data (b "HTTP/1.1 400 Bad Request")]
  /\ calls (env (snd (finish m))) = [CFRelease 1; socket_close 3].
Proof. vm_compute. repeat split. Qed.

(** The checks leave the facts of the system as they were. *)
Lemma check_result_system `{SC : SecurityConst} `{EN : errno} `{HP : HandshakeParsers}
  (m : machine) (ctx r : Z) :
  let w' := env (snd (_handshake_check_result ctx r m)) in
  osx_version_info w' = osx_version_info (env m)
  /\ SSLDisposeContext_reply w' = SSLDisposeContext_reply (env m)
  /\ CFRelease_fails w' = CFRelease_fails (env m).
Proof.
  unfold _handshake_check_result, _handshake_chain_invalid, _read_remaining. run.
  destruct m as [[sock sctx buf host done sh ch lc id] crefs srefs w]. cbn.
  paths. all: cbn; done.
Qed.

(** Without a session context [close] has nothing to shut down and
    returns. *)
Lemma close_without_session (m : machine) :
  _session_context (self m) = None -> fst (close m) = Return tt.
Proof.
  intros Hctx. unfold close, try_finally, shutdown. run. rewrite Hctx. cbn.
  paths; reflexivity.
Qed.

(** What the classifier raises is what [_handshake] raises, the socket
    torn down, as long as the release of the context does not fail. *)
Lemma handshake_finish_reraises `{SC : SecurityConst} `{EN : errno} `{HP : HandshakeParsers}
  (m : machine) (ctx r : Z) (e : exn) :
  fst (_handshake_check_result ctx r (with_self (set_done_handshake true) m)) = Raise e ->
  is_OSError e = true ->
  (if version_lt (osx_version_info (env m)) (10, 8)
   then SSLDisposeContext_reply (env m) = 0
   else CFRelease_fails (env m) = false) ->
  exists m',
    _handshake_finish ctx r m = (Raise e, m')
    /\ _session_context (self m') = None
    /\ _socket (self m') = None.
Proof.
  intros Hraise Hos Hrelease.
  unfold _handshake_finish, try_except.
  change ((modify (with_self (set_done_handshake true));;;
           _handshake_check_result ctx r) m)
    with (_handshake_check_result ctx r (with_self (set_done_handshake true) m)).
  pose proof (check_result_system (with_self (set_done_handshake true) m) ctx r) as Hsys.
  destruct (_handshake_check_result ctx r (with_self (set_done_handshake true) m))
    as [o m1]. cbn in Hraise, Hsys. subst o. rewrite Hos.
  destruct Hsys as (Hv & Hd & Hc). rewrite <- Hv, <- Hd, <- Hc in Hrelease.
  unfold _handshake_except.
  assert (Hrest : forall m2 : machine,
            exists m',
              (modify (with_self (set_session_context None));;; close;;;
               (raise e : M machine unit)) m2
              = (Raise e, m')
              /\ _session_context (self m') = None /\ _socket (self m') = None).
  { intros m2. unfold bind, modify, raise.
    set (m3 := with_self (set_session_context None) m2).
    pose proof (close_without_session m3 eq_refl) as Hclose.
    pose proof (close_returns m3 (snd (close m3))) as Hafter.
    destruct (close m3) as [o m4]. cbn in Hclose, Hafter. subst o.
    destruct (Hafter eq_refl) as (Hctx & Hsock & _). by exists m4. }
  unfold bind at 1, get at 1. unfold bind at 1.
  destruct (version_lt (osx_version_info (env m1)) (10, 8)).
  - unfold bind at 1, modify at 1, handle_sec_error. rewrite Hrelease. cbn.
    apply Hrest.
  - unfold bind at 1, modify at 1, handle_cf_error. rewrite Hrelease. cbn.
    apply Hrest.
Qed.

(** ** Session construction *)

Lemma difference_empty_iff_subset (X Y : gset string) : X ∖ Y = ∅ <-> X ⊆ Y.
Proof.
  split.
  - intros Hempty x Hx. destruct (decide (x ∈ Y)) as [|Hn]; [done|].
    assert (Hd : x ∈ X ∖ Y) by (by apply elem_of_difference).
    rewrite Hempty in Hd. by apply not_elem_of_empty in Hd.
  - intros Hsub. apply leibniz_equiv. intros x. split.
    + intros [Hx Hn]%elem_of_difference. destruct Hn. by apply Hsub.
    + by intros ?%not_elem_of_empty.
Qed.

(** C3, as the code has it.  With a boolean [manual_validation], a
    protocol given as a set is refused, with a [ValueError] and whatever
    the trust roots are, exactly when it has a member outside the four
    supported versions; a set within them, the empty set included, is
    accepted as it is.  A string stands for its singleton, [None] for the
    default set, and any other object is a [TypeError]. *)
Theorem session_protocol_check
  (parse_certificate : bytes -> outcome Certificate)
  (read_binary : string -> outcome bytes) (rand_bytes : Z -> bytes)
  (manual_validation : bool) :
  let init := TLSSession_init parse_certificate read_binary rand_bytes in
  let session protocols :=
    {| _protocols := protocols; _manual_validation := manual_validation;
       _extra_trust_roots := []; _peer_id := rand_bytes 8 |} in
  (forall protocol : gset string,
     protocol ⊆ supported_protocols ->
     init (PySet protocol) (PyBool manual_validation) None = Return (session protocol))
  /\ (forall (protocol : gset string) roots,
        ~ protocol ⊆ supported_protocols ->
        init (PySet protocol) (PyBool manual_validation) roots
        = Raise (ValueError "protocol"))
  /\ init (PySet ∅) (PyBool manual_validation) None = Return (session ∅)
  /\ (forall (s : string) roots,
        init (PyStr s) (PyBool manual_validation) roots
        = init (PySet {[ s ]}) (PyBool manual_validation) roots)
  /\ init PyNone (PyBool manual_validation) None = Return (session default_protocols)
  /\ (forall roots v, init (PyBool v) (PyBool manual_validation) roots
                      = Raise (TypeError "protocol"))
  /\ (forall roots t, init (PyOther t) (PyBool manual_validation) roots
                      = Raise (TypeError "protocol")).
Proof.
  cbn zeta. unfold TLSSession_init.
  assert (Hok : forall protocol : gset string,
            protocol ⊆ supported_protocols ->
            bool_decide (protocol ∖ supported_protocols <> ∅) = false).
  { intros protocol Hsub. apply bool_decide_eq_false. intros Hne. apply Hne.
    by apply difference_empty_iff_subset. }
  split_and!.
  - intros protocol Hsub. rewrite (Hok protocol Hsub). reflexivity.
  - intros protocol roots Hsub. rewrite bool_decide_eq_true_2; [reflexivity|].
    intros Hempty. apply Hsub. by apply difference_empty_iff_subset.
  - rewrite (Hok ∅) by apply empty_subseteq. reflexivity.
  - reflexivity.
  - rewrite (Hok default_protocols); [reflexivity|].
    apply difference_empty_iff_subset. by vm_compute.
  - reflexivity.
  - reflexivity.
Qed.

Lemma session_protocol_check_witness :
  TLSSession_init refuse_certificate no_such_file zero_bytes
    (PySet {[ "TLSv1.2"%string ]}) (PyBool false) None
  = Return {| _protocols := {[ "TLSv1.2"%string ]}; _manual_validation := false;
              _extra_trust_roots := []; _peer_id := zero_bytes 8 |}
  /\ TLSSession_init refuse_certificate no_such_file zero_bytes
       (PySet {[ "SSLv2"%string ]}) (PyBool false) None
     = Raise (ValueError "protocol").
Proof.
  destruct (session_protocol_check refuse_certificate no_such_file zero_bytes false)
    as (Hin & Hout & _).
  split.
  - apply Hin. apply difference_empty_iff_subset. by vm_compute.
  - apply Hout. intros Hsub%difference_empty_iff_subset. by vm_compute in Hsub.
Defined.

(** C3, as stated, fails: the empty protocol set is not refused, the
    session is built with it. *)
Lemma empty_protocol_set_accepted :
  TLSSession_init refuse_certificate no_such_file zero_bytes
    (PySet ∅) (PyBool false) None
  = Return {| _protocols := ∅; _manual_validation := false;
              _extra_trust_roots := []; _peer_id := zero_bytes 8 |}.
Proof. vm_compute. reflexivity. Qed.

(** ** Cipher-suite filtering *)

Lemma prefix_spec (l s : string) :
  String.prefix l s = true <-> exists post, s = l +:+ post.
Proof.
  revert l. induction s as [|c' s IH]; intros [|c l]; cbn.
  - split; [by exists EmptyString|done].
  - split; [done|intros [post [=]]].
  - split; [by exists (String c' s)|done].
  - destruct (Ascii.ascii_dec c c') as [->|Hne].
    + rewrite IH. split; intros [post Hpost]; exists post.
      * simpl. by rewrite Hpost.
      * simpl in Hpost. by injection Hpost.
    + split; [done|]. intros [post Hpost]. simpl in Hpost. by injection Hpost.
Qed.

Lemma matches_here_spec (prev : option ascii) (s : string) (a : alternative) :
  matches_here prev s a = true
  <-> (exists post, s = text a +:+ post) /\ allowed_after a prev.
Proof.
  destruct a as [l|c l]; cbn.
  - rewrite prefix_spec. tauto.
  - rewrite andb_true_iff, prefix_spec, negb_true_iff, bool_decide_eq_false. tauto.
Qed.

Lemma search_from_spec (regex : list alternative) (prev : option ascii) (s : string) :
  search_from regex prev s = true
  <-> exists a pre post,
        In a regex /\ s = pre +:+ text a +:+ post
        /\ allowed_after a (last_char prev pre).
Proof.
  revert prev. induction s as [|c s IH]; intros prev; cbn [search_from];
    rewrite orb_true_iff, existsb_exists.
  - split.
    + intros [(a & Hin & Hm)|]; [|done].
      apply matches_here_spec in Hm as [[post Hpost] Hok].
      by exists a, EmptyString, post.
    + intros (a & pre & post & Hin & Hs & Hok). left. exists a. split; [done|].
      destruct pre; [|done]. apply matches_here_spec. split; [by exists post|done].
  - rewrite IH. split.
    + intros [(a & Hin & Hm)|(a & pre & post & Hin & Hs & Hok)].
      * apply matches_here_spec in Hm as [[post Hpost] Hok].
        by exists a, EmptyString, post.
      * exists a, (String c pre), post. cbn. by rewrite Hs.
    + intros (a & pre & post & Hin & Hs & Hok). destruct pre as [|c' pre].
      * left. exists a. split; [done|]. apply matches_here_spec.
        split; [by exists post|done].
      * right. cbn in Hs. injection Hs as -> Hs. by exists a, pre, post.
Qed.

(** The search finds a match exactly in the blacklisted names. *)
Lemma search_blacklisted (name : string) :
  search _cipher_blacklist_regex name = true <-> blacklisted name.
Proof.
  unfold search, blacklisted, occurs. rewrite search_from_spec. split.
  - intros (a & pre & post & Hin & Hs & Hok). exists a. split; [done|].
    by exists pre, post.
  - intros (a & Hin & pre & post & Hs & Hok). by exists a, pre, post.
Qed.

Lemma collect_good_ciphers_filter (int_to_bytes : Z -> nat -> bytes)
  (CIPHER_SUITE_MAP : bytes -> option string) (py3 : bool)
  (supported acc : list Z) :
  (py3 = true ->
   Forall (fun suite => is_Some (CIPHER_SUITE_MAP (int_to_bytes suite 2%nat))) supported) ->
  collect_good_ciphers int_to_bytes CIPHER_SUITE_MAP py3 supported acc
  = Return (acc ++ List.filter
              (fun suite =>
                 negb (search _cipher_blacklist_regex
                         (name_text (cipher_suite_name int_to_bytes CIPHER_SUITE_MAP suite))))
              supported).
Proof.
  revert acc. induction supported as [|suite supported IH]; intros acc Hknown; cbn.
  - by rewrite app_nil_r.
  - assert (Hrest : py3 = true ->
              Forall (fun suite => is_Some (CIPHER_SUITE_MAP (int_to_bytes suite 2%nat)))
                supported).
    { intros Hpy. specialize (Hknown Hpy). by inversion Hknown. }
    assert (Hgood :
      good_cipher py3 (cipher_suite_name int_to_bytes CIPHER_SUITE_MAP suite)
      = Return (negb (search _cipher_blacklist_regex
                        (name_text (cipher_suite_name int_to_bytes CIPHER_SUITE_MAP suite))))).
    { unfold cipher_suite_name.
      destruct (CIPHER_SUITE_MAP (int_to_bytes suite 2%nat)) as [name|] eqn:E; [done|].
      destruct py3; [|done].
      specialize (Hknown eq_refl). inversion Hknown as [|? ? [name Hname]]. congruence. }
    rewrite Hgood.
    destruct (negb _); rewrite (IH _ Hrest); [|done].
    by rewrite <- app_assoc.
Qed.

(** When every suite the engine reports has a row in the table (or the
    interpreter is Python 2, which also runs the pattern over a raw
    key), the list handed over as enabled is the reported list, in order,
    without the suites whose name the pattern matches; a named suite is
    in it exactly when it is reported and not blacklisted.  A name with
    ["DES"] at a place that ["3"] does not precede is blacklisted, so a
    single-DES suite is left out, while the ["DES"] of ["3DES"] alone
    does not exclude a suite. *)
Theorem good_ciphers_are_the_unlisted (int_to_bytes : Z -> nat -> bytes)
  (CIPHER_SUITE_MAP : bytes -> option string) (py3 : bool) (supported : list Z) :
  (py3 = true ->
   Forall (fun suite => is_Some (CIPHER_SUITE_MAP (int_to_bytes suite 2%nat))) supported) ->
  exists enabled,
    good_ciphers int_to_bytes CIPHER_SUITE_MAP py3 supported = Return enabled
    /\ enabled
       = List.filter
           (fun suite =>
              negb (search _cipher_blacklist_regex
                      (name_text (cipher_suite_name int_to_bytes CIPHER_SUITE_MAP suite))))
           supported
    /\ (forall suite name,
          CIPHER_SUITE_MAP (int_to_bytes suite 2%nat) = Some name ->
          In suite enabled <-> In suite supported /\ ~ blacklisted name)
    /\ (forall pre post,
          last_char None pre <> Some "3"%char ->
          blacklisted (pre +:+ "DES" +:+ post))
    /\ ~ blacklisted "TLS_RSA_WITH_3DES_EDE_CBC_SHA"
    /\ ~ blacklisted "TLS_ECDHE_RSA_WITH_3DES_EDE_CBC_SHA"
    /\ blacklisted "TLS_RSA_WITH_DES_CBC_SHA".
Proof.
  intros Hknown. eexists. split_and!.
  - unfold good_ciphers. by rewrite collect_good_ciphers_filter.
  - reflexivity.
  - intros suite name Hname. cbn [app]. rewrite filter_In.
    unfold cipher_suite_name. rewrite Hname. cbn [name_text].
    rewrite negb_true_iff, <- not_true_iff_false, search_blacklisted. tauto.
  - intros pre post Hpre. exists (lit_not_after "3" "DES"). split.
    + unfold _cipher_blacklist_regex. cbn. tauto.
    + by exists pre, post.
  - rewrite <- search_blacklisted. by vm_compute.
  - rewrite <- search_blacklisted. by vm_compute.
  - rewrite <- search_blacklisted. by vm_compute.
Qed.

Lemma good_ciphers_are_the_unlisted_witness :
  exists enabled,
    good_ciphers int_to_bytes_be some_CIPHER_SUITE_MAP true [5; 9; 10; 27; 47; 49199]
    = Return enabled
    /\ enabled = [10; 47; 49199].
Proof.
  destruct (good_ciphers_are_the_unlisted int_to_bytes_be some_CIPHER_SUITE_MAP true
              [5; 9; 10; 27; 47; 49199]) as (enabled & Hrun & Hfilter & _).
  - intros _. repeat constructor; by eexists.
  - exists enabled. split; [exact Hrun|]. rewrite Hfilter. vm_compute. reflexivity.
Defined.

(** The pattern of the code finds a match exactly in the names that the
    design document lists. *)
Lemma search_finds_the_listed (name : string) :
  search _cipher_blacklist_regex name = true <-> listed name.
Proof. apply search_blacklisted. Qed.

(** C8.  The pattern of the code matches exactly the names that the claim
    lists, and under Python 2 a reported list is filtered as the claim
    says: of an RC4 suite, a triple-DES suite, a suite without a row in
    the table and an AES suite, all but the first are enabled.  Under
    Python 3 the same list enables nothing: the search over the raw key
    of the suite without a name raises a [TypeError]. *)
Theorem unnamed_suite_breaks_cipher_filter :
  (forall name, search _cipher_blacklist_regex name = true <-> listed name)
  /\ cipher_suite_name int_to_bytes_be some_CIPHER_SUITE_MAP 65408 = unnamed [xff; x80]
  /\ good_ciphers int_to_bytes_be some_CIPHER_SUITE_MAP false [5; 10; 65408; 47]
     = Return [10; 65408; 47]
  /\ good_ciphers int_to_bytes_be some_CIPHER_SUITE_MAP true [5; 10; 65408; 47]
     = Raise (TypeError "cannot use a string pattern on a bytes-like object").
Proof.
  split; [exact search_finds_the_listed|]. vm_compute. by split_and!.
Qed.

(** * Further properties of the buffered channel *)

Lemma slice_index_le (i : Z) (n : nat) : (slice_index i n <= n)%nat.
Proof.
  unfold slice_index. destruct (i <? 0) eqn:E; [apply Z.ltb_lt in E|apply Z.ltb_ge in E]; lia.
Qed.

Lemma slice_to_nonneg {A : Type} (l : list A) (i : Z) :
  0 <= i -> slice_to l i = take (Z.to_nat i) l.
Proof.
  intros Hi. unfold slice_to, slice_index.
  destruct (i <? 0) eqn:E; [apply Z.ltb_lt in E; lia|].
  destruct (Z.le_gt_cases i (Z.of_nat (length l))) as [Hle|Hgt].
  - f_equal. lia.
  - rewrite !take_ge by lia. reflexivity.
Qed.

Lemma slice_from_nonneg {A : Type} (l : list A) (i : Z) :
  0 <= i -> slice_from l i = drop (Z.to_nat i) l.
Proof.
  intros Hi. unfold slice_from, slice_index.
  destruct (i <? 0) eqn:E; [apply Z.ltb_lt in E; lia|].
  destruct (Z.le_gt_cases i (Z.of_nat (length l))) as [Hle|Hgt].
  - f_equal. lia.
  - rewrite !drop_ge by lia. reflexivity.
Qed.

(** The bytes that one [read(max_length)] draws from the engine: none when
    the buffer suffices, else what the next [SSLRead] leaves in a buffer
    of the missing length. *)
Lemma read_open_returns `{SC : SecurityConst} (m m' : machine) (n ctx : Z) (output : bytes) :
  _session_context (self m) = Some ctx ->
  0 <= n ->
  read n m = (Return output, m') ->
  let buffered := _decrypted_bytes (self m) in
  let drawn :=
    if len buffered >=? n then []
    else match SSLRead_replies (env m) with
         | (_, data) :: _ => take (Z.to_nat (n - len buffered)) data
         | [] => []
         end in
  output = take (Z.to_nat n) (buffered ++ drawn)
  /\ _decrypted_bytes (self m') = drop (Z.to_nat n) (buffered ++ drawn)
  /\ _session_context (self m') = Some ctx.
Proof.
  intros Hctx Hn. unfold read. unfold bind at 1, get at 1. rewrite Hctx.
  destruct (len (_decrypted_bytes (self m)) >=? n) eqn:Hge.
  - run. intros [= <- <-]. cbn. rewrite app_nil_r.
    rewrite slice_to_nonneg, slice_from_nonneg by done. done.
  - assert (Htail : forall m0 : machine,
              self m0 = self m -> env m0 = env m ->
              forall out m1,
                (m2 <- get;;
                 r <- call_SSLRead ctx (n - len (_decrypted_bytes (self m2)));;
                 (if bool_decide (r.1 <> 0)
                     && negb (bool_decide (r.1 = errSSLWouldBlock \/ r.1 = errSSLClosedGraceful))
                  then handle_sec_error r.1 TLSError_cls else ret ());;;
                 m3 <- get;;
                 modify (with_self (set_decrypted_bytes
                           (slice_from (_decrypted_bytes (self m3) ++ r.2) n)));;;
                 ret (slice_to (_decrypted_bytes (self m3) ++ r.2) n)) m0 = (Return out, m1) ->
                out = take (Z.to_nat n)
                        (_decrypted_bytes (self m)
                         ++ match SSLRead_replies (env m) with
                            | (_, data) :: _ =>
                                take (Z.to_nat (n - len (_decrypted_bytes (self m)))) data
                            | [] => []
                            end)
                /\ _decrypted_bytes (self m1)
                   = drop (Z.to_nat n)
                       (_decrypted_bytes (self m)
                        ++ match SSLRead_replies (env m) with
                           | (_, data) :: _ =>
                               take (Z.to_nat (n - len (_decrypted_bytes (self m)))) data
                           | [] => []
                           end)
                /\ _session_context (self m1) = _session_context (self m)).
    { intros m0 Hself Henv out m1. unfold call_SSLRead. run. rewrite Hself, Henv.
      destruct (SSLRead_replies (env m)) as [|[result data] rest]; cbn; [done|].
      destruct (bool_decide (result <> 0) && _); cbn.
      + destruct (bool_decide (result = 0)); cbn; [|done].
        intros [= <- <-]. cbn. rewrite Hself.
        rewrite slice_to_nonneg, slice_from_nonneg by done. done.
      + intros [= <- <-]. cbn. rewrite Hself.
        rewrite slice_to_nonneg, slice_from_nonneg by done. done. }
    unfold bind at 1.
    destruct (0 <? len (_decrypted_bytes (self m))) eqn:Hpos.
    + unfold bind at 1. rewrite select_read_buffered
        by (intros E; rewrite E in Hpos; discriminate).
      cbn [negb]. unfold ret at 1. intros Hrun.
      destruct (Htail m eq_refl eq_refl _ _ Hrun) as (? & ? & ?). by rewrite <- Hctx.
    + unfold ret at 1. intros Hrun.
      destruct (Htail m eq_refl eq_refl _ _ Hrun) as (? & ? & ?). by rewrite <- Hctx.
Qed.

(** X1.  A [read(n)], [n >= 0], that returns on an open channel hands out
    at most [n] bytes, and together with what it leaves buffered they are
    the bytes buffered before followed by the bytes drawn from the engine,
    in that order: nothing is lost, repeated or reordered, and the
    session stays open. *)
Theorem read_keeps_the_stream `{SC : SecurityConst} (m m' : machine) (n ctx : Z)
  (output : bytes) :
  _session_context (self m) = Some ctx ->
  0 <= n ->
  read n m = (Return output, m') ->
  exists drawn,
    output ++ _decrypted_bytes (self m') = _decrypted_bytes (self m) ++ drawn
    /\ len output = Z.min n (len (_decrypted_bytes (self m) ++ drawn))
    /\ (n <= len (_decrypted_bytes (self m)) -> drawn = [])
    /\ (forall result data rest,
          len (_decrypted_bytes (self m)) < n ->
          SSLRead_replies (env m) = (result, data) :: rest ->
          drawn = take (Z.to_nat (n - len (_decrypted_bytes (self m)))) data)
    /\ _session_context (self m') = Some ctx.
Proof.
  intros Hctx Hn Hrun.
  destruct (read_open_returns m m' n ctx output Hctx Hn Hrun) as (Hout & Hbuf & Hopen).
  eexists. split_and!.
  - rewrite Hout, Hbuf. apply take_drop.
  - rewrite Hout. unfold len. rewrite length_take. lia.
  - intros Hle. rewrite (proj2 (Z.geb_le _ _)) by lia. reflexivity.
  - intros result data rest Hlt Hreplies.
    destruct (len (_decrypted_bytes (self m)) >=? n) eqn:E;
      [apply Z.geb_le in E; lia|].
    rewrite Hreplies. reflexivity.
  - exact Hopen.
Qed.

Lemma read_keeps_the_stream_witness :
  exists drawn, b "ab" ++ [] = b "a" ++ drawn /\ drawn = b "b".
Proof.
  destruct (read_keeps_the_stream
              (running (established (b "a")) (decrypting [(0, b "bcde")]))
              (snd (read 2 (running (established (b "a")) (decrypting [(0, b "bcde")]))))
              2 1 (b "ab") eq_refl ltac:(lia) eq_refl)
    as (drawn & Hstream & _ & _ & Hdrawn & _).
  exists drawn. split; [exact Hstream|].
  exact (Hdrawn 0 (b "bcde") [] ltac:(vm_compute; reflexivity) eq_refl).
Defined.

(** X2.  When [read] has to go to the engine and [SSLRead] answers with a
    status other than success, would-block and graceful close, the call
    raises a [TLSError] carrying that status; the bytes that were
    buffered stay buffered.  With one of the three statuses it returns. *)
Theorem read_fatal_status `{SC : SecurityConst} (m : machine) (n ctx result : Z)
  (data : bytes) (rest : list (Z * bytes)) :
  _session_context (self m) = Some ctx ->
  len (_decrypted_bytes (self m)) < n ->
  SSLRead_replies (env m) = (result, data) :: rest ->
  (result <> 0 /\ result <> errSSLWouldBlock /\ result <> errSSLClosedGraceful ->
   fst (read n m) = Raise (SecError TLSError_cls result)
   /\ self (snd (read n m)) = self m
   /\ SSLRead_replies (env (snd (read n m))) = rest)
  /\ (result = 0 \/ result = errSSLWouldBlock \/ result = errSSLClosedGraceful ->
      exists output, fst (read n m) = Return output).
Proof.
  intros Hctx Hlt Hreplies.
  assert (Hge : (len (_decrypted_bytes (self m)) >=? n) = false).
  { destruct (len (_decrypted_bytes (self m)) >=? n) eqn:E; [|done].
    apply Z.geb_le in E. lia. }
  assert (Hrun : read n m
    = (r <- call_SSLRead ctx (n - len (_decrypted_bytes (self m)));;
       (if bool_decide (r.1 <> 0)
           && negb (bool_decide (r.1 = errSSLWouldBlock \/ r.1 = errSSLClosedGraceful))
        then handle_sec_error r.1 TLSError_cls else ret ());;;
       m3 <- get;;
       modify (with_self (set_decrypted_bytes
                            (slice_from (_decrypted_bytes (self m3) ++ r.2) n)));;;
       ret (slice_to (_decrypted_bytes (self m3) ++ r.2) n)) m).
  { unfold read. unfold bind at 1, get at 1. rewrite Hctx, Hge. unfold bind at 1.
    destruct (0 <? len (_decrypted_bytes (self m))) eqn:Hpos; [|reflexivity].
    unfold bind at 1. rewrite select_read_buffered
      by (intros E; rewrite E in Hpos; discriminate).
    reflexivity. }
  rewrite Hrun. unfold call_SSLRead. run. rewrite Hreplies. cbn. split.
  - intros (H0 & Hwb & Hcg).
    rewrite (bool_decide_eq_true_2 (result <> 0)) by done.
    rewrite (bool_decide_eq_false_2 (result = errSSLWouldBlock \/ _)) by tauto.
    cbn. rewrite bool_decide_eq_false_2 by done. cbn.
    destruct m as [[] ? ? []]; done.
  - intros Hok.
    destruct (bool_decide (result <> 0)) eqn:E0;
      destruct (bool_decide (result = errSSLWouldBlock \/ result = errSSLClosedGraceful))
        eqn:E1; cbn; try (by eexists).
    reflect_tests. tauto.
Qed.

Lemma read_fatal_status_witness :
  fst (read 5 (running (established (b "abc")) (decrypting [(errSSLProtocol, [])])))
  = Raise (SecError TLSError_cls errSSLProtocol).
Proof.
  destruct (read_fatal_status
              (running (established (b "abc")) (decrypting [(errSSLProtocol, [])]))
              5 1 errSSLProtocol [] [] eq_refl ltac:(vm_compute; reflexivity) eq_refl)
    as [Hfatal _].
  apply Hfatal. repeat split; discriminate.
Defined.

(** X3.  [close()] runs to its end however [shutdown()] ends: it ends as
    [shutdown()] does, and afterwards the object has no socket, the socket
    it had has been closed, and its id is gone from [_socket_refs], the
    other entries being kept. *)
Theorem close_always_tears_down (m : machine) :
  fst (close m) = fst (shutdown m)
  /\ _socket (self (snd (close m))) = None
  /\ (forall s, _socket (self m) = Some s -> socket_close s ∈ calls (env (snd (close m))))
  /\ _socket_refs (snd (close m))
     = match _connection_id (self m) with
       | Some id => delete id (_socket_refs m)
       | None => _socket_refs m
       end
  /\ _connection_refs (snd (close m)) = _connection_refs m.
Proof.
  unfold close, try_finally, shutdown. run.
  destruct m as [[sock ctx buf host done sh ch lc id] crefs srefs w]. cbn.
  assert (Hdel : forall k : Z, srefs !! k = None -> delete k srefs = srefs)
    by (intros k Hk; by apply delete_id).
  destruct ctx as [ctx|]; cbn; paths; cbn; split_and!; try done.
  all: try (intros s [= <-]; apply list_elem_of_In, in_or_app; right; by left).
  all: try (symmetry; apply Hdel; reflect_tests;
            by apply eq_None_not_Some).
Qed.

(** [find] reports the least offset at which the marker stands. *)
Lemma find_from_least (marker : bytes) (j : nat) :
  forall (chunk : bytes) (i : Z),
    occurs_at marker chunk j ->
    (forall j', (j' < j)%nat -> ~ occurs_at marker chunk j') ->
    find_from marker chunk i = i + Z.of_nat j.
Proof.
  induction j as [|j IH]; intros chunk i Hocc Hfirst.
  - unfold occurs_at in Hocc. rewrite drop_0 in Hocc.
    destruct chunk; cbn [find_from]; rewrite bool_decide_eq_true_2 by done; lia.
  - assert (H0 : ~ occurs_at marker chunk 0) by (apply Hfirst; lia).
    unfold occurs_at in H0. rewrite drop_0 in H0.
    destruct chunk as [|x chunk].
    + exfalso. apply H0. unfold occurs_at in Hocc. by rewrite drop_nil in Hocc.
    + cbn [find_from]. rewrite bool_decide_eq_false_2 by done.
      rewrite (IH chunk (i + 1)); [lia|exact Hocc|].
      intros j' Hj'. apply (Hfirst (S j')). lia.
Qed.

(** X4.  [read_until(marker)] with the marker in the buffered bytes: the
    call returns the bytes up to the end of the first place where the
    marker stands, leaves the bytes after it in the buffer and asks the
    outside world nothing. *)
Theorem read_until_first_in_buffer `{SC : SecurityConst} (m : machine)
  (pre marker post : bytes) :
  _decrypted_bytes (self m) = pre ++ marker ++ post ->
  pre ++ marker ++ post <> [] ->
  (forall j, (j < length pre)%nat -> ~ occurs_at marker (pre ++ marker ++ post) j) ->
  read_until (literal marker) m
  = (Return (pre ++ marker), with_self (set_decrypted_bytes post) m).
Proof.
  intros Hbuf Hne Hfirst.
  assert (Hfind : find (pre ++ marker ++ post) marker = len pre).
  { unfold find. rewrite (find_from_least marker (length pre)); [unfold len; lia| |done].
    unfold occurs_at. rewrite drop_app_length. by rewrite take_app_length. }
  pose proof (read_until_in_buffer m marker) as Hrun.
  rewrite Hbuf, Hfind in Hrun. cbn zeta in Hrun.
  rewrite Hrun; [|done|unfold len; lia].
  replace (Z.to_nat (len pre + len marker)) with (length (pre ++ marker))
    by (rewrite length_app; unfold len; lia).
  rewrite (app_assoc pre marker post).
  by rewrite take_app_length, drop_app_length.
Qed.

Lemma read_until_first_in_buffer_witness :
  read_until (literal (b "--"))
    (running (established (b "a-b--c--d")) quiet)
  = (Return (b "a-b--"),
     with_self (set_decrypted_bytes (b "c--d"))
       (running (established (b "a-b--c--d")) quiet)).
Proof.
  apply (read_until_first_in_buffer
           (running (established (b "a-b--c--d")) quiet) (b "a-b") (b "--") (b "c--d")).
  - reflexivity.
  - discriminate.
  - intros j Hj. unfold occurs_at.
    destruct j as [|[|[|j]]]; [discriminate..|cbn in Hj; lia].
Defined.

(** The pattern case of [read_until] on buffered bytes. *)
Lemma read_until_pattern_in_buffer `{SC : SecurityConst} (m : machine)
  (search : bytes -> option (Z * Z)) (match_start match_end : Z) :
  _decrypted_bytes (self m) <> [] ->
  search (_decrypted_bytes (self m)) = Some (match_start, match_end) ->
  0 <= match_end <= len (_decrypted_bytes (self m)) ->
  read_until (pattern search) m
  = (Return (take (Z.to_nat match_end) (_decrypted_bytes (self m))),
     with_self (set_decrypted_bytes
                  (drop (Z.to_nat match_end) (_decrypted_bytes (self m)))) m).
Proof.
  intros Hne Hsearch Hend. unfold read_until. unfold bind at 1, get at 1.
  cbn [Nat.add read_until_loop]. unfold bind at 1, get at 1. unfold bind at 1.
  destruct (_decrypted_bytes (self m)) as [|x buf] eqn:Hbuf; [done|].
  assert (Hlen : (0 <? len (x :: buf)) = true)
    by (apply Z.ltb_lt; unfold len; cbn [length]; lia).
  rewrite Hlen. run. rewrite Hsearch. run.
  unfold slice_to, slice_from.
  replace (len (x :: buf) - len (x :: buf) + match_end) with match_end by lia.
  rewrite slice_index_in_range by (unfold len in *; lia).
  rewrite app_nil_r.
  destruct m as [[sock sctx dbuf host done sh ch lc id] crefs srefs w]. reflexivity.
Qed.

Lemma search_literals_skip (line tail : bytes) (i : Z) :
  Forall (fun c => c <> CR /\ c <> LF) line ->
  search_literals [[CR; LF]; [CR]; [LF]] (line ++ tail) i
  = search_literals [[CR; LF]; [CR]; [LF]] tail (i + len line).
Proof.
  revert i. induction line as [|c line IH]; intros i Hline.
  - unfold len. cbn. f_equal. lia.
  - inversion Hline as [|? ? [Hcr Hlf] Hrest]; subst.
    cbn [app search_literals List.find length take].
    rewrite (bool_decide_eq_false_2 (_ = [CR; LF]))
      by (destruct (line ++ tail); intros [=]; done).
    rewrite (bool_decide_eq_false_2 ([c] = [CR])) by (intros [=]; done).
    rewrite (bool_decide_eq_false_2 ([c] = [LF])) by (intros [=]; done).
    rewrite IH by done. f_equal. unfold len. cbn [length]. lia.
Qed.

(** X5.  [read_line()] with a whole line in the buffered bytes returns
    it with its ending, ["\r\n"], ["\n"] or a ["\r"] that no ["\n"]
    follows, and leaves what comes after in the buffer.  A ["\r"] that is
    the last buffered byte ends the line at once: the call does not wait
    to see whether a ["\n"] comes next. *)
Theorem read_line_buffered `{SC : SecurityConst} (m : machine)
  (line ending rest : bytes) :
  _decrypted_bytes (self m) = line ++ ending ++ rest ->
  Forall (fun c => c <> CR /\ c <> LF) line ->
  line_ending ending rest ->
  read_line m
  = (Return (line ++ ending), with_self (set_decrypted_bytes rest) m).
Proof.
  intros Hbuf Hline Hending.
  assert (Hsearch :
    search_literals [[CR; LF]; [CR]; [LF]] (line ++ ending ++ rest) 0
    = Some (len line, len line + len ending)).
  { rewrite search_literals_skip by done.
    destruct Hending as [->|[->|[-> Hrest]]]; cbn; try reflexivity.
    destruct rest as [|c rest]; cbn; [reflexivity|].
    rewrite bool_decide_eq_false_2; [reflexivity|].
    intros [= ->]. by apply Hrest. }
  assert (Hlen : 0 < len ending)
    by (destruct Hending as [->|[->|[-> _]]]; unfold len; cbn; lia).
  unfold read_line, _line_regex.
  rewrite (read_until_pattern_in_buffer m _ (len line) (len line + len ending)).
  - rewrite Hbuf.
    replace (Z.to_nat (len line + len ending)) with (length (line ++ ending))
      by (rewrite length_app; unfold len; lia).
    rewrite (app_assoc line ending rest).
    by rewrite take_app_length, drop_app_length.
  - rewrite Hbuf. intros Hnil. apply (f_equal length) in Hnil.
    rewrite !length_app in Hnil. unfold len in Hlen. cbn in Hnil. lia.
  - by rewrite Hbuf.
  - rewrite Hbuf. unfold len in *. rewrite !length_app. lia.
Qed.

Lemma read_line_buffered_witness :
  read_line (running (established (b "GET /" ++ [CR; LF] ++ b "Host")) quiet)
  = (Return (b "GET /" ++ [CR; LF]),
     with_self (set_decrypted_bytes (b "Host"))
       (running (established (b "GET /" ++ [CR; LF] ++ b "Host")) quiet)).
Proof.
  apply (read_line_buffered
           (running (established (b "GET /" ++ [CR; LF] ++ b "Host")) quiet)
           (b "GET /") [CR; LF] (b "Host")).
  - reflexivity.
  - repeat constructor; discriminate.
  - by left.
Defined.

Lemma delivered_app (asked asked' : list call) (used used' : list (Z * bytes)) :
  length asked = length used ->
  delivered (asked ++ asked') (used ++ used') = delivered asked used ++ delivered asked' used'.
Proof.
  intros Hlen. unfold delivered. by rewrite zip_with_app, concat_app.
Qed.

(** One [read(max_length)] on an open session, with what it asked of the
    engine: nothing when the buffer suffices, else one [SSLRead] for the
    missing count, answered by the next reply. *)
Lemma read_open_draws `{SC : SecurityConst} (m m' : machine) (n ctx : Z) (output : bytes) :
  _session_context (self m) = Some ctx ->
  0 <= n ->
  read n m = (Return output, m') ->
  exists asked used,
    calls (env m') = calls (env m) ++ asked
    /\ SSLRead_replies (env m) = used ++ SSLRead_replies (env m')
    /\ served ctx asked used
    /\ output = take (Z.to_nat n) (_decrypted_bytes (self m) ++ delivered asked used)
    /\ _decrypted_bytes (self m')
       = drop (Z.to_nat n) (_decrypted_bytes (self m) ++ delivered asked used)
    /\ _session_context (self m') = Some ctx.
Proof.
  intros Hctx Hn. unfold read. unfold bind at 1, get at 1. rewrite Hctx.
  destruct (len (_decrypted_bytes (self m)) >=? n) eqn:Hge.
  - run. intros [= <- <-]. exists [], []. cbn. rewrite !app_nil_r.
    rewrite slice_to_nonneg, slice_from_nonneg by done.
    split_and!; try done. constructor.
  - assert (Htail : forall out m1,
                (m2 <- get;;
                 r <- call_SSLRead ctx (n - len (_decrypted_bytes (self m2)));;
                 (if bool_decide (r.1 <> 0)
                     && negb (bool_decide (r.1 = errSSLWouldBlock \/ r.1 = errSSLClosedGraceful))
                  then handle_sec_error r.1 TLSError_cls else ret ());;;
                 m3 <- get;;
                 modify (with_self (set_decrypted_bytes
                           (slice_from (_decrypted_bytes (self m3) ++ r.2) n)));;;
                 ret (slice_to (_decrypted_bytes (self m3) ++ r.2) n)) m = (Return out, m1) ->
                exists asked used,
                  calls (env m1) = calls (env m) ++ asked
                  /\ SSLRead_replies (env m) = used ++ SSLRead_replies (env m1)
                  /\ served ctx asked used
                  /\ out = take (Z.to_nat n) (_decrypted_bytes (self m) ++ delivered asked used)
                  /\ _decrypted_bytes (self m1)
                     = drop (Z.to_nat n) (_decrypted_bytes (self m) ++ delivered asked used)
                  /\ _session_context (self m1) = Some ctx).
    { intros out m1. unfold call_SSLRead. run.
      destruct (SSLRead_replies (env m)) as [|[result data] rest] eqn:Hreplies; cbn; [done|].
      assert (Hdone : forall out' m1',
                (Return (slice_to (_decrypted_bytes (self m)
                                   ++ take (Z.to_nat (n - len (_decrypted_bytes (self m)))) data) n),
                 with_self (set_decrypted_bytes
                              (slice_from (_decrypted_bytes (self m)
                                 ++ take (Z.to_nat (n - len (_decrypted_bytes (self m)))) data) n))
                   (with_env (set_SSLRead_replies rest)
                      (with_env (log (SSLRead ctx (n - len (_decrypted_bytes (self m))))) m)))
                = (Return out', m1') ->
                exists asked used,
                  calls (env m1') = calls (env m) ++ asked
                  /\ (result, data) :: rest = used ++ SSLRead_replies (env m1')
                  /\ served ctx asked used
                  /\ out' = take (Z.to_nat n) (_decrypted_bytes (self m) ++ delivered asked used)
                  /\ _decrypted_bytes (self m1')
                     = drop (Z.to_nat n) (_decrypted_bytes (self m) ++ delivered asked used)
                  /\ _session_context (self m1') = Some ctx).
      { intros out' m1' [= <- <-].
        exists [SSLRead ctx (n - len (_decrypted_bytes (self m)))], [(result, data)].
        cbn. rewrite app_nil_r.
        rewrite slice_to_nonneg, slice_from_nonneg by done.
        split_and!; try done. constructor; [by eexists|constructor]. }
      destruct (bool_decide (result <> 0) && _); cbn.
      + destruct (bool_decide (result = 0)); cbn; [|done]. apply Hdone.
      + apply Hdone. }
    unfold bind at 1.
    destruct (0 <? len (_decrypted_bytes (self m))) eqn:Hpos.
    + unfold bind at 1. rewrite select_read_buffered
        by (intros E; rewrite E in Hpos; discriminate).
      cbn [negb]. unfold ret at 1. apply Htail.
    + unfold ret at 1. apply Htail.
Qed.

(** The loop of [read_exactly] on an open session: what it has collected
    never exceeds the count, and the stream stays in order. *)
Lemma read_exactly_loop_draws `{SC : SecurityConst} (fuel : nat) (num_bytes ctx : Z) :
  forall (m m' : machine) (output result : bytes),
    _session_context (self m) = Some ctx ->
    len output <= num_bytes ->
    read_exactly_loop fuel num_bytes output (num_bytes - len output) m
    = (Return result, m') ->
    len result = num_bytes
    /\ exists asked used,
         calls (env m') = calls (env m) ++ asked
         /\ SSLRead_replies (env m) = used ++ SSLRead_replies (env m')
         /\ served ctx asked used
         /\ result ++ _decrypted_bytes (self m')
            = output ++ _decrypted_bytes (self m) ++ delivered asked used.
Proof.
  induction fuel as [|fuel IH]; intros m m' output result Hctx Hle; cbn [read_exactly_loop].
  - destruct (0 <? num_bytes - len output) eqn:E; [done|].
    apply Z.ltb_ge in E. intros [= <- <-]. split; [lia|].
    exists [], []. cbn. rewrite !app_nil_r. split_and!; try done. constructor.
  - destruct (0 <? num_bytes - len output) eqn:E.
    + apply Z.ltb_lt in E. unfold bind at 1.
      destruct (read (num_bytes - len output) m) as [[chunk| |] m1] eqn:Hread; [|done..].
      destruct (read_open_draws m m1 _ ctx chunk Hctx (Z.lt_le_incl _ _ E) Hread)
        as (asked1 & used1 & Hcalls1 & Hreplies1 & Hserved1 & Hchunk & Hbuf & Hopen).
      set (stream := _decrypted_bytes (self m) ++ delivered asked1 used1) in Hchunk, Hbuf.
      assert (Hlen : len (output ++ chunk) <= num_bytes).
      { rewrite Hchunk. unfold len in *. rewrite length_app, length_take. lia. }
      intros Hloop. destruct (IH m1 m' (output ++ chunk) result Hopen Hlen Hloop)
        as (Hres & asked2 & used2 & Hcalls2 & Hreplies2 & Hserved2 & Hstream).
      split; [done|]. exists (asked1 ++ asked2), (used1 ++ used2).
      split_and!.
      * by rewrite Hcalls2, Hcalls1, app_assoc.
      * by rewrite Hreplies1, Hreplies2, app_assoc.
      * by apply Forall2_app.
      * rewrite delivered_app by (by apply Forall2_length in Hserved1).
        rewrite Hstream, Hbuf, Hchunk.
        rewrite <- !app_assoc. f_equal. rewrite (app_assoc (take _ _)), take_drop.
        subst stream. rewrite <- !app_assoc. reflexivity.
    + apply Z.ltb_ge in E. intros [= <- <-]. split; [lia|].
      exists [], []. cbn. rewrite !app_nil_r. split_and!; try done. constructor.
Qed.

(** X6.  [read_exactly(n)], [n >= 0], that returns on an open session has
    collected exactly [n] bytes.  It has made [SSLRead] calls only, each
    answered by the next reply of the engine, and what it returns
    followed by what it leaves buffered is what was buffered before
    followed by what those calls delivered, of each reply the bytes that
    fit the count asked for, in order: the bytes beyond the buffer come
    from the engine, and what was read beyond [n] is still buffered. *)
Theorem read_exactly_open `{SC : SecurityConst} (m m' : machine) (n ctx : Z)
  (result : bytes) :
  _session_context (self m) = Some ctx ->
  0 <= n ->
  read_exactly n m = (Return result, m') ->
  len result = n
  /\ exists asked used,
       calls (env m') = calls (env m) ++ asked
       /\ SSLRead_replies (env m) = used ++ SSLRead_replies (env m')
       /\ served ctx asked used
       /\ result ++ _decrypted_bytes (self m')
          = _decrypted_bytes (self m) ++ delivered asked used.
Proof.
  intros Hctx Hn. unfold read_exactly. unfold bind at 1, get at 1.
  replace n with (n - len (@nil byte)) at 2 by (unfold len; cbn; lia).
  intros Hrun.
  exact (read_exactly_loop_draws _ n ctx m m' [] result Hctx
           ltac:(unfold len; cbn; lia) Hrun).
Qed.

Lemma read_exactly_open_witness :
  let m := running (established (b "ab")) (decrypting [(0, b "c"); (0, b "def")]) in
  fst (read_exactly 4 m) = Return (b "abcd")
  /\ exists asked used,
       calls (env (snd (read_exactly 4 m))) = calls (env m) ++ asked
       /\ SSLRead_replies (env m) = used ++ SSLRead_replies (env (snd (read_exactly 4 m)))
       /\ served 1 asked used
       /\ b "abcd" ++ _decrypted_bytes (self (snd (read_exactly 4 m)))
          = b "ab" ++ delivered asked used.
Proof.
  intros m. subst m.
  set (m := running (established (b "ab")) (decrypting [(0, b "c"); (0, b "def")])).
  assert (Hrun : read_exactly 4 m = (Return (b "abcd"), snd (read_exactly 4 m)))
    by (vm_compute; reflexivity).
  split; [by rewrite Hrun|].
  destruct (read_exactly_open m (snd (read_exactly 4 m)) 4 1 (b "abcd")
              eq_refl (Z.lt_le_incl 0 4 eq_refl) Hrun)
    as [_ Hdrawn].
  exact Hdrawn.
Defined.

Lemma read_closed `{SC : SecurityConst} (m : machine) (n : Z) :
  _session_context (self m) = None ->
  read n m
  = if bool_decide (_decrypted_bytes (self m) <> [])
    then (Return (_decrypted_bytes (self m)), with_self (set_decrypted_bytes []) m)
    else (Raise (closed_connection (self m)), m).
Proof.
  intros Hctx. unfold read, _raise_closed. run. rewrite Hctx.
  destruct (bool_decide (_decrypted_bytes (self m) <> [])); reflexivity.
Qed.

(** X7.  [read_exactly(n)], [n > 0], on a socket whose session is gone:
    with at least [n] bytes buffered it returns the whole buffer, which
    may be more than [n] bytes; with fewer it raises the closed-connection
    error after it has emptied the buffer, so the bytes that were buffered
    are lost to the caller. *)
Theorem read_exactly_closed `{SC : SecurityConst} (m : machine) (n : Z) :
  _session_context (self m) = None ->
  0 < n ->
  read_exactly n m
  = if bool_decide (n <= len (_decrypted_bytes (self m)))
    then (Return (_decrypted_bytes (self m)), with_self (set_decrypted_bytes []) m)
    else (Raise (closed_connection (self m)), with_self (set_decrypted_bytes []) m).
Proof.
  intros Hctx Hn. unfold read_exactly. unfold bind at 1, get at 1.
  cbn [Nat.add read_exactly_loop].
  rewrite (proj2 (Z.ltb_lt 0 n)) by done.
  unfold bind at 1. rewrite read_closed by done.
  destruct (_decrypted_bytes (self m)) as [|x buf] eqn:Hbuf.
  - rewrite bool_decide_eq_false_2 by (intros Hne; by apply Hne).
    rewrite bool_decide_eq_false_2 by (unfold len; cbn; lia).
    destruct m as [[] ? ? ?]. cbn in Hbuf. subst. reflexivity.
  - rewrite bool_decide_eq_true_2 by done. cbn [app].
    destruct (0 <? n - len (x :: buf)) eqn:E.
    + apply Z.ltb_lt in E. rewrite bool_decide_eq_false_2 by lia.
      unfold bind at 1. rewrite read_closed by done. reflexivity.
    + apply Z.ltb_ge in E. rewrite bool_decide_eq_true_2 by lia. reflexivity.
Qed.

Lemma read_exactly_closed_witness :
  fst (read_exactly 2 (running (set_session_context None (established (b "abc"))) quiet))
  = Return (b "abc")
  /\ fst (read_exactly 5 (running (set_session_context None (established (b "abc"))) quiet))
     = Raise (TLSError "The remote end closed the connection")
  /\ _decrypted_bytes
       (self (snd (read_exactly 5
                     (running (set_session_context None (established (b "abc"))) quiet))))
     = [].
Proof.
  rewrite !(read_exactly_closed
              (running (set_session_context None (established (b "abc"))) quiet))
    by (reflexivity || lia).
  repeat split.
Defined.

(** ** Writing *)

Lemma slice_to_from_app {A : Type} (l : list A) (i : Z) :
  slice_to l i ++ slice_from l i = l.
Proof. unfold slice_to, slice_from. apply take_drop. Qed.

Lemma write_loop_returns (fuel : nat) :
  forall (data : bytes) (w w' : writer),
    write_loop fuel data w = (Return tt, w') ->
    exists new,
      SSLWrite_calls w' = SSLWrite_calls w ++ new
      /\ concat (map accepted new) = data
      /\ Forall (fun c => snd (fst c) = 0) new
      /\ self (channel w') = self (channel w).
Proof.
  induction fuel as [|fuel IH]; intros data w w'; cbn [write_loop].
  - case_bool_decide as Hlen; [done|]. intros [= <-].
    exists []. rewrite app_nil_r. split_and!; try done.
    destruct data; [done|]. unfold len in Hlen. cbn in Hlen. lia.
  - case_bool_decide as Hlen.
    + unfold bind at 1, call_SSLWrite.
      destruct (SSLWrite_replies w) as [|[result processed] rest]; [done|].
      unfold bind at 1, handle_sec_error. cbn [fst snd].
      case_bool_decide as Hres; [|done]. unfold ret at 1.
      unfold bind at 1.
      set (w1 := {| channel := channel w; SSLWrite_replies := rest;
                    SSLWrite_calls := SSLWrite_calls w ++ [(data, result, processed)] |}).
      assert (Hsel : forall w2 o,
                (if 0 <? len (slice_from data processed)
                 then _ <- on_channel (select_write None);; ret ()
                 else ret ()) w1 = (o, w2) ->
                SSLWrite_calls w2 = SSLWrite_calls w1
                /\ self (channel w2) = self (channel w1)).
      { intros w2 o Heq. apply (f_equal snd) in Heq. cbn [snd] in Heq. subst w2.
        destruct (0 <? len (slice_from data processed)); [|done].
        unfold bind, on_channel, select_write. run.
        destruct (_socket (self (channel w))); cbn; [|done].
        destruct (wait_ready (select_replies (env (channel w)))); cbn; done. }
      match goal with
      | |- context [let (o, s') := ?c w1 in _] =>
          destruct (c w1) as [[[]| |] w2] eqn:Hw2; [|done..]
      end.
      destruct (Hsel _ _ eq_refl) as [Hcalls Hself].
      intros Hloop. destruct (IH _ _ _ Hloop) as (new & Hnew & Hcat & Hok & Hs).
      exists ((data, result, processed) :: new). split_and!.
      * rewrite Hnew, Hcalls. subst w1. cbn. by rewrite <- app_assoc.
      * cbn [map concat]. rewrite Hcat. apply slice_to_from_app.
      * constructor; done.
      * rewrite Hs, Hself. reflexivity.
    + intros [= <-]. exists []. rewrite app_nil_r. split_and!; try done.
      destruct data; [done|]. unfold len in Hlen. cbn in Hlen. lia.
Qed.

(** X8.  A [write(data)] that returns has made [SSLWrite] calls that all
    answered success, and the pieces the engine took, call after call, are
    [data], whole and in order; the socket object is left as it was. *)
Theorem write_hands_over_all (data : bytes) (w w' : writer) :
  write data w = (Return tt, w') ->
  exists new,
    SSLWrite_calls w' = SSLWrite_calls w ++ new
    /\ concat (map accepted new) = data
    /\ Forall (fun c => snd (fst c) = 0) new
    /\ self (channel w') = self (channel w).
Proof.
  unfold write. unfold bind at 1, get at 1.
  destruct (_session_context (self (channel w))).
  - apply write_loop_returns.
  - unfold on_channel, _raise_closed. run. done.
Qed.

Lemma write_hands_over_all_witness :
  exists new,
    [(b "hello", 0, 2); (b "llo", 0, 3)] = [] ++ new
    /\ concat (map accepted new) = b "hello".
Proof.
  destruct (write_hands_over_all (b "hello")
              (writing (running (established []) (set_select_replies [true] quiet))
                 [(0, 2); (0, 3)])
              (snd (write (b "hello")
                      (writing (running (established []) (set_select_replies [true] quiet))
                         [(0, 2); (0, 3)])))
              ltac:(vm_compute; reflexivity))
    as (new & Hcalls & Hcat & _).
  exists new. split; [exact Hcalls|exact Hcat].
Defined.

(** X9.  [write] on a socket whose session is gone raises the
    closed-connection error, naming the local or the remote end, before
    anything is offered to the engine.  On an open session a status other
    than success from [SSLWrite], would-block included, raises a
    [TLSError] with it at once: what that call did not take is not
    offered again. *)
Theorem write_errors (data : bytes) (w : writer) :
  (_session_context (self (channel w)) = None ->
   write data w = (Raise (closed_connection (self (channel w))), w))
  /\ (forall ctx result processed rest,
        _session_context (self (channel w)) = Some ctx ->
        data <> [] ->
        SSLWrite_replies w = (result, processed) :: rest ->
        result <> 0 ->
        fst (write data w) = Raise (SecError TLSError_cls result)
        /\ SSLWrite_calls (snd (write data w))
           = SSLWrite_calls w ++ [(data, result, processed)]
        /\ channel (snd (write data w)) = channel w).
Proof.
  split.
  - intros Hctx. unfold write, on_channel, _raise_closed. run. rewrite Hctx.
    destruct w. reflexivity.
  - intros ctx result processed rest Hctx Hdata Hreplies Hres.
    assert (Hrun : write data w
                   = (Raise (SecError TLSError_cls result),
                      {| channel := channel w; SSLWrite_replies := rest;
                         SSLWrite_calls :=
                           SSLWrite_calls w ++ [(data, result, processed)] |})).
    { unfold write. unfold bind at 1, get at 1. rewrite Hctx, Hreplies.
      cbn [length write_loop].
      rewrite bool_decide_eq_true_2
        by (destruct data; [done|]; unfold len; cbn; lia).
      unfold call_SSLWrite, handle_sec_error. run. rewrite Hreplies. cbn.
      by rewrite bool_decide_eq_false_2 by done. }
    rewrite Hrun. done.
Qed.

Lemma write_errors_witness :
  fst (write (b "hello")
         (writing (running (established []) quiet) [(errSSLWouldBlock, 2)]))
  = Raise (SecError TLSError_cls errSSLWouldBlock).
Proof.
  destruct (write_errors (b "hello")
              (writing (running (established []) quiet) [(errSSLWouldBlock, 2)]))
    as [_ Hopen].
  destruct (Hopen 1 errSSLWouldBlock 2 [] eq_refl ltac:(discriminate) eq_refl
              ltac:(discriminate)) as [Hraise _].
  exact Hraise.
Defined.

(** * Further properties of the I/O bridge *)

(** What the receive loop has collected when it is left: the data it
    started from and then at most what was still missing. *)
Lemma recv_loop_collected `{SC : SecurityConst} (fuel : nat) (socket_ : option Z) (n : Z) :
  forall (data data' : bytes) (error : option Z) (m m' : machine),
    recv_loop fuel socket_ n data m = (Return (collected data' error), m') ->
    exists more, data' = data ++ more /\ len more <= Z.max 0 (n - len data).
Proof.
  induction fuel as [|fuel IH]; intros data data' error m m'; cbn [recv_loop].
  - destruct (len data <? n); [destruct socket_; done|].
    intros [= <- <- <-]. exists []. rewrite app_nil_r. split; [done|]. change (len (@nil byte)) with 0. lia.
  - destruct (len data <? n) eqn:E.
    + destruct socket_ as [sock|]; [|done]. run.
      destruct (recv_replies (env m)) as [|[chunk|err] rest]; cbn; [done| |].
      * set (piece := take (Z.to_nat (n - len data)) chunk).
        assert (Hpiece : len piece <= Z.max 0 (n - len data))
          by (unfold piece, len; rewrite length_take; lia).
        destruct (bool_decide (piece = []) && _); cbn.
        -- destruct (bool_decide _); cbn; [done|].
           intros [= <- <- <-]. by exists piece.
        -- intros Hloop. destruct (IH _ _ _ _ _ Hloop) as (more & -> & Hmore).
           exists (piece ++ more). rewrite app_assoc. split; [done|].
           unfold len in *. rewrite !length_app in *. lia.
      * intros [= <- <- <-]. exists []. rewrite app_nil_r. split; [done|]. change (len (@nil byte)) with 0. lia.
    + intros [= <- <- <-]. exists []. rewrite app_nil_r. split; [done|]. change (len (@nil byte)) with 0. lia.
Qed.

(** X10.  While the handshake is in flight, what [_read_callback] hands to
    the engine is what it appends to the server hello capture, never more
    than was asked for; the status is success when the request is filled
    and would-block when it is not.  The client hello capture is not
    touched. *)
Theorem read_callback_captures_what_it_delivers `{SC : SecurityConst} `{EN : errno}
  (m m' : machine) (id n status : Z) (data : bytes) :
  id ∈ _connection_refs m ->
  _done_handshake (self m) = false ->
  _read_callback id n m = (Return (status, Some data), m') ->
  _server_hello (self m') = _server_hello (self m) ++ data
  /\ _client_hello (self m') = _client_hello (self m)
  /\ len data <= Z.max 0 n
  /\ (len data = n -> status = 0)
  /\ (len data <> n -> status = errSSLWouldBlock).
Proof.
  intros Hlive Hdone. unfold _read_callback. unfold bind at 1, get at 1.
  unfold resolve. rewrite bool_decide_eq_true_2 by done.
  destruct (_socket (self m)) as [sock|].
  all: unfold bind at 1;
    match goal with
    | |- context [recv_loop ?f ?so ?k ?d ?m0] =>
        pose proof (recv_loop_self f so k d m0) as Hs;
        pose proof (fun d' e m2 => recv_loop_collected f so k d d' e m0 m2) as Hc;
        destruct (recv_loop f so k d m0) as [[[st|data' error]| |] m1]
    end; cbn in Hs |- *; try done.
  all: destruct (fatal_error error); [done|].
  all: destruct (Hc _ _ _ eq_refl) as (more & -> & Hmore); cbn [app] in *.
  all: run; rewrite Hs, Hdone; cbn.
  all: case_bool_decide as Hlen; intros [= <- <- <-]; cbn; rewrite Hs;
    unfold len in *; cbn in Hmore; split_and!; try done; lia.
Qed.

Lemma read_callback_captures_what_it_delivers_witness :
  b "ServerHello" = [] ++ b "ServerHello"
  /\ b "client hello" = b "client hello"
  /\ len (b "ServerHello") <= Z.max 0 16
  /\ (len (b "ServerHello") = 16 -> errSSLWouldBlock = 0)
  /\ (len (b "ServerHello") <> 16 -> errSSLWouldBlock = errSSLWouldBlock).
Proof.
  exact (read_callback_captures_what_it_delivers
           (running (handshaking [])
              (receiving (Some 10) [recv_data (b "ServerHello"); recv_error (Some EAGAIN)]))
           (snd (_read_callback 7 16
                   (running (handshaking [])
                      (receiving (Some 10)
                         [recv_data (b "ServerHello"); recv_error (Some EAGAIN)]))))
           7 16 errSSLWouldBlock (b "ServerHello")
           ltac:(vm_compute; reflexivity) eq_refl ltac:(vm_compute; reflexivity)).
Defined.

#[local] Arguments fatal_error : simpl never.

(** When [_read_callback] returns without data for the engine it has
    left the object alone. *)
Lemma read_callback_no_data_self `{SC : SecurityConst} `{EN : errno}
  (m m' : machine) (id n status : Z) :
  _read_callback id n m = (Return (status, None), m') -> self m' = self m.
Proof.
  unfold _read_callback. unfold bind at 1, get at 1.
  destruct (resolve id m) as [[s|] [sock|]]; try (by intros [= <- <-]).
  all: unfold bind at 1;
    match goal with
    | |- context [recv_loop ?f ?so ?k ?d ?m0] =>
        pose proof (recv_loop_self f so k d m0) as Hs;
        destruct (recv_loop f so k d m0) as [[[st|data' error]| |] m1]
    end; cbn in Hs |- *; try done; try (by intros [= <- <-]).
  all: destruct (fatal_error error); [by intros [= <- <-]|].
  all: run; paths; done.
Qed.



(** X12.  While the handshake is in flight [_write_callback] appends all
    the bytes it is given to the client hello capture before it sends
    them, however the send ends; when [socket.send] returns, the status is
    success if every byte was sent, and otherwise would-block with the
    count sent stored for the engine. *)
Theorem write_callback_captures_before_send `{SC : SecurityConst} `{EN : errno}
  (m : machine) (id n : Z) (data_buffer : bytes) :
  id ∈ _connection_refs m ->
  _done_handshake (self m) = false ->
  _client_hello (self (snd (_write_callback id data_buffer n m)))
  = _client_hello (self m) ++ take (Z.to_nat n) data_buffer
  /\ _server_hello (self (snd (_write_callback id data_buffer n m)))
     = _server_hello (self m)
  /\ (forall sock sent rest,
        _socket (self m) = Some sock ->
        send_replies (env m) = send_count sent :: rest ->
        fst (_write_callback id data_buffer n m)
        = Return (if bool_decide (sent <> n) then (errSSLWouldBlock, Some sent)
                  else (0, None))).
Proof.
  intros Hlive Hdone. unfold _write_callback, resolve. run.
  rewrite !(bool_decide_eq_true_2 (id ∈ _connection_refs m)) by done.
  cbn. rewrite Hdone. cbn.
  destruct (_socket (self m)) as [sock|]; cbn; [|split_and!; done].
  destruct (send_replies (env m)) as [|[sent|err] rest]; cbn.
  - split_and!; done.
  - unfold fatal_error.
    destruct (bool_decide (sent <> n)) eqn:E; cbn; split_and!; try done;
      intros ? ? ? [= <-] [= <- <-]; by rewrite E.
  - destruct (fatal_error err); cbn; split_and!; done.
Qed.

Lemma write_callback_captures_before_send_witness :
  _client_hello
    (self (snd (_write_callback 7 (b "ClientHello") 11
                  (running (handshaking []) (set_send_replies [send_count 4] quiet)))))
  = b "client hello" ++ b "ClientHello"
  /\ fst (_write_callback 7 (b "ClientHello") 11
            (running (handshaking []) (set_send_replies [send_count 4] quiet)))
     = Return (errSSLWouldBlock, Some 4).
Proof.
  destruct (write_callback_captures_before_send
              (running (handshaking []) (set_send_replies [send_count 4] quiet))
              7 11 (b "ClientHello") ltac:(vm_compute; reflexivity) eq_refl)
    as (Hcapture & _ & Hstatus).
  split; [exact Hcapture|].
  exact (Hstatus 3 4 [] eq_refl eq_refl).
Defined.

(** * Further properties of session construction *)

Lemma normalize_roots_returns (parse_certificate : bytes -> outcome Certificate)
  (read_binary : string -> outcome bytes) (roots : list trust_root) :
  forall acc certs,
    normalize_roots parse_certificate read_binary roots acc = Return certs ->
    exists new,
      certs = acc ++ new
      /\ Forall2 (fun root cert =>
                    normalize_root parse_certificate read_binary root = Return cert)
           roots new.
Proof.
  induction roots as [|root roots IH]; intros acc certs; cbn [normalize_roots].
  - intros [= <-]. exists []. by rewrite app_nil_r.
  - destruct (normalize_root parse_certificate read_binary root) as [cert| |] eqn:E;
      [|done..].
    intros Hrest. destruct (IH _ _ Hrest) as (new & -> & Hall).
    exists (cert :: new). rewrite <- app_assoc. split; [done|]. by constructor.
Qed.

(** X13.  Every session that the constructor returns allows only
    supported protocol versions (all of [TLSv1], [TLSv1.1], [TLSv1.2] when
    none was asked for), holds the flag it was given, and holds its trust
    roots in the order given, each in parsed form. *)
Theorem session_is_well_formed (parse_certificate : bytes -> outcome Certificate)
  (read_binary : string -> outcome bytes) (rand_bytes : Z -> bytes)
  (protocol manual_validation : pyobj) (roots : option (list trust_root))
  (session : TLSSession) :
  TLSSession_init parse_certificate read_binary rand_bytes
    protocol manual_validation roots = Return session ->
  _protocols session ⊆ supported_protocols
  /\ (protocol = PyNone -> _protocols session = default_protocols)
  /\ manual_validation = PyBool (_manual_validation session)
  /\ Forall2 (fun root cert =>
                normalize_root parse_certificate read_binary root = Return cert)
       (default [] roots) (_extra_trust_roots session)
  /\ _peer_id session = rand_bytes 8.
Proof.
  unfold TLSSession_init.
  destruct manual_validation as [|mv| | |]; try done.
  set (given := match protocol with PyNone => PySet default_protocols | _ => protocol end).
  assert (Hgiven : protocol = PyNone -> given = PySet default_protocols)
    by (intros ->; reflexivity).
  destruct given as [|v|s|s|t] eqn:Eg; try done.
  - case_bool_decide as Hsup; [done|].
    destruct (normalize_roots _ _ _ _) as [certs| |] eqn:Er; [|done..].
    intros [= <-]. cbn.
    destruct (normalize_roots_returns _ _ _ _ _ Er) as (new & -> & Hall).
    split_and!; try done.
    + by apply difference_empty_iff_subset.
    + intros Hnone. by specialize (Hgiven Hnone).
  - case_bool_decide as Hsup; [done|].
    destruct (normalize_roots _ _ _ _) as [certs| |] eqn:Er; [|done..].
    intros [= <-]. cbn.
    destruct (normalize_roots_returns _ _ _ _ _ Er) as (new & -> & Hall).
    split_and!; try done.
    + by apply difference_empty_iff_subset.
    + intros Hnone. specialize (Hgiven Hnone). by injection Hgiven as ->.
Qed.

Lemma session_is_well_formed_witness :
  ({[ "TLSv1.2"%string ]} : gset string) ⊆ supported_protocols
  /\ Forall2 (fun root cert =>
                normalize_root accept_certificate no_such_file root = Return cert)
       [der_bytes (b "A"); x509_Certificate leaf_sha256]
       [{| subject := "A"; hash_algo := "sha256"; self_signed := true |}; leaf_sha256].
Proof.
  assert (Hbuilt :
    TLSSession_init accept_certificate no_such_file zero_bytes
      (PyStr "TLSv1.2") (PyBool false)
      (Some [der_bytes (b "A"); x509_Certificate leaf_sha256])
    = Return {| _protocols := {[ "TLSv1.2"%string ]}; _manual_validation := false;
                _extra_trust_roots :=
                  [{| subject := "A"; hash_algo := "sha256"; self_signed := true |};
                   leaf_sha256];
                _peer_id := zero_bytes 8 |}) by (vm_compute; reflexivity).
  destruct (session_is_well_formed _ _ _ _ _ _ _ Hbuilt) as (Hsub & _ & _ & Hroots & _).
  split; [exact Hsub|exact Hroots].
Defined.

(** X14.  A trust root that cannot be brought into parsed form, by its
    type or by the parser or the file system refusing it, makes the
    construction raise that root's error when the roots before it are
    fine and the protocol argument is; no session is built. *)
Theorem session_refuses_bad_root (parse_certificate : bytes -> outcome Certificate)
  (read_binary : string -> outcome bytes) (rand_bytes : Z -> bytes)
  (protocol : gset string) (manual_validation : bool)
  (before after : list trust_root) (bad : trust_root) (e : exn) :
  protocol ⊆ supported_protocols ->
  Forall (fun root => exists cert,
            normalize_root parse_certificate read_binary root = Return cert) before ->
  normalize_root parse_certificate read_binary bad = Raise e ->
  TLSSession_init parse_certificate read_binary rand_bytes
    (PySet protocol) (PyBool manual_validation) (Some (before ++ bad :: after))
  = Raise e
  /\ (forall t, normalize_root parse_certificate read_binary (other_root t)
                = Raise (TypeError "extra_trust_roots")).
Proof.
  intros Hsub Hbefore Hbad. split; [|reflexivity].
  unfold TLSSession_init.
  rewrite bool_decide_eq_false_2
    by (intros Hne; apply Hne; by apply difference_empty_iff_subset).
  cbn [default].
  assert (Hroots : forall acc,
            normalize_roots parse_certificate read_binary (before ++ bad :: after) acc
            = Raise e).
  { induction Hbefore as [|root before [cert Hcert] _ IH]; intros acc; cbn.
    - by rewrite Hbad.
    - rewrite Hcert. apply IH. }
  by rewrite Hroots.
Qed.

Lemma session_refuses_bad_root_witness :
  TLSSession_init accept_certificate no_such_file zero_bytes
    (PySet {[ "TLSv1.2"%string ]}) (PyBool false)
    (Some ([der_bytes (b "A")] ++ other_root "int" :: [der_bytes (b "B")]))
  = Raise (TypeError "extra_trust_roots").
Proof.
  apply (session_refuses_bad_root accept_certificate no_such_file zero_bytes
           {[ "TLSv1.2"%string ]} false [der_bytes (b "A")] [der_bytes (b "B")]
           (other_root "int") (TypeError "extra_trust_roots")).
  - apply difference_empty_iff_subset. by vm_compute.
  - repeat constructor. by eexists.
  - reflexivity.
Defined.

(** * Further properties of the end of the handshake *)

(** X15.  A status that none of the classifier's tests names is taken at
    face value, except on OS X before 10.10 when the captured server
    hello carries Diffie-Hellman parameters under 1024 bits: then the
    DH-parameters error is raised, also for a handshake that succeeded.
    Otherwise success and would-block install the session context, and
    any other status raises a [TLSError] that carries it. *)
Theorem unclassified_status `{SC : SecurityConst} `{EN : errno} `{HP : HandshakeParsers}
  (m : machine) (ctx r : Z) :
  unclassified r ->
  _handshake_check_result ctx r m
  = if legacy_weak_dh m then (Raise dh_params, m)
    else if bool_decide (r = 0 \/ r = errSSLWouldBlock)
         then (Return tt, with_self (set_session_context (Some ctx)) m)
         else (Raise (SecError TLSError_cls r), m).
Proof.
  intros (Hfam & Hpeer & Hdh & Hover & Hproto & Hnn & Hab).
  unfold _handshake_check_result, legacy_weak_dh.
  rewrite (bool_decide_eq_false_2 (r ∈ handshake_error_codes)) by done.
  rewrite (bool_decide_eq_false_2 (r = errSSLPeerHandshakeFail)) by done.
  rewrite (bool_decide_eq_false_2 (r = errSSLWeakPeerEphemeralDHKey)) by done.
  rewrite (bool_decide_eq_false_2 (r = errSSLRecordOverflow \/ _)) by tauto.
  rewrite (bool_decide_eq_false_2 (r = errSSLClosedNoNotify \/ _)) by tauto.
  run.
  destruct (version_lt (osx_version_info (env m)) (10, 10)); cbn.
  - destruct (get_dh_params_length (_server_hello (self m))) as [bits|]; cbn.
    + destruct (bits <? 1024); cbn; [reflexivity|].
      destruct (bool_decide (r <> errSSLWouldBlock)) eqn:Ewb;
        destruct (bool_decide (r = 0)) eqn:E0;
        destruct (bool_decide (r = 0 \/ r = errSSLWouldBlock)) eqn:Eor;
        cbn; try reflexivity; reflect_tests; try tauto.
    + destruct (bool_decide (r <> errSSLWouldBlock)) eqn:Ewb;
        destruct (bool_decide (r = 0)) eqn:E0;
        destruct (bool_decide (r = 0 \/ r = errSSLWouldBlock)) eqn:Eor;
        cbn; try reflexivity; reflect_tests; try tauto.
  - destruct (bool_decide (r <> errSSLWouldBlock)) eqn:Ewb;
      destruct (bool_decide (r = 0)) eqn:E0;
      destruct (bool_decide (r = 0 \/ r = errSSLWouldBlock)) eqn:Eor;
      cbn; try reflexivity; reflect_tests; try tauto.
Qed.

Lemma unclassified_status_witness :
  unclassified 0
  /\ _handshake_check_result (HP := parsers [] false) 1 0 (running (handshaking []) quiet)
     = (Return tt,
        with_self (set_session_context (Some 1)) (running (handshaking []) quiet)).
Proof.
  assert (H : unclassified 0).
  { unfold unclassified. split_and!; try discriminate.
    intros Hin. apply list_elem_of_In in Hin. cbn in Hin.
    repeat destruct Hin as [Hin|Hin]; try discriminate. done. }
  split; [exact H|].
  exact (unclassified_status (HP := parsers [] false)
           (running (handshaking []) quiet) 1 0 H).
Defined.

(** With no session context on the object, [close()] sends nothing to
    the engine: it closes the socket, forgets it and drops the registry
    entry. *)
Lemma close_unbound (m : machine) :
  _session_context (self m) = None ->
  fst (close m) = Return tt
  /\ _session_context (self (snd (close m))) = None
  /\ _socket (self (snd (close m))) = None
  /\ calls (env (snd (close m)))
     = calls (env m) ++ match _socket (self m) with
                        | Some s => [socket_close s]
                        | None => []
                        end
  /\ _socket_refs (snd (close m))
     = match _connection_id (self m) with
       | Some id => delete id (_socket_refs m)
       | None => _socket_refs m
       end.
Proof.
  intros Hctx. unfold close, try_finally, shutdown. run.
  destruct m as [[sock ctx buf host done sh ch lc id] crefs srefs w].
  cbn in Hctx. subst ctx. cbn.
  assert (Hdel : forall k : Z, srefs !! k = None -> delete k srefs = srefs)
    by (intros k Hk; by apply delete_id).
  paths; cbn; split_and!; try done; try (by rewrite app_nil_r).
  all: symmetry; apply Hdel; reflect_tests; by apply eq_None_not_Some.
Qed.

(** X16.  When the classifier raises an error of the system or of the TLS
    layer and the release of the context succeeds, [_handshake] raises
    that same error with the object torn down: the context has been
    released once, no close-notify has been sent, the socket has been
    closed and forgotten, and the registry entry is gone. *)
Theorem handshake_error_tears_down `{SC : SecurityConst} `{EN : errno} `{HP : HandshakeParsers}
  (m : machine) (ctx r : Z) (e : exn) :
  let m1 := snd (_handshake_check_result ctx r (with_self (set_done_handshake true) m)) in
  let m' := snd (_handshake_finish ctx r m) in
  fst (_handshake_check_result ctx r (with_self (set_done_handshake true) m)) = Raise e ->
  is_OSError e = true ->
  (if version_lt (osx_version_info (env m)) (10, 8)
   then SSLDisposeContext_reply (env m) = 0
   else CFRelease_fails (env m) = false) ->
  fst (_handshake_finish ctx r m) = Raise e
  /\ _session_context (self m') = None
  /\ _socket (self m') = None
  /\ calls (env m')
     = calls (env m1)
       ++ (if version_lt (osx_version_info (env m)) (10, 8)
           then SSLDisposeContext ctx else CFRelease ctx)
       :: match _socket (self m1) with
          | Some s => [socket_close s]
          | None => []
          end
  /\ _socket_refs m'
     = match _connection_id (self m1) with
       | Some id => delete id (_socket_refs m1)
       | None => _socket_refs m1
       end.
Proof.
  intros m1 m' Hraise Hos Hrelease. subst m1 m'.
  unfold _handshake_finish, try_except.
  change ((modify (with_self (set_done_handshake true));;;
           _handshake_check_result ctx r) m)
    with (_handshake_check_result ctx r (with_self (set_done_handshake true) m)).
  pose proof (check_result_system (with_self (set_done_handshake true) m) ctx r) as Hsys.
  destruct (_handshake_check_result ctx r (with_self (set_done_handshake true) m))
    as [o m1]. cbn in Hraise, Hsys. subst o. rewrite Hos.
  destruct Hsys as (Hv & Hd & Hc). rewrite <- Hv, <- Hd, <- Hc in Hrelease.
  cbn [snd]. rewrite <- Hv.
  assert (Hrest : forall (c : call) (m2 : machine),
            let m3 := with_self (set_session_context None) (with_env (log c) m2) in
            (modify (with_self (set_session_context None));;; close;;;
             (raise e : M machine unit)) (with_env (log c) m2)
            = (Raise e, snd (close m3))).
  { intros c m2 m3. unfold bind, modify, raise. fold m3.
    pose proof (close_unbound m3 eq_refl) as [Hclose _].
    destruct (close m3) as [o m4]. cbn in Hclose. by subst o. }
  assert (Hafter : forall (c : call),
            let m3 := with_self (set_session_context None) (with_env (log c) m1) in
            _session_context (self (snd (close m3))) = None
            /\ _socket (self (snd (close m3))) = None
            /\ calls (env (snd (close m3)))
               = calls (env m1) ++ c :: match _socket (self m1) with
                                        | Some s => [socket_close s]
                                        | None => []
                                        end
            /\ _socket_refs (snd (close m3))
               = match _connection_id (self m1) with
                 | Some id => delete id (_socket_refs m1)
                 | None => _socket_refs m1
                 end).
  { intros c m3.
    destruct (close_unbound m3 eq_refl) as (_ & H1 & H2 & H3 & H4).
    split_and!; try done. rewrite H3. cbn. by rewrite <- app_assoc. }
  set (c := if version_lt (osx_version_info (env m1)) (10, 8)
            then SSLDisposeContext ctx else CFRelease ctx).
  assert (Hrun : _handshake_except ctx e m1
                 = (Raise e,
                    snd (close (with_self (set_session_context None)
                                  (with_env (log c) m1))))).
  { unfold _handshake_except, c.
    unfold bind at 1, get at 1. unfold bind at 1.
    destruct (version_lt (osx_version_info (env m1)) (10, 8)).
    - unfold bind at 1, modify at 1, handle_sec_error. rewrite Hrelease. cbn.
      apply Hrest.
    - unfold bind at 1, modify at 1, handle_cf_error. rewrite Hrelease. cbn.
      apply Hrest. }
  rewrite Hrun. cbn [fst snd]. split; [done|]. apply Hafter.
Qed.

Lemma handshake_error_tears_down_witness :
  let m := running (handshaking []) quiet in
  let m' := snd (_handshake_finish (HP := parsers [] false) 1 errSSLPeerHandshakeFail m) in
  fst (_handshake_finish (HP := parsers [] false) 1 errSSLPeerHandshakeFail m)
  = Raise handshake_failure
  /\ _socket (self m') = None
  /\ calls (env m') = [CFRelease 1; socket_close 3].
Proof.
  intros m m'. subst m m'.
  assert (Hraised :
    fst (_handshake_check_result (HP := parsers [] false) 1 errSSLPeerHandshakeFail
           (with_self (set_done_handshake true) (running (handshaking []) quiet)))
    = Raise handshake_failure) by (vm_compute; reflexivity).
  destruct (handshake_error_tears_down (HP := parsers [] false)
              (running (handshaking []) quiet) 1 errSSLPeerHandshakeFail
              handshake_failure Hraised eq_refl eq_refl)
    as (Hraise & _ & Hsock & Hcalls & _).
  split_and!; [exact Hraise|exact Hsock|]. rewrite Hcalls. vm_compute. reflexivity.
Defined.

(** X17.  When the release of the context fails in the [except] clause,
    the error of the release is raised in place of the error that the
    classifier raised, and the clause ends there: the object is left as
    the classifier left it, its socket open and registered, and only the
    release has been logged. *)
Theorem release_failure_masks_handshake_error
  `{SC : SecurityConst} `{EN : errno} `{HP : HandshakeParsers}
  (m : machine) (ctx r : Z) (e : exn) :
  let m1 := snd (_handshake_check_result ctx r (with_self (set_done_handshake true) m)) in
  fst (_handshake_check_result ctx r (with_self (set_done_handshake true) m)) = Raise e ->
  is_OSError e = true ->
  (if version_lt (osx_version_info (env m)) (10, 8)
   then SSLDisposeContext_reply (env m) <> 0
   else CFRelease_fails (env m) = true) ->
  _handshake_finish ctx r m
  = if version_lt (osx_version_info (env m)) (10, 8)
    then (Raise (SecError OSError_cls (SSLDisposeContext_reply (env m))),
          with_env (log (SSLDisposeContext ctx)) m1)
    else (Raise CFError, with_env (log (CFRelease ctx)) m1).
Proof.
  intros m1 Hraise Hos Hrelease. subst m1.
  unfold _handshake_finish, try_except.
  change ((modify (with_self (set_done_handshake true));;;
           _handshake_check_result ctx r) m)
    with (_handshake_check_result ctx r (with_self (set_done_handshake true) m)).
  pose proof (check_result_system (with_self (set_done_handshake true) m) ctx r) as Hsys.
  destruct (_handshake_check_result ctx r (with_self (set_done_handshake true) m))
    as [o m1]. cbn in Hraise, Hsys. subst o. rewrite Hos.
  destruct Hsys as (Hv & Hd & Hc). rewrite <- Hv, <- Hd, <- Hc in Hrelease.
  cbn [snd]. rewrite <- Hv, <- Hd.
  unfold _handshake_except.
  unfold bind at 1, get at 1. unfold bind at 1.
  destruct (version_lt (osx_version_info (env m1)) (10, 8)).
  - unfold bind at 1, modify at 1, handle_sec_error.
    rewrite (bool_decide_eq_false_2 _ Hrelease). reflexivity.
  - unfold bind at 1, modify at 1, handle_cf_error. rewrite Hrelease. reflexivity.
Qed.

Lemma release_failure_masks_handshake_error_witness :
  let m := running (handshaking []) lion_world in
  let finish := _handshake_finish (HP := parsers [] false) 1 errSSLPeerHandshakeFail in
  fst (finish m) = Raise (SecError OSError_cls (-50))
  /\ _socket (self (snd (finish m))) = Some 3
  /\ calls (env (snd (finish m))) = [SSLDisposeContext 1].
Proof.
  intros m finish. subst m finish.
  assert (Hfails : SSLDisposeContext_reply lion_world <> 0) by discriminate.
  assert (Hraised :
    fst (_handshake_check_result (HP := parsers [] false) 1 errSSLPeerHandshakeFail
           (with_self (set_done_handshake true) (running (handshaking []) lion_world)))
    = Raise handshake_failure) by (vm_compute; reflexivity).
  rewrite (release_failure_masks_handshake_error (HP := parsers [] false)
             (running (handshaking []) lion_world) 1 errSSLPeerHandshakeFail
             handshake_failure Hraised eq_refl Hfails).
  vm_compute. repeat split.
Defined.

(** * Further properties of the cipher-suite filter *)

Lemma collect_good_ciphers_unnamed (int_to_bytes : Z -> nat -> bytes)
  (CIPHER_SUITE_MAP : bytes -> option string) (supported acc : list Z) :
  Exists (fun suite => CIPHER_SUITE_MAP (int_to_bytes suite 2%nat) = None) supported ->
  collect_good_ciphers int_to_bytes CIPHER_SUITE_MAP true supported acc
  = Raise (TypeError "cannot use a string pattern on a bytes-like object").
Proof.
  revert acc. induction supported as [|suite supported IH]; intros acc Hex.
  - inversion Hex.
  - cbn. unfold cipher_suite_name.
    destruct (CIPHER_SUITE_MAP (int_to_bytes suite 2%nat)) as [name|] eqn:E; cbn; [|done].
    assert (Hrest : Exists (fun suite => CIPHER_SUITE_MAP (int_to_bytes suite 2%nat) = None)
                      supported)
      by (inversion Hex; [congruence|done]).
    destruct (negb _); by apply IH.
Qed.

(** X18.  Under Python 3 the filter finishes exactly when every suite the
    engine reports has a row in the table: one suite without a name makes
    it raise a [TypeError], whatever the other suites are and wherever it
    stands in the list.  Under Python 2 the same list is filtered. *)
Theorem good_ciphers_needs_names (int_to_bytes : Z -> nat -> bytes)
  (CIPHER_SUITE_MAP : bytes -> option string) (supported : list Z) :
  ((exists enabled,
      good_ciphers int_to_bytes CIPHER_SUITE_MAP true supported = Return enabled)
   <-> Forall (fun suite => is_Some (CIPHER_SUITE_MAP (int_to_bytes suite 2%nat))) supported)
  /\ (Exists (fun suite => CIPHER_SUITE_MAP (int_to_bytes suite 2%nat) = None) supported ->
      good_ciphers int_to_bytes CIPHER_SUITE_MAP true supported
      = Raise (TypeError "cannot use a string pattern on a bytes-like object"))
  /\ (exists enabled,
        good_ciphers int_to_bytes CIPHER_SUITE_MAP false supported = Return enabled).
Proof.
  split_and!.
  - split.
    + intros [enabled Hrun].
      apply Forall_forall. intros suite Hin.
      destruct (CIPHER_SUITE_MAP (int_to_bytes suite 2%nat)) as [name|] eqn:E; [by eexists|].
      unfold good_ciphers in Hrun.
      rewrite collect_good_ciphers_unnamed in Hrun; [discriminate|].
      apply Exists_exists. by exists suite.
    + intros Hknown. eexists. unfold good_ciphers.
      by rewrite collect_good_ciphers_filter.
  - intros Hex. by apply collect_good_ciphers_unnamed.
  - eexists. unfold good_ciphers. by rewrite collect_good_ciphers_filter.
Qed.

Lemma good_ciphers_needs_names_witness :
  good_ciphers int_to_bytes_be some_CIPHER_SUITE_MAP true [47; 4865; 10]
  = Raise (TypeError "cannot use a string pattern on a bytes-like object")
  /\ good_ciphers int_to_bytes_be some_CIPHER_SUITE_MAP false [47; 4865; 10]
     = Return [47; 4865; 10].
Proof.
  destruct (good_ciphers_needs_names int_to_bytes_be some_CIPHER_SUITE_MAP [47; 4865; 10])
    as (_ & Hraise & _).
  split; [|vm_compute; reflexivity].
  apply Hraise. apply Exists_cons_tl, Exists_cons_hd. vm_compute. reflexivity.
Defined.

(** * Certificate access *)

Lemma read_state_nothing (i : inspection) :
  read_state [] (_certificate i) (_intermediates i) i = i.
Proof.
  destruct i as [[s crefs srefs w] c n t ch]. destruct w.
  unfold read_state, with_env, set_calls. cbn. by rewrite app_nil_r.
Qed.

Lemma read_state_twice (added added' : list call) (c c' : option Certificate)
  (n n' : option (list Certificate)) (i : inspection) :
  read_state added' c' n' (read_state added c n i) = read_state (added ++ added') c' n' i.
Proof.
  destruct i as [[s crefs srefs w] c0 n0 t ch]. destruct w.
  unfold read_state, with_env, set_calls. cbn. by rewrite app_assoc.
Qed.

(** One round of the loop, the release succeeding. *)
Lemma read_chain_step (load : bytes -> outcome Certificate) (index ref : Z) (data : bytes)
  (rest : list (Z * bytes)) (i : inspection) (f : frame) :
  CFRelease_fails (env (connection i)) = false ->
  read_chain load index ((ref, data) :: rest) (i, f)
  = let released := read_state [CFRelease ref] (_certificate i) (_intermediates i) i in
    let f' := set_cf_data_ref None f in
    match load data with
    | Return cert =>
        if index =? 0 then
          read_chain load (index + 1) rest
            (read_state [CFRelease ref] (Some cert) (_intermediates i) i, f')
        else
          match _intermediates i with
          | Some ints =>
              read_chain load (index + 1) rest
                (read_state [CFRelease ref] (_certificate i) (Some (ints ++ [cert])) i, f')
          | None => (Raise (AttributeError "append"), (released, f'))
          end
    | Raise e => (Raise e, (released, f'))
    | Hang => (Hang, (released, f'))
    end.
Proof.
  intros Hok. cbn [read_chain]. unfold release, engine_call, on_object, on_frame. run.
  rewrite Hok. cbn.
  destruct i as [m c n t ch]. destruct f as [tr dr]. cbn.
  destruct (load data) as [cert|e|]; cbn; try reflexivity.
  destruct (index =? 0); cbn; [reflexivity|].
  destruct n as [ints|]; reflexivity.
Qed.

(** The rounds after the first append what they parse to
    [_intermediates] and release each handle they were given. *)
Lemma read_chain_appends (load : bytes -> outcome Certificate) (index : Z)
  (chain : list (Z * bytes)) (certs ints : list Certificate) (i : inspection) (f : frame) :
  0 < index ->
  CFRelease_fails (env (connection i)) = false ->
  _intermediates i = Some ints ->
  parsed load chain certs ->
  read_chain load index chain (i, f)
  = (Return tt,
     (read_state (releases chain) (_certificate i) (Some (ints ++ certs)) i,
      match chain with [] => f | _ => set_cf_data_ref None f end)).
Proof.
  intros Hindex Hok Hints Hparsed.
  revert index ints i f Hindex Hok Hints.
  induction Hparsed as [|[ref data] cert rest certs Hload _ IH];
    intros index ints i f Hindex Hok Hints.
  - cbn. by rewrite app_nil_r, <- Hints, read_state_nothing.
  - rewrite read_chain_step by done. cbn in Hload. cbn zeta. rewrite Hload, Hints.
    destruct (index =? 0) eqn:E; [apply Z.eqb_eq in E; lia|].
    rewrite (IH (index + 1) (ints ++ [cert])) by (done || lia).
    rewrite read_state_twice. cbn [_certificate read_state].
    rewrite <- app_assoc. cbn [app releases map].
    by destruct rest.
Qed.

(** They stop at the first entry that the parser refuses, its handle
    released as those before it. *)
Lemma read_chain_appends_until (load : bytes -> outcome Certificate) (index ref : Z)
  (data : bytes) (before after : list (Z * bytes)) (certs ints : list Certificate)
  (e : exn) (i : inspection) (f : frame) :
  0 < index ->
  CFRelease_fails (env (connection i)) = false ->
  _intermediates i = Some ints ->
  parsed load before certs ->
  load data = Raise e ->
  read_chain load index (before ++ (ref, data) :: after) (i, f)
  = (Raise e,
     (read_state (releases before ++ [CFRelease ref]) (_certificate i)
        (Some (ints ++ certs)) i,
      set_cf_data_ref None f)).
Proof.
  intros Hindex Hok Hints Hparsed Hrefused.
  revert index ints i f Hindex Hok Hints.
  induction Hparsed as [|[ref' data'] cert rest certs Hload _ IH];
    intros index ints i f Hindex Hok Hints.
  - cbn [app]. rewrite read_chain_step by done. cbn zeta. rewrite Hrefused.
    by rewrite app_nil_r, <- Hints.
  - cbn [app]. rewrite read_chain_step by done. cbn in Hload. cbn zeta.
    rewrite Hload, Hints.
    destruct (index =? 0) eqn:E; [apply Z.eqb_eq in E; lia|].
    rewrite (IH (index + 1) (ints ++ [cert])) by (done || lia).
    rewrite read_state_twice. cbn [_certificate read_state].
    rewrite <- app_assoc. cbn [app releases map]. done.
Qed.

(** The whole loop on a chain that parses: the first certificate is the
    leaf, the others the intermediates in order. *)
Lemma read_chain_loads (load : bytes -> outcome Certificate)
  (chain : list (Z * bytes)) (certs : list Certificate) (i : inspection) (f : frame) :
  CFRelease_fails (env (connection i)) = false ->
  _intermediates i = Some [] ->
  parsed load chain certs ->
  read_chain load 0 chain (i, f)
  = (Return tt,
     (read_state (releases chain)
        (match certs with leaf :: _ => Some leaf | [] => _certificate i end)
        (Some (tail certs)) i,
      match chain with [] => f | _ => set_cf_data_ref None f end)).
Proof.
  intros Hok Hints Hparsed.
  destruct Hparsed as [|[ref data] leaf rest certs Hload Hparsed].
  - cbn. by rewrite <- Hints, read_state_nothing.
  - rewrite read_chain_step by done. cbn in Hload. cbn zeta. rewrite Hload.
    change (0 =? 0) with true. cbn match.
    rewrite (read_chain_appends load (0 + 1) rest certs []) by (done || lia).
    rewrite read_state_twice. cbn [_certificate read_state app tail releases map].
    by destruct rest.
Qed.

Lemma read_chain_loads_until (load : bytes -> outcome Certificate) (ref : Z)
  (data : bytes) (before after : list (Z * bytes)) (certs : list Certificate)
  (e : exn) (i : inspection) (f : frame) :
  CFRelease_fails (env (connection i)) = false ->
  _intermediates i = Some [] ->
  parsed load before certs ->
  load data = Raise e ->
  read_chain load 0 (before ++ (ref, data) :: after) (i, f)
  = (Raise e,
     (read_state (releases before ++ [CFRelease ref])
        (match certs with leaf :: _ => Some leaf | [] => _certificate i end)
        (Some (tail certs)) i,
      set_cf_data_ref None f)).
Proof.
  intros Hok Hints Hparsed Hrefused.
  destruct Hparsed as [|[ref' data'] leaf rest certs Hload Hparsed].
  - cbn [app]. rewrite read_chain_step by done. cbn zeta. rewrite Hrefused.
    cbn [tail releases map app]. by rewrite <- Hints.
  - cbn [app]. rewrite read_chain_step by done. cbn in Hload. cbn zeta. rewrite Hload.
    change (0 =? 0) with true. cbn match.
    rewrite (read_chain_appends_until load (0 + 1) ref data rest after certs [] e)
      by (done || lia).
    rewrite read_state_twice. cbn [_certificate read_state app tail releases map]. done.
Qed.

(** [_read_certificates] once the engine has handed out the trust object
    and the loop has ended: the [finally] clause releases the trust
    handle, and the end of the loop is the end of the call. *)
Lemma read_certificates_finally (load : bytes -> outcome Certificate)
  (ctx : Z) (i i2 : inspection) (o : outcome unit) :
  SSLCopyPeerTrust_reply (env (connection i)) = 0 ->
  CFRelease_fails (env (connection i)) = false ->
  o <> Hang ->
  read_chain load 0 (peer_chain i)
    (read_state [SSLCopyPeerTrust ctx] (_certificate i) (Some []) i,
     {| trust_ref := Some (peer_trust i); cf_data_ref := None |})
  = (o, (i2, {| trust_ref := Some (peer_trust i); cf_data_ref := None |})) ->
  CFRelease_fails (env (connection i2)) = false ->
  _read_certificates load ctx i
  = (o, read_state (if bool_decide (peer_trust i <> 0) then [CFRelease (peer_trust i)] else [])
          (_certificate i2) (_intermediates i2) i2).
Proof.
  intros Hreply Hok Hhang Hloop Hok2.
  unfold _read_certificates.
  match goal with |- context [try_finally ?body _ _] => set (loop := body) end.
  assert (Hbody : loop (i, {| trust_ref := None; cf_data_ref := None |})
                  = (o, (i2, {| trust_ref := Some (peer_trust i); cf_data_ref := None |}))).
  { rewrite <- Hloop. subst loop. unfold engine_call, on_object, on_frame. run.
    rewrite Hreply. reflexivity. }
  unfold try_finally. rewrite Hbody.
  unfold release_if_set, release, engine_call, on_object. run.
  destruct (bool_decide (peer_trust i <> 0)); cbn; [rewrite Hok2; cbn|].
  all: destruct o as [[]| |]; [| |done]; cbn; try reflexivity.
  all: by rewrite read_state_nothing.
Qed.

(** [_read_certificates] on a chain that parses. *)
Lemma read_certificates_loads (load : bytes -> outcome Certificate)
  (ctx : Z) (i : inspection) (certs : list Certificate) :
  SSLCopyPeerTrust_reply (env (connection i)) = 0 ->
  CFRelease_fails (env (connection i)) = false ->
  parsed load (peer_chain i) certs ->
  _read_certificates load ctx i
  = (Return tt,
     read_state (SSLCopyPeerTrust ctx :: releases (peer_chain i) ++ trust_release i)
       (match certs with leaf :: _ => Some leaf | [] => _certificate i end)
       (Some (tail certs)) i).
Proof.
  intros Hreply Hok Hparsed.
  rewrite (read_certificates_finally load ctx i
             (read_state (releases (peer_chain i))
                (match certs with leaf :: _ => Some leaf | [] => _certificate i end)
                (Some (tail certs))
                (read_state [SSLCopyPeerTrust ctx] (_certificate i) (Some []) i))
             (Return tt)); try done.
  - rewrite read_state_twice. cbn [_certificate _intermediates read_state].
    rewrite read_state_twice. reflexivity.
  - rewrite (read_chain_loads load (peer_chain i) certs) by done.
    cbn [_certificate read_state]. by destruct (peer_chain i).
Qed.

(** [_read_certificates] on a chain with an entry that the parser
    refuses. *)
Lemma read_certificates_refused (load : bytes -> outcome Certificate)
  (ctx ref : Z) (data : bytes) (before after : list (Z * bytes))
  (i : inspection) (certs : list Certificate) (e : exn) :
  SSLCopyPeerTrust_reply (env (connection i)) = 0 ->
  CFRelease_fails (env (connection i)) = false ->
  peer_chain i = before ++ (ref, data) :: after ->
  parsed load before certs ->
  load data = Raise e ->
  _read_certificates load ctx i
  = (Raise e,
     read_state (SSLCopyPeerTrust ctx :: releases before ++ CFRelease ref :: trust_release i)
       (match certs with leaf :: _ => Some leaf | [] => _certificate i end)
       (Some (tail certs)) i).
Proof.
  intros Hreply Hok Hchain Hparsed Hrefused.
  rewrite (read_certificates_finally load ctx i
             (read_state (releases before ++ [CFRelease ref])
                (match certs with leaf :: _ => Some leaf | [] => _certificate i end)
                (Some (tail certs))
                (read_state [SSLCopyPeerTrust ctx] (_certificate i) (Some []) i))
             (Raise e)); try done.
  - rewrite read_state_twice. cbn [_certificate _intermediates read_state].
    rewrite read_state_twice. rewrite <- !app_assoc. reflexivity.
  - rewrite Hchain.
    rewrite (read_chain_loads_until load ref data before after certs e) by done.
    reflexivity.
Qed.

(** X19.  When the engine hands out the trust object and every entry of
    the chain parses, [_read_certificates] returns with the first
    certificate as [_certificate] and the others, in the order of the
    chain, as [_intermediates]; it has released the data handle of every
    entry once, in order, and the trust handle last, and has touched
    nothing else of the object.  On an empty chain [_certificate] stays
    as it was. *)
Theorem read_certificates_reads_chain
  (load : bytes -> outcome Certificate) (ctx : Z) (i : inspection)
  (certs : list Certificate) :
  SSLCopyPeerTrust_reply (env (connection i)) = 0 ->
  CFRelease_fails (env (connection i)) = false ->
  parsed load (peer_chain i) certs ->
  let i' := snd (_read_certificates load ctx i) in
  fst (_read_certificates load ctx i) = Return tt
  /\ _certificate i' = match certs with leaf :: _ => Some leaf | [] => _certificate i end
  /\ _intermediates i' = Some (tail certs)
  /\ calls (env (connection i'))
     = calls (env (connection i))
       ++ SSLCopyPeerTrust ctx :: releases (peer_chain i) ++ trust_release i
  /\ self (connection i') = self (connection i)
  /\ _socket_refs (connection i') = _socket_refs (connection i).
Proof.
  intros Hreply Hok Hparsed i'. subst i'.
  rewrite (read_certificates_loads load ctx i certs) by done.
  by split_and!.
Qed.

Lemma read_certificates_reads_chain_witness :
  let i := inspecting (running (established []) quiet)
             [(41, b "leaf"); (42, b "ca 1"); (43, b "ca 2")] in
  let i' := snd (_read_certificates accept_certificate 1 i) in
  option_map subject (_certificate i') = Some "leaf"%string
  /\ option_map (map subject) (_intermediates i') = Some ["ca 1"; "ca 2"]%string
  /\ calls (env (connection i'))
     = [SSLCopyPeerTrust 1; CFRelease 41; CFRelease 42; CFRelease 43; CFRelease 40].
Proof.
  intros i i'. subst i i'.
  assert (Hparsed :
    parsed accept_certificate [(41, b "leaf"); (42, b "ca 1"); (43, b "ca 2")]
      (map (fun data => {| subject := String.string_of_list_byte data;
                           hash_algo := "sha256"; self_signed := true |})
         [b "leaf"; b "ca 1"; b "ca 2"]))
    by (repeat constructor).
  destruct (read_certificates_reads_chain accept_certificate 1
              (inspecting (running (established []) quiet)
                 [(41, b "leaf"); (42, b "ca 1"); (43, b "ca 2")])
              _ eq_refl eq_refl Hparsed)
    as (_ & Hleaf & Hints & Hcalls & _).
  rewrite Hleaf, Hints, Hcalls. vm_compute. repeat split.
Defined.

(** X20.  When the parser refuses an entry of the chain,
    [_read_certificates] raises the error of the parser after the
    [finally] clause has run: the data handles of the entries up to the
    refused one and the trust handle have each been released once, those
    of the entries behind it were never asked for, and the object keeps
    what was parsed before the failure, a leaf and an [_intermediates]
    list that stops short of the chain. *)
Theorem read_certificates_parser_failure
  (load : bytes -> outcome Certificate) (ctx ref : Z) (data : bytes)
  (before after : list (Z * bytes)) (i : inspection) (certs : list Certificate)
  (e : exn) :
  SSLCopyPeerTrust_reply (env (connection i)) = 0 ->
  CFRelease_fails (env (connection i)) = false ->
  peer_chain i = before ++ (ref, data) :: after ->
  parsed load before certs ->
  load data = Raise e ->
  let i' := snd (_read_certificates load ctx i) in
  fst (_read_certificates load ctx i) = Raise e
  /\ _certificate i' = match certs with leaf :: _ => Some leaf | [] => _certificate i end
  /\ _intermediates i' = Some (tail certs)
  /\ calls (env (connection i'))
     = calls (env (connection i))
       ++ SSLCopyPeerTrust ctx :: releases before ++ CFRelease ref :: trust_release i.
Proof.
  intros Hreply Hok Hchain Hparsed Hrefused i'. subst i'.
  rewrite (read_certificates_refused load ctx ref data before after i certs e) by done.
  by split_and!.
Qed.

Lemma read_certificates_parser_failure_witness :
  let i := inspecting (running (established []) quiet)
             [(41, b "leaf"); (42, b "ca 1"); (43, []); (44, b "ca 3")] in
  let i' := snd (_read_certificates accept_nonempty 1 i) in
  fst (_read_certificates accept_nonempty 1 i) = Raise (ValueError "certificate")
  /\ option_map (map subject) (_intermediates i') = Some ["ca 1"]%string
  /\ calls (env (connection i'))
     = [SSLCopyPeerTrust 1; CFRelease 41; CFRelease 42; CFRelease 43; CFRelease 40].
Proof.
  intros i i'. subst i i'.
  assert (Hparsed :
    parsed accept_nonempty [(41, b "leaf"); (42, b "ca 1")]
      (map (fun data => {| subject := String.string_of_list_byte data;
                           hash_algo := "sha256"; self_signed := true |})
         [b "leaf"; b "ca 1"]))
    by (repeat constructor).
  destruct (read_certificates_parser_failure accept_nonempty 1 43 []
              [(41, b "leaf"); (42, b "ca 1")] [(44, b "ca 3")]
              (inspecting (running (established []) quiet)
                 [(41, b "leaf"); (42, b "ca 1"); (43, []); (44, b "ca 3")])
              _ (ValueError "certificate") eq_refl eq_refl eq_refl Hparsed eq_refl)
    as (Hraise & _ & Hints & Hcalls).
  rewrite Hraise, Hints, Hcalls. vm_compute. repeat split.
Defined.

(** An access on an open session that has no leaf yet reads the
    certificates first. *)
Lemma certificate_unread (load : bytes -> outcome Certificate)
  (ctx : Z) (i : inspection) :
  _session_context (self (connection i)) = Some ctx ->
  _certificate i = None ->
  certificate load i
  = (_read_certificates load ctx ;;; i' <- get ;; ret (_certificate i')) i
  /\ intermediates load i
     = (_read_certificates load ctx ;;; i' <- get ;; ret (_intermediates i')) i.
Proof.
  intros Hctx Hcert. split.
  - unfold certificate. unfold bind at 1, get at 1. by rewrite Hctx, Hcert.
  - unfold intermediates. unfold bind at 1, get at 1. by rewrite Hctx, Hcert.
Qed.

(** An access on an open session that has a leaf answers from the
    object. *)
Lemma certificate_read (load : bytes -> outcome Certificate)
  (ctx : Z) (leaf : Certificate) (i : inspection) :
  _session_context (self (connection i)) = Some ctx ->
  _certificate i = Some leaf ->
  certificate load i = (Return (Some leaf), i)
  /\ intermediates load i = (Return (_intermediates i), i).
Proof.
  intros Hctx Hcert. unfold certificate, intermediates. run.
  rewrite Hctx, Hcert. cbn. by rewrite Hcert.
Qed.

(** X21.  On an object without a session context the properties
    [certificate], [intermediates] and [socket] raise the error of
    [_raise_closed], worded after [_local_closed], whatever the object
    has cached; they make no call and leave the object as it is. *)
Theorem accessors_closed (load : bytes -> outcome Certificate)
  (i : inspection) :
  _session_context (self (connection i)) = None ->
  certificate load i = (Raise (closed_connection (self (connection i))), i)
  /\ intermediates load i = (Raise (closed_connection (self (connection i))), i)
  /\ socket_property i = (Raise (closed_connection (self (connection i))), i).
Proof.
  intros Hctx. unfold certificate, intermediates, socket_property, on_connection,
    _raise_closed, closed_connection. run.
  rewrite Hctx. destruct i as [m c n t ch]. cbn.
  by destruct (_local_closed (self m)).
Qed.

Lemma accessors_closed_witness :
  let i := set_certificate (Some leaf_sha256)
             (inspecting (running (set_local_closed true (handshaking [])) quiet) []) in
  certificate accept_certificate i
  = (Raise (TLSError "The connection was already closed"), i).
Proof.
  intros i. subst i.
  destruct (accessors_closed accept_certificate
              (set_certificate (Some leaf_sha256)
                 (inspecting (running (set_local_closed true (handshaking [])) quiet) []))
              eq_refl) as [Hraise _].
  exact Hraise.
Defined.

(** X22.  The first access of [certificate] on an open session whose
    chain parses reads the chain, with one [SSLCopyPeerTrust] call, and
    returns the leaf; from then on [certificate] and [intermediates]
    answer from the object, the leaf and the rest of the chain in order,
    and make no call. *)
Theorem certificate_read_once (load : bytes -> outcome Certificate)
  (ctx : Z) (i : inspection) (leaf : Certificate) (more : list Certificate) :
  _session_context (self (connection i)) = Some ctx ->
  _certificate i = None ->
  SSLCopyPeerTrust_reply (env (connection i)) = 0 ->
  CFRelease_fails (env (connection i)) = false ->
  parsed load (peer_chain i) (leaf :: more) ->
  let i1 := snd (certificate load i) in
  fst (certificate load i) = Return (Some leaf)
  /\ calls (env (connection i1))
     = calls (env (connection i))
       ++ SSLCopyPeerTrust ctx :: releases (peer_chain i) ++ trust_release i
  /\ certificate load i1 = (Return (Some leaf), i1)
  /\ intermediates load i1 = (Return (Some more), i1).
Proof.
  intros Hctx Hcert Hreply Hok Hparsed i1. subst i1.
  assert (Hrun : certificate load i
                 = (Return (Some leaf),
                    read_state
                      (SSLCopyPeerTrust ctx :: releases (peer_chain i) ++ trust_release i)
                      (Some leaf) (Some more) i)).
  { destruct (certificate_unread load ctx i Hctx Hcert) as [-> _].
    unfold bind at 1.
    by rewrite (read_certificates_loads load ctx i (leaf :: more)). }
  rewrite Hrun. cbn [fst snd].
  match goal with
  | |- context [read_state ?added ?c ?n ?j] =>
      destruct (certificate_read load ctx leaf (read_state added c n j) Hctx eq_refl)
        as [Hleaf Hmore]
  end.
  by split_and!.
Qed.

Lemma certificate_read_once_witness :
  let i := inspecting (running (established []) quiet) [(41, b "leaf"); (42, b "ca 1")] in
  let i1 := snd (certificate accept_certificate i) in
  calls (env (connection i1)) = [SSLCopyPeerTrust 1; CFRelease 41; CFRelease 42; CFRelease 40]
  /\ option_map (option_map (map subject))
       (match fst (intermediates accept_certificate i1) with
        | Return ints => Some ints
        | _ => None
        end)
     = Some (Some ["ca 1"%string])
  /\ snd (intermediates accept_certificate i1) = i1.
Proof.
  intros i i1. subst i i1.
  assert (Hparsed :
    parsed accept_certificate [(41, b "leaf"); (42, b "ca 1")]
      (map (fun data => {| subject := String.string_of_list_byte data;
                           hash_algo := "sha256"; self_signed := true |})
         [b "leaf"; b "ca 1"]))
    by (repeat constructor).
  destruct (certificate_read_once accept_certificate 1
              (inspecting (running (established []) quiet)
                 [(41, b "leaf"); (42, b "ca 1")])
              _ _ eq_refl eq_refl eq_refl eq_refl Hparsed)
    as (_ & Hcalls & _ & Hints).
  rewrite Hcalls, Hints. vm_compute. repeat split.
Defined.

(** X23.  A reading that fails behind the leaf is not taken back and not
    repeated.  When the parser refuses an intermediate certificate, the
    access that ran into it raises the error of the parser; the next
    accesses find the leaf on the object, make no call, and
    [intermediates] returns without an error the certificates parsed
    before the failure, a list shorter than the chain that the server
    presented. *)
Theorem failed_read_leaves_short_chain
  (load : bytes -> outcome Certificate) (ctx ref : Z) (data : bytes)
  (before after : list (Z * bytes)) (i : inspection) (leaf : Certificate)
  (more : list Certificate) (e : exn) :
  _session_context (self (connection i)) = Some ctx ->
  _certificate i = None ->
  SSLCopyPeerTrust_reply (env (connection i)) = 0 ->
  CFRelease_fails (env (connection i)) = false ->
  peer_chain i = before ++ (ref, data) :: after ->
  parsed load before (leaf :: more) ->
  load data = Raise e ->
  let i1 := snd (intermediates load i) in
  fst (intermediates load i) = Raise e
  /\ certificate load i1 = (Return (Some leaf), i1)
  /\ intermediates load i1 = (Return (Some more), i1)
  /\ (length more + 2 <= length (peer_chain i))%nat.
Proof.
  intros Hctx Hcert Hreply Hok Hchain Hparsed Hrefused i1. subst i1.
  assert (Hrun : intermediates load i
                 = (Raise e,
                    read_state
                      (SSLCopyPeerTrust ctx
                       :: releases before ++ CFRelease ref :: trust_release i)
                      (Some leaf) (Some more) i)).
  { destruct (certificate_unread load ctx i Hctx Hcert) as [_ ->].
    unfold bind at 1.
    by rewrite (read_certificates_refused load ctx ref data before after i
                  (leaf :: more) e). }
  rewrite Hrun. cbn [fst snd].
  match goal with
  | |- context [read_state ?added ?c ?n ?j] =>
      destruct (certificate_read load ctx leaf (read_state added c n j) Hctx eq_refl)
        as [Hleaf Hmore]
  end.
  split_and!; try done.
  rewrite Hchain, length_app. apply Forall2_length in Hparsed. cbn in *. lia.
Qed.

Lemma failed_read_leaves_short_chain_witness :
  let i := inspecting (running (established []) quiet)
             [(41, b "leaf"); (42, b "ca 1"); (43, []); (44, b "ca 3")] in
  let i1 := snd (intermediates accept_nonempty i) in
  fst (intermediates accept_nonempty i) = Raise (ValueError "certificate")
  /\ option_map (option_map (map subject))
       (match fst (intermediates accept_nonempty i1) with
        | Return ints => Some ints
        | _ => None
        end)
     = Some (Some ["ca 1"%string])
  /\ calls (env (connection (snd (intermediates accept_nonempty i1))))
     = calls (env (connection i1)).
Proof.
  intros i i1. subst i i1.
  assert (Hparsed :
    parsed accept_nonempty [(41, b "leaf"); (42, b "ca 1")]
      (map (fun data => {| subject := String.string_of_list_byte data;
                           hash_algo := "sha256"; self_signed := true |})
         [b "leaf"; b "ca 1"]))
    by (repeat constructor).
  destruct (failed_read_leaves_short_chain accept_nonempty 1 43 []
              [(41, b "leaf"); (42, b "ca 1")] [(44, b "ca 3")]
              (inspecting (running (established []) quiet)
                 [(41, b "leaf"); (42, b "ca 1"); (43, []); (44, b "ca 3")])
              _ _ (ValueError "certificate")
              eq_refl eq_refl eq_refl eq_refl eq_refl Hparsed eq_refl)
    as (Hraise & _ & Hints & _).
  rewrite Hraise, Hints. vm_compute. repeat split.
Defined.

(** * The start of the handshake *)

Lemma foldl_min_spec (c : Z) (rest : list Z) :
  foldl Z.min c rest ∈ c :: rest
  /\ forall x, x ∈ c :: rest -> foldl Z.min c rest <= x.
Proof.
  revert c. induction rest as [|y rest IH]; intros c; cbn.
  - split; [by left|]. intros x Hx. apply list_elem_of_singleton in Hx. lia.
  - destruct (IH (Z.min c y)) as [Hin Hle]. split.
    + apply elem_of_cons in Hin as [Hin|Hin].
      * rewrite Hin. destruct (Z.min_spec c y) as [[_ ->]|[_ ->]].
        -- by left.
        -- right. by left.
      * right. by right.
    + intros x Hx. apply elem_of_cons in Hx as [->|Hx].
      * specialize (Hle (Z.min c y) ltac:(by left)). lia.
      * apply elem_of_cons in Hx as [->|Hx].
        -- specialize (Hle (Z.min c y) ltac:(by left)). lia.
        -- apply Hle. by right.
Qed.

Lemma foldl_max_spec (c : Z) (rest : list Z) :
  foldl Z.max c rest ∈ c :: rest
  /\ forall x, x ∈ c :: rest -> x <= foldl Z.max c rest.
Proof.
  revert c. induction rest as [|y rest IH]; intros c; cbn.
  - split; [by left|]. intros x Hx. apply list_elem_of_singleton in Hx. lia.
  - destruct (IH (Z.max c y)) as [Hin Hle]. split.
    + apply elem_of_cons in Hin as [Hin|Hin].
      * rewrite Hin. destruct (Z.max_spec c y) as [[_ ->]|[_ ->]].
        -- right. by left.
        -- by left.
      * right. by right.
    + intros x Hx. apply elem_of_cons in Hx as [->|Hx].
      * specialize (Hle (Z.max c y) ltac:(by left)). lia.
      * apply elem_of_cons in Hx as [->|Hx].
        -- specialize (Hle (Z.max c y) ltac:(by left)). lia.
        -- apply Hle. by right.
Qed.

#[local] Arguments const_of_protocol : simpl never.

(** The statuses of the engine under the steps of the fragment. *)
Ltac accept Hst :=
  repeat (rewrite ?Hst; cbn;
          try rewrite (bool_decide_eq_true_2 (0 = 0) eq_refl); cbn).

(** X24.  On OS X from 10.8 on, with an engine that accepts every call
    and a session whose protocols are names of the constant table, at
    least one, the start of the handshake runs through: the object is
    registered under [id(self) % 2147483647] with its socket, the local
    holds the new context, and after the four calls that connect the
    context the engine is given a minimum and a maximum protocol version
    that are constants of protocols of the session and enclose the
    constants of them all, then the break-on-server-auth option when
    automatic validation is to be disabled. *)
Theorem handshake_start_sets_protocol_range `{PC : SSLProtocol}
  (s : setup) (sock : Z) :
  version_lt (osx_version_info (env (obj s))) (10, 8) = false ->
  (forall c, status s c = 0) ->
  _socket (self (obj s)) = Some sock ->
  _protocols (_session s) <> ∅ ->
  (forall p, p ∈ _protocols (_session s) -> is_Some (const_of_protocol p)) ->
  exists lo hi,
    let s' := snd (_handshake_start s) in
    let connection_id := id_self s mod 2147483647 in
    fst (_handshake_start s) = ended (Return tt)
    /\ settings s'
       = connected s
         ++ [SSLSetProtocolVersionMin (new_context s) lo;
             SSLSetProtocolVersionMax (new_context s) hi]
         ++ (if disable_auto_validation (_session s)
             then [SSLSetSessionOption (new_context s)
                     kSSLSessionOptionBreakOnServerAuth true]
             else [])
    /\ (exists p, p ∈ _protocols (_session s) /\ const_of_protocol p = Some lo)
    /\ (exists p, p ∈ _protocols (_session s) /\ const_of_protocol p = Some hi)
    /\ (forall p c, p ∈ _protocols (_session s) -> const_of_protocol p = Some c ->
        lo <= c <= hi)
    /\ _connection_id (self (obj s')) = Some connection_id
    /\ connection_id ∈ _connection_refs (obj s')
    /\ _socket_refs (obj s') !! connection_id = Some sock
    /\ local_session_context s' = Some (new_context s).
Proof.
  intros Hmodern Hst Hsock Hsome Hnames.
  assert (Hconsts : exists consts,
            mapM const_of_protocol (elements (_protocols (_session s))) = Some consts).
  { apply mapM_is_Some, Forall_forall. intros p Hp. apply Hnames.
    by apply elem_of_elements. }
  destruct Hconsts as [consts Hconsts].
  pose proof Hconsts as Hrows. apply mapM_Some in Hrows.
  destruct consts as [|c rest].
  { apply Forall2_nil_inv_r in Hrows. apply elements_empty_inv in Hrows.
    by apply leibniz_equiv in Hrows. }
  destruct (foldl_min_spec c rest) as [Hlo_in Hlo].
  destruct (foldl_max_spec c rest) as [Hhi_in Hhi].
  exists (foldl Z.min c rest), (foldl Z.max c rest).
  assert (Hfrom : forall x, x ∈ c :: rest ->
            exists p, p ∈ _protocols (_session s) /\ const_of_protocol p = Some x).
  { intros x Hx. apply list_elem_of_lookup in Hx as [k Hk].
    destruct (Forall2_lookup_r _ _ _ _ _ Hrows Hk) as (p & Hp & Hrow).
    exists p. split; [|done]. apply elem_of_elements.
    by apply list_elem_of_lookup_2 in Hp. }
  assert (Hto : forall p x, p ∈ _protocols (_session s) ->
            const_of_protocol p = Some x -> x ∈ c :: rest).
  { intros p x Hp Hx. apply elem_of_elements, list_elem_of_lookup in Hp as [k Hk].
    destruct (Forall2_lookup_l _ _ _ _ _ Hrows Hk) as (y & Hy & Hrow).
    apply list_elem_of_lookup_2 in Hy. congruence. }
  unfold _handshake_start, _handshake_body, session_protocol_consts, connected,
    disable_auto_validation, engine.
  unfold seq, lift. run.
  destruct s as [m session ids ctx st done local]. cbn in *.
  rewrite ?Hmodern. cbn. accept Hst.
  rewrite ?Hmodern, Hconsts. cbn. accept Hst.
  rewrite Hsock.
  destruct (_manual_validation session || _); cbn; accept Hst.
  all: split_and!; try done.
  all: try (by rewrite <- !app_assoc).
  all: try (by apply Hfrom).
  all: try (intros p x Hp Hx; split; [apply Hlo|apply Hhi]; by apply (Hto p)).
  all: try (apply elem_of_union_l; by apply elem_of_singleton).
  all: by apply lookup_insert_eq.
Qed.

Lemma handshake_start_sets_protocol_range_witness :
  let s := starting (fresh (handshaking []) quiet)
             (session_of {[ "SSLv3"; "TLSv1.2" ]}%string false [leaf_sha256])
             (fun _ => 0) in
  exists lo hi,
    settings (snd (_handshake_start s))
    = [SSLCreateContext; SSLSetIOFuncs 1; SSLSetConnection 1 7;
       SSLSetPeerDomainName 1 (b "example.com");
       SSLSetProtocolVersionMin 1 lo; SSLSetProtocolVersionMax 1 hi;
       SSLSetSessionOption 1 0 true]
    /\ lo <= kSSLProtocol3 /\ kTLSProtocol12 <= hi.
Proof.
  intros s. subst s.
  assert (Hsome : ({[ "SSLv3"; "TLSv1.2" ]}%string : gset string) <> ∅)
    by (intros Hempty; by vm_compute in Hempty).
  assert (Hnames : forall p : string,
            p ∈ ({[ "SSLv3"; "TLSv1.2" ]}%string : gset string) ->
            is_Some (const_of_protocol p)).
  { intros p [Hp|Hp]%elem_of_union; apply elem_of_singleton in Hp; subst p;
      by eexists. }
  destruct (handshake_start_sets_protocol_range
              (starting (fresh (handshaking []) quiet)
                 (session_of {[ "SSLv3"; "TLSv1.2" ]}%string false [leaf_sha256])
                 (fun _ => 0))
              3 eq_refl (fun _ => eq_refl) eq_refl Hsome Hnames)
    as (lo & hi & _ & Hsettings & _ & _ & Hrange & _).
  exists lo, hi. split; [exact Hsettings|].
  split.
  - apply (Hrange "SSLv3"%string); [|reflexivity].
    apply elem_of_union_l. by apply elem_of_singleton.
  - apply (Hrange "TLSv1.2"%string); [|reflexivity].
    apply elem_of_union_r. by apply elem_of_singleton.
Defined.

(** X25.  On OS X before 10.8, with an engine that accepts every call,
    the start of the handshake runs through whatever the protocols of the
    session are: after the four calls that connect the context it
    switches SSLv2, SSLv3 and TLSv1 on or off, each by its membership in
    the session's protocols, then switches certificate verification off
    when automatic validation is to be disabled.  Nothing is told to the
    engine about TLSv1.1 or TLSv1.2, and an empty protocol set switches
    the three off without an error. *)
Theorem handshake_start_legacy_protocols `{PC : SSLProtocol} (s : setup) :
  version_lt (osx_version_info (env (obj s))) (10, 8) = true ->
  (forall c, status s c = 0) ->
  let s' := snd (_handshake_start s) in
  let enabled protocol := bool_decide (protocol ∈ _protocols (_session s)) in
  fst (_handshake_start s) = ended (Return tt)
  /\ settings s'
     = connected s
       ++ [SSLSetProtocolVersionEnabled (new_context s) kSSLProtocol2 (enabled "SSLv2"%string);
           SSLSetProtocolVersionEnabled (new_context s) kSSLProtocol3 (enabled "SSLv3"%string);
           SSLSetProtocolVersionEnabled (new_context s) kTLSProtocol1 (enabled "TLSv1"%string)]
       ++ (if disable_auto_validation (_session s)
           then [SSLSetEnableCertVerify (new_context s) false]
           else []).
Proof.
  intros Hlegacy Hst s' enabled. subst s' enabled.
  unfold _handshake_start, _handshake_body, connected, disable_auto_validation,
    enable_protocols, lookup_protocol, engine.
  change (const_of_protocol "SSLv2") with (Some kSSLProtocol2).
  change (const_of_protocol "SSLv3") with (Some kSSLProtocol3).
  change (const_of_protocol "TLSv1") with (Some kTLSProtocol1).
  unfold seq, lift. run.
  destruct s as [m session ids ctx st done local]. cbn in *.
  rewrite ?Hlegacy. cbn. accept Hst.
  rewrite ?Hlegacy. cbn. accept Hst.
  destruct (_manual_validation session || _); cbn; accept Hst.
  all: split; [done|]; by rewrite <- !app_assoc.
Qed.

Lemma handshake_start_legacy_protocols_witness :
  let s := starting (fresh (handshaking []) lion_world)
             (session_of {[ "TLSv1"; "TLSv1.2" ]}%string true [])
             (fun _ => 0) in
  fst (_handshake_start s) = ended (Return tt)
  /\ settings (snd (_handshake_start s))
     = [SSLNewContext; SSLSetIOFuncs 1; SSLSetConnection 1 7;
        SSLSetPeerDomainName 1 (b "example.com");
        SSLSetProtocolVersionEnabled 1 1 false;
        SSLSetProtocolVersionEnabled 1 2 false;
        SSLSetProtocolVersionEnabled 1 4 true;
        SSLSetEnableCertVerify 1 false].
Proof.
  intros s. subst s.
  destruct (handshake_start_legacy_protocols
              (starting (fresh (handshaking []) lion_world)
                 (session_of {[ "TLSv1"; "TLSv1.2" ]}%string true [])
                 (fun _ => 0))
              eq_refl (fun _ => eq_refl))
    as [Hreturn Hsettings].
  split; [exact Hreturn|]. rewrite Hsettings. vm_compute. reflexivity.
Defined.

(** X26.  On OS X from 10.8 on, a session with no protocol at all stops
    the start of the handshake at [min()], with a [ValueError].  The
    [except] clause does not take it: the context that was created is
    not released, the socket is not closed, and the registry keeps the
    socket under the id of the object. *)
Theorem handshake_start_empty_protocols `{PC : SSLProtocol} (s : setup) (sock : Z) :
  version_lt (osx_version_info (env (obj s))) (10, 8) = false ->
  (forall c, status s c = 0) ->
  _socket (self (obj s)) = Some sock ->
  _protocols (_session s) = ∅ ->
  let s' := snd (_handshake_start s) in
  fst (_handshake_start s) = ended (Raise (ValueError "min() arg is an empty sequence"))
  /\ settings s' = connected s
  /\ env (obj s') = env (obj s)
  /\ _socket (self (obj s')) = Some sock
  /\ _socket_refs (obj s') !! (id_self s mod 2147483647) = Some sock
  /\ local_session_context s' = Some (new_context s).
Proof.
  intros Hmodern Hst Hsock Hempty s'. subst s'.
  unfold _handshake_start, _handshake_body, session_protocol_consts, connected, engine.
  unfold seq, lift. run.
  destruct s as [m session ids ctx st done local]. cbn in *.
  rewrite ?Hmodern. cbn. accept Hst.
  rewrite ?Hmodern, Hempty, elements_empty. cbn. rewrite Hsock.
  split_and!; try done.
  - by rewrite <- !app_assoc.
  - by apply lookup_insert_eq.
Qed.

Lemma handshake_start_empty_protocols_witness :
  let s := starting (fresh (handshaking []) quiet) (session_of ∅ false []) (fun _ => 0) in
  fst (_handshake_start s) = ended (Raise (ValueError "min() arg is an empty sequence"))
  /\ calls (env (obj (snd (_handshake_start s)))) = []
  /\ _socket_refs (obj (snd (_handshake_start s))) !! 7 = Some 3.
Proof.
  intros s. subst s.
  destruct (handshake_start_empty_protocols
              (starting (fresh (handshaking []) quiet) (session_of ∅ false [])
                 (fun _ => 0))
              3 eq_refl (fun _ => eq_refl) eq_refl eq_refl)
    as (Hraise & _ & Henv & _ & Hrefs & _).
  split_and!; [exact Hraise| |exact Hrefs].
  exact (f_equal calls Henv).
Defined.

(** The body leaves the system and the socket of the object as it found
    them; an error of the system that ends it is the refusal of the call
    made last, and unless that call is [SSLNewContext] the local holds
    the new context. *)
Lemma handshake_body_refusal `{PC : SSLProtocol} (s : setup) :
  let s1 := snd (_handshake_body s) in
  env (obj s1) = env (obj s)
  /\ _socket (self (obj s1)) = _socket (self (obj s))
  /\ forall e, fst (_handshake_body s) = ended (Raise e) -> is_OSError e = true ->
       exists c, last (settings s1) = Some c
                 /\ status s c <> 0
                 /\ e = SecError OSError_cls (status s c)
                 /\ (c <> SSLNewContext ->
                     local_session_context s1 = Some (new_context s)).
Proof.
  unfold _handshake_body, session_protocol_consts, enable_protocols, lookup_protocol,
    engine, py_min, py_max.
  change (const_of_protocol "SSLv2") with (Some kSSLProtocol2).
  change (const_of_protocol "SSLv3") with (Some kSSLProtocol3).
  change (const_of_protocol "TLSv1") with (Some kTLSProtocol1).
  unfold seq, lift. run.
  destruct s as [m session ids ctx st done local]. cbn.
  destruct (version_lt (osx_version_info (env m)) (10, 8)); cbn.
  all: repeat match goal with
              | |- context [bool_decide (?f ?c = 0)] =>
                  destruct (bool_decide (f c = 0)) eqn:?; cbn
              | |- context [mapM ?f ?l] =>
                  destruct (mapM f l) as [[|? ?]|]; cbn
              | |- context [_manual_validation ?x || ?y] =>
                  destruct (_manual_validation x || y); cbn
              end.
  all: split; [reflexivity|]; split; [reflexivity|]; intros e He Hos; try discriminate.
  all: injection He as <-; try discriminate.
  all: eexists; rewrite last_snoc; split; [reflexivity|]; reflect_tests; by split_and!.
Qed.

(** The [except] clause when no release fails: the error it was entered
    with is raised again, the object torn down. *)
Lemma handshake_handler_released (s : setup) (e : exn) :
  release_fails (env (obj s)) (local_session_context s) = false ->
  let s' := snd (_handshake_handler e s) in
  fst (_handshake_handler e s) = Raise e
  /\ _session_context (self (obj s')) = None
  /\ _socket (self (obj s')) = None
  /\ (forall id, _connection_id (self (obj s')) = Some id ->
      _socket_refs (obj s') !! id = None)
  /\ settings s' = settings s
  /\ local_session_context s' = local_session_context s.
Proof.
  intros Hreleased.
  assert (Hrest : forall m2 : machine,
            let r := (modify (with_self (set_session_context None));;; close;;;
                      (raise e : M machine unit)) m2 in
            fst r = Raise e
            /\ _session_context (self (snd r)) = None
            /\ _socket (self (snd r)) = None
            /\ (forall id, _connection_id (self (snd r)) = Some id ->
                _socket_refs (snd r) !! id = None)).
  { intros m2. unfold bind, modify, raise.
    set (m3 := with_self (set_session_context None) m2).
    pose proof (close_without_session m3 eq_refl) as Hclose.
    pose proof (close_returns m3 (snd (close m3))) as Hafter.
    destruct (close m3) as [o m4]. cbn in Hclose, Hafter. subst o.
    destruct (Hafter eq_refl) as (Hctx & Hsock & Hid & _ & Hrefs & _).
    cbn. split_and!; try done. intros id Hsome. apply Hrefs. by rewrite <- Hid. }
  assert (Hexcept : forall ctx : Z,
            (if version_lt (osx_version_info (env (obj s))) (10, 8)
             then bool_decide (SSLDisposeContext_reply (env (obj s)) <> 0)
             else CFRelease_fails (env (obj s))) = false ->
            let r := _handshake_except ctx e (obj s) in
            fst r = Raise e
            /\ _session_context (self (snd r)) = None
            /\ _socket (self (snd r)) = None
            /\ (forall id, _connection_id (self (snd r)) = Some id ->
                _socket_refs (snd r) !! id = None)).
  { intros ctx Hok.
    assert (Hrun : exists c,
              _handshake_except ctx e (obj s)
              = (modify (with_self (set_session_context None));;; close;;;
                 (raise e : M machine unit)) (with_env (log c) (obj s))).
    { unfold _handshake_except.
      unfold bind at 1, get at 1. unfold bind at 1.
      destruct (version_lt (osx_version_info (env (obj s))) (10, 8)).
      - exists (SSLDisposeContext ctx).
        unfold bind at 1, modify at 1, handle_sec_error.
        apply bool_decide_eq_false in Hok.
        rewrite (bool_decide_eq_true_2 (SSLDisposeContext_reply (env (obj s)) = 0));
          [reflexivity|].
        destruct (decide (SSLDisposeContext_reply (env (obj s)) = 0)); [done|].
        by destruct Hok.
      - exists (CFRelease ctx).
        unfold bind at 1, modify at 1, handle_cf_error. rewrite Hok. reflexivity. }
    destruct Hrun as [c Hrun]. cbn zeta. rewrite Hrun. apply Hrest. }
  assert (Hshape : exists c : M machine unit,
            _handshake_handler e s = in_obj c s
            /\ fst (c (obj s)) = Raise e
            /\ _session_context (self (snd (c (obj s)))) = None
            /\ _socket (self (snd (c (obj s)))) = None
            /\ (forall id, _connection_id (self (snd (c (obj s)))) = Some id ->
                _socket_refs (snd (c (obj s))) !! id = None)).
  { unfold _handshake_handler. unfold bind at 1, get at 1.
    unfold release_fails in Hreleased.
    destruct (local_session_context s) as [ctx'|].
    - destruct (bool_decide (ctx' <> 0)); cbn [andb] in Hreleased.
      + eexists. split; [reflexivity|]. by apply Hexcept.
      + eexists. split; [reflexivity|]. apply Hrest.
    - eexists. split; [reflexivity|]. apply Hrest. }
  destruct Hshape as (c & -> & H1 & H2 & H3 & H4).
  unfold in_obj. cbn. by split_and!.
Qed.

(** The [except] clause when the release fails: the error of the release
    is raised, and nothing else is done. *)
Lemma handshake_except_release_fails (m : machine) (ctx : Z) (e : exn) :
  (if version_lt (osx_version_info (env m)) (10, 8)
   then bool_decide (SSLDisposeContext_reply (env m) <> 0)
   else CFRelease_fails (env m)) = true ->
  _handshake_except ctx e m
  = (Raise (release_error (env m)), with_env (log (release_call (env m) ctx)) m).
Proof.
  intros Hfails. unfold _handshake_except, release_error, release_call.
  unfold bind at 1, get at 1. unfold bind at 1.
  destruct (version_lt (osx_version_info (env m)) (10, 8)).
  - unfold bind at 1, modify at 1, handle_sec_error.
    apply bool_decide_eq_true in Hfails.
    by rewrite (bool_decide_eq_false_2 _ Hfails).
  - unfold bind at 1, modify at 1, handle_cf_error. by rewrite Hfails.
Qed.

Lemma handshake_handler_release_fails (s : setup) (e : exn) :
  release_fails (env (obj s)) (local_session_context s) = true ->
  exists ctx,
    local_session_context s = Some ctx
    /\ _handshake_handler e s
       = (Raise (release_error (env (obj s))),
          on_obj (fun _ => with_env (log (release_call (env (obj s)) ctx)) (obj s)) s).
Proof.
  unfold release_fails, _handshake_handler.
  unfold bind at 1, get at 1.
  destruct (local_session_context s) as [ctx'|]; [|done].
  intros [Hnull Hfails]%andb_true_iff. exists ctx'. split; [done|].
  rewrite Hnull. unfold in_obj.
  by rewrite (handshake_except_release_fails (obj s) ctx' e Hfails).
Qed.

(** X27.  Whenever the start of [_handshake] ends in an error of the
    system, the engine has refused the call made last, and unless that
    call is [SSLNewContext] the local holds the new context.  When the
    [except] clause meets no failing release (no context, a null one, or
    one that the system releases), the error raised is that refusal with
    its status, and the object is left without context and without
    socket and is no longer found in [_socket_refs].  When the release
    fails, the error raised is the error of the release instead, the
    release is the only call made, and the socket is left as it was. *)
Theorem handshake_start_refusal_tears_down `{PC : SSLProtocol} (s : setup) (e : exn) :
  fst (_handshake_start s) = ended (Raise e) ->
  is_OSError e = true ->
  let s' := snd (_handshake_start s) in
  let w := env (obj s) in
  exists c,
    last (settings s') = Some c
    /\ status s c <> 0
    /\ (c <> SSLNewContext -> local_session_context s' = Some (new_context s))
    /\ if release_fails w (local_session_context s')
       then e = release_error w
            /\ _socket (self (obj s')) = _socket (self (obj s))
            /\ exists ctx,
                 local_session_context s' = Some ctx
                 /\ calls (env (obj s')) = calls w ++ [release_call w ctx]
       else e = SecError OSError_cls (status s c)
            /\ _session_context (self (obj s')) = None
            /\ _socket (self (obj s')) = None
            /\ (forall id, _connection_id (self (obj s')) = Some id ->
                _socket_refs (obj s') !! id = None).
Proof.
  intros Hraise Hos s' w. subst s' w.
  destruct (handshake_body_refusal s) as (Henv & Hsocket & Hrefused).
  unfold _handshake_start in *.
  destruct (_handshake_body s) as [[[[]|e'|]|] s1]; cbn [fst snd] in *;
    try discriminate.
  destruct (is_OSError e') eqn:Hos'; [|injection Hraise as ->; congruence].
  destruct (Hrefused e' eq_refl Hos') as (c & Hlast & Hstatus & He' & Hlocal).
  exists c. rewrite <- Henv.
  destruct (release_fails (env (obj s1)) (local_session_context s1)) eqn:Hfails.
  - destruct (handshake_handler_release_fails s1 e' Hfails) as (ctx & Hctx & Hrun).
    unfold lift in *. rewrite Hrun in *. cbn in *. injection Hraise as <-.
    rewrite Hfails. split_and!; try done. by exists ctx.
  - pose proof (handshake_handler_released s1 e' Hfails) as Hdown.
    unfold lift in *. destruct (_handshake_handler e' s1) as [o s2]. cbn in *.
    destruct Hdown as (Hfst & Hctx & Hsock & Hrefs & Hsettings & Hsame). subst o.
    injection Hraise as <-. rewrite Hsame, Hfails, Hsettings.
    split_and!; try done.
Qed.

Lemma handshake_start_refusal_tears_down_witness :
  let refuse c := if bool_decide (c = SSLSetPeerDomainName 1 (b "example.com"))
                  then -1 else 0 in
  let s := starting (fresh (handshaking []) quiet)
             (session_of {[ "TLSv1.2" ]}%string false []) refuse in
  let l := starting (fresh (handshaking []) lion_world)
             (session_of {[ "TLSv1.2" ]}%string false []) refuse in
  (fst (_handshake_start s) = ended (Raise (SecError OSError_cls (-1)))
   /\ _socket (self (obj (snd (_handshake_start s)))) = None
   /\ _socket_refs (obj (snd (_handshake_start s))) !! 7 = None)
  /\ (fst (_handshake_start l) = ended (Raise (SecError OSError_cls (-50)))
      /\ _socket (self (obj (snd (_handshake_start l)))) = Some 3
      /\ calls (env (obj (snd (_handshake_start l)))) = [SSLDisposeContext 1]).
Proof.
  intros refuse s l. subst refuse s l.
  set (refuse := fun c => if bool_decide (c = SSLSetPeerDomainName 1 (b "example.com"))
                          then -1 else 0).
  set (s := starting (fresh (handshaking []) quiet)
              (session_of {[ "TLSv1.2" ]}%string false []) refuse).
  set (l := starting (fresh (handshaking []) lion_world)
              (session_of {[ "TLSv1.2" ]}%string false []) refuse).
  split.
  - assert (Hraise : fst (_handshake_start s) = ended (Raise (SecError OSError_cls (-1))))
      by (vm_compute; reflexivity).
    assert (Hreleased : release_fails (env (obj s))
                          (local_session_context (snd (_handshake_start s))) = false)
      by (vm_compute; reflexivity).
    destruct (handshake_start_refusal_tears_down s _ Hraise eq_refl)
      as (c & _ & _ & _ & Hcases).
    rewrite Hreleased in Hcases. destruct Hcases as (_ & _ & Hsock & Hrefs).
    split_and!; [exact Hraise|exact Hsock|].
    apply Hrefs. vm_compute. reflexivity.
  - assert (Hraise : fst (_handshake_start l) = ended (Raise (SecError OSError_cls (-50))))
      by (vm_compute; reflexivity).
    assert (Hfails : release_fails (env (obj l))
                       (local_session_context (snd (_handshake_start l))) = true)
      by (vm_compute; reflexivity).
    destruct (handshake_start_refusal_tears_down l _ Hraise eq_refl)
      as (c & _ & _ & Hlocal & Hcases).
    rewrite Hfails in Hcases. destruct Hcases as (_ & Hsock & ctx & Hctx & Hcalls).
    split_and!; [exact Hraise|exact Hsock|].
    rewrite Hcalls. vm_compute in Hctx. injection Hctx as <-. vm_compute. reflexivity.
Defined.
